(** * Zulip MCP server: the tool dispatcher and the remote operation facade

    A shallow embedding of [src/index.ts]: the [ZulipClient] class (one method
    per remote operation) and the handler registered for [CallToolRequest].

    Conventions of the embedding.
    - Values are the JSON values a request or a remote response carries
      ([Json]); a slot that may hold [undefined] is a [JsVal].  TypeScript's
      casts ([as unknown as PostMessageArgs]) perform no check at run time, so
      an argument keeps its run-time value whatever its declared type.
    - A number is a binary64 floating point number: an integer of [Z], a
      fraction held as its shortest decimal, the negative zero or an
      infinity (see Numbers below).
    - Strings are byte strings (the UTF-8 form of the text).
    - An object is the list of its members in enumeration order.
    - An [async] method is a function from the trace of the remote calls
      issued so far to an outcome (a returned value or a thrown exception)
      and the extended trace.
    - The connection [this.client] is a parameter of the facade: [main]
      builds the client from an API key before it registers the handler, so
      the connection is taken as established when a request arrives.
    - Diagnostics written with [console.error] are not part of the model. *)

From Stdlib Require Import ZArith List String Ascii Bool Lia.
From Stdlib Require Import DecimalString DecimalZ DecimalPos DecimalN.
From Stdlib Require DecimalFacts.
Import ListNotations.
Local Open Scope string_scope.

(** ** JavaScript values *)

Unset Elimination Schemes.
Inductive Json : Type :=
| JNull
| JBool (b : bool)
| JNum (n : Z)
| JFrac (negative : bool) (digits : string) (point : Z)
| JNegZero
| JInfinity (negative : bool)
| JStr (s : string)
| JArr (elements : list Json)
| JObj (members : list (string * Json)).
Set Elimination Schemes.

(** A value or [undefined]. *)
Definition JsVal : Type := option Json.
Abbreviation undefined := (@None Json).

(** An object under construction by the program: its properties in insertion
    order; a property may hold [undefined]. *)
Definition JsObject : Type := list (string * JsVal).

(** The double quote character (code 34). *)
Definition dquote : ascii := "034"%char.

(** Induction on [Json] that reaches the values nested in arrays and objects. *)
Definition Json_ind (P : Json -> Prop)
  (Hnull : P JNull)
  (Hbool : forall b, P (JBool b))
  (Hnum : forall n, P (JNum n))
  (Hfrac : forall negative digits point, P (JFrac negative digits point))
  (Hnegzero : P JNegZero)
  (Hinfinity : forall negative, P (JInfinity negative))
  (Hstr : forall s, P (JStr s))
  (Harr : forall l, Forall P l -> P (JArr l))
  (Hobj : forall m, Forall (fun kv => P (snd kv)) m -> P (JObj m)) :
  forall v, P v :=
  fix go (v : Json) : P v :=
    match v with
    | JNull => Hnull
    | JBool b => Hbool b
    | JNum n => Hnum n
    | JFrac negative digits point => Hfrac negative digits point
    | JNegZero => Hnegzero
    | JInfinity negative => Hinfinity negative
    | JStr s => Hstr s
    | JArr l =>
        Harr l ((fix go_list (l : list Json) : Forall P l :=
                   match l with
                   | [] => Forall_nil _
                   | x :: r => Forall_cons x (go x) (go_list r)
                   end) l)
    | JObj m =>
        Hobj m ((fix go_members (m : list (string * Json))
                   : Forall (fun kv => P (snd kv)) m :=
                   match m with
                   | [] => Forall_nil _
                   | kv :: r => Forall_cons kv (go (snd kv)) (go_members r)
                   end) m)
    end.

(** *** Property access *)

(** The first binding of [k] in a property list. *)
Fixpoint assoc {A : Type} (k : string) (m : list (string * A)) : option A :=
  match m with
  | [] => None
  | (k', v) :: r => if String.eqb k k' then Some v else assoc k r
  end.

(** [obj[k] = v]: replaces the value of an existing property in place,
    appends a new property otherwise. *)
Fixpoint obj_set {A : Type} (k : string) (v : A) (m : list (string * A))
  : list (string * A) :=
  match m with
  | [] => [(k, v)]
  | (k', v') :: r =>
      if String.eqb k k' then (k', v) :: r else (k', v') :: obj_set k v r
  end.

(** [args.k] on the argument bag of a request, which is an object. *)
Definition get_arg (args : list (string * Json)) (k : string) : JsVal :=
  assoc k args.

(** *** Numbers

    A number of JavaScript is a binary64 floating point number.  One whose
    value is an integer [n] is [JNum n].  One whose value is not an integer
    is [JFrac negative digits point]: it is held as the decimal that
    [Number::toString] prints for it, the shortest that reads as the number,
    whose value is [0.digits * 10 ^ point] with the sign in front.  The
    negative zero is [JNegZero], the infinities are [JInfinity]; [NaN] is
    not a value that JSON text carries. *)

(** [n] zeros. *)
Fixpoint zeros (n : nat) : string :=
  match n with
  | O => ""
  | S n' => String "0" (zeros n')
  end.

(** The first [n] characters of a string, and the string without them. *)
Fixpoint take (n : nat) (s : string) : string :=
  match n, s with
  | S n', String c r => String c (take n' r)
  | _, _ => ""
  end.

Fixpoint drop (n : nat) (s : string) : string :=
  match n, s with
  | S n', String _ r => drop n' r
  | _, _ => s
  end.

(** Whether a character is a decimal digit. *)
Definition is_digit (c : ascii) : bool :=
  (48 <=? N_of_ascii c)%N && (N_of_ascii c <=? 57)%N.

(** The longest run of digits at the head of the text, and the text after
    it. *)
Fixpoint span_digits (s : string) : string * string :=
  match s with
  | EmptyString => ("", "")
  | String c r =>
      if is_digit c then let (d, rest) := span_digits r in (String c d, rest)
      else ("", s)
  end.

(** The integer that decimal digits write, after the digits that gave
    [acc]. *)
Fixpoint digits_value (s : string) (acc : Z) : Z :=
  match s with
  | EmptyString => acc
  | String c r => digits_value r (10 * acc + (Z.of_N (N_of_ascii c) - 48))
  end.

(** The decimal digits of a natural number (of 0 when [n] is negative). *)
Definition decimal_digits (n : Z) : string :=
  NilEmpty.string_of_uint (N.to_uint (Z.to_N n)).

Fixpoint strip_leading_zeros (s : string) : string :=
  match s with
  | EmptyString => ""
  | String c r => if Ascii.eqb c "0" then strip_leading_zeros r else s
  end.

Fixpoint strip_trailing_zeros (s : string) : string :=
  match s with
  | EmptyString => ""
  | String c r =>
      match strip_trailing_zeros r with
      | EmptyString => if Ascii.eqb c "0" then "" else String c ""
      | r' => String c r'
      end
  end.

(** The value [0.digits * 10 ^ point] as a fraction of two integers. *)
Definition decimal_fraction (digits : string) (point : Z) : Z * Z :=
  let shift := (point - Z.of_nat (String.length digits))%Z in
  if (0 <=? shift)%Z then (digits_value digits 0 * 10 ^ shift, 1)%Z
  else (digits_value digits 0, 10 ^ (- shift))%Z.

(** **** Rounding to binary64 *)

(** The integer nearest to [p / q], the even one of two that are as near. *)
Definition round_half_even (p q : Z) : Z :=
  let f := (p / q)%Z in
  let r := (p mod q)%Z in
  if (2 * r <? q)%Z then f
  else if (q <? 2 * r)%Z then (f + 1)%Z
  else if Z.even f then f else (f + 1)%Z.

(** The exponent [l] with [2 ^ l <= p / q < 2 ^ (l + 1)], for positive [p]
    and [q]. *)
Definition floor_log2 (p q : Z) : Z :=
  let l := (Z.log2 p - Z.log2 q)%Z in
  if (if (0 <=? l)%Z then (q * 2 ^ l <=? p)%Z else (q <=? p * 2 ^ (- l))%Z)
  then l else (l - 1)%Z.

(** The binary64 number nearest to [p / q], the one with the even
    significand of two that are as near: the pair [(m, e)] of value
    [m * 2 ^ e] with [m < 2 ^ 53] and [e >= -1074], where [m >= 2 ^ 52]
    unless [e = -1074].  The value has left the range of the finite numbers
    when [e > 971]. *)
Definition to_binary64 (p q : Z) : Z * Z :=
  let e := Z.max (floor_log2 p q - 52) (-1074) in
  let m :=
    if (0 <=? e)%Z then round_half_even p (q * 2 ^ e)
    else round_half_even (p * 2 ^ (- e)) q in
  if (m =? 2 ^ 53)%Z then (2 ^ 52, e + 1)%Z else (m, e).

(** The binary64 number that decimal digits read as. *)
Definition read_decimal (digits : string) (point : Z) : Z * Z :=
  let (p, q) := decimal_fraction digits point in to_binary64 p q.

(** The value [m * 2 ^ e] as a fraction of two integers. *)
Definition binary64_fraction (m e : Z) : Z * Z :=
  if (0 <=? e)%Z then (m * 2 ^ e, 1)%Z else (m, 2 ^ (- e))%Z.

(** The value [m * 2 ^ e] when it is an integer. *)
Definition binary64_integer (m e : Z) : option Z :=
  if (0 <=? e)%Z then Some (m * 2 ^ e)%Z
  else if (m mod 2 ^ (- e) =? 0)%Z then Some (m / 2 ^ (- e))%Z
  else None.

(** **** The shortest decimal of a number *)

(** How often [p / q], below 1, is to be multiplied by 10 to reach 1/10. *)
Fixpoint leading_zeros (fuel : nat) (p q : Z) : Z :=
  match fuel with
  | O => 0
  | S fuel' =>
      if (q <=? 10 * p)%Z then 0%Z
      else (1 + leading_zeros fuel' (10 * p) q)%Z
  end.

(** The [n] with [10 ^ (n - 1) <= p / q < 10 ^ n]. *)
Definition decimal_order (p q : Z) : Z :=
  if (q <=? p)%Z then Z.of_nat (String.length (decimal_digits (p / q)))
  else (- leading_zeros 400 p q)%Z.

(** The decimal [s * 10 ^ exponent] as digits without zeros at the end and
    the position of the point. *)
Definition decimal_of_integer (s exponent : Z) : string * Z :=
  let digits := decimal_digits s in
  (strip_trailing_zeros digits,
   (Z.of_nat (String.length digits) + exponent)%Z).

(** The decimal of [k] digits that reads as the number [(m, e)], of value
    [p / q]: the multiple of [10 ^ (order - k)] nearest to [p / q] when it
    reads as the number, its other neighbour when that one does. *)
Definition decimal_of_length (m e p q order k : Z) : option (string * Z) :=
  let shift := (k - order)%Z in
  let (tp, tq) :=
    if (0 <=? shift)%Z then (p * 10 ^ shift, q)%Z
    else (p, q * 10 ^ (- shift))%Z in
  let near := round_half_even tp tq in
  let far := if (near =? tp / tq)%Z then (near + 1)%Z else (tp / tq)%Z in
  let reads (d : string * Z) : bool :=
    let (m', e') := read_decimal (fst d) (snd d) in
    (m' =? m)%Z && (e' =? e)%Z in
  if reads (decimal_of_integer near (- shift))
  then Some (decimal_of_integer near (- shift))
  else if reads (decimal_of_integer far (- shift))
  then Some (decimal_of_integer far (- shift))
  else None.

(** The first length from [k] on, of [fuel] lengths, at which there is such
    a decimal. *)
Fixpoint shortest_from (fuel : nat) (m e p q order k : Z)
  : option (string * Z) :=
  match fuel with
  | O => None
  | S fuel' =>
      match decimal_of_length m e p q order k with
      | Some d => Some d
      | None => shortest_from fuel' m e p q order (k + 1)
      end
  end.

(** The shortest decimal that reads as the number [(m, e)], looked for
    among the decimals of 1 to 17 digits (17 digits tell any two binary64
    numbers apart). *)
Definition shortest_decimal (m e : Z) : option (string * Z) :=
  let (p, q) := binary64_fraction m e in
  shortest_from 17 m e p q (decimal_order p q) 1.

(** The value of the binary64 number [(m, e)] with its sign: a zero, an
    infinity, an integer, or the shortest decimal of the number (its exact
    decimal, which always reads as the number, stands in where the search
    finds none). *)
Definition Number_of_binary64 (negative : bool) (m e : Z) : Json :=
  if (m =? 0)%Z then if negative then JNegZero else JNum 0
  else if (971 <? e)%Z then JInfinity negative
  else
    match binary64_integer m e with
    | Some v => JNum (if negative then - v else v)
    | None =>
        let (digits, point) :=
          match shortest_decimal m e with
          | Some d => d
          | None => decimal_of_integer (m * 5 ^ (- e)) e
          end in
        JFrac negative digits point
    end.

(** **** [Number::toString] *)

(** The exponent form [d.ddde+x] of digits with the point at [point]. *)
Definition exponent_form (digits : string) (point : Z) : string :=
  let e := (point - 1)%Z in
  let exponent :=
    String "e" ((if (0 <=? e)%Z then "+" else "-")
                  ++ decimal_digits (Z.abs e)) in
  match digits with
  | EmptyString => exponent
  | String d EmptyString => String d exponent
  | String d r => String d (String "." (r ++ exponent))
  end.

(** The text of a positive number whose shortest decimal is
    [0.digits * 10 ^ point], by the cases of [Number::toString]: the digits
    with zeros after them, the digits with a point among them, the digits
    after zeros, or the exponent form. *)
Definition Number_format (digits : string) (point : Z) : string :=
  let k := Z.of_nat (String.length digits) in
  if (k <=? point)%Z && (point <=? 21)%Z then
    digits ++ zeros (Z.to_nat (point - k))
  else if (0 <? point)%Z && (point <=? 21)%Z then
    take (Z.to_nat point) digits ++ String "." (drop (Z.to_nat point) digits)
  else if (-6 <? point)%Z && (point <=? 0)%Z then
    String "0" (String "." (zeros (Z.to_nat (- point)) ++ digits))
  else exponent_form digits point.

(** [Number::toString] on an integer: the sign and the shortest decimal of
    the binary64 number that the integer is (of the one nearest to it, if
    it is none), in the format above. *)
Definition Number_toString (n : Z) : string :=
  if (n =? 0)%Z then "0"
  else
    let (m, e) := to_binary64 (Z.abs n) 1 in
    let (digits, point) :=
      match shortest_decimal m e with
      | Some d => d
      | None => decimal_of_integer (Z.abs n) 0
      end in
    (if (n <? 0)%Z then "-" else "") ++ Number_format digits point.

(** [Number::toString] on a number that is not an integer. *)
Definition Fraction_toString (negative : bool) (digits : string) (point : Z)
  : string :=
  (if negative then "-" else "") ++ Number_format digits point.

(** *** Coercions *)

(** [ToBoolean]: the falsy values are [undefined], [null], [false], the
    zeros and the empty string; arrays and objects are truthy, also when
    empty. *)
Definition ToBoolean (v : JsVal) : bool :=
  match v with
  | None => false
  | Some JNull => false
  | Some (JBool b) => b
  | Some (JNum n) => negb (Z.eqb n 0)
  | Some (JFrac _ _ _) => true
  | Some JNegZero => false
  | Some (JInfinity _) => true
  | Some (JStr s) => negb (String.eqb s "")
  | Some (JArr _) => true
  | Some (JObj _) => true
  end.

(** [ToString] of a JSON value whose conversion does not fail (see
    [converts_to_primitive] and [ToString_or_throw] below).  An array joins
    its elements with commas, [null] elements giving the empty string; an
    object gives ["[object Object]"]. *)
Fixpoint Json_toString (v : Json) : string :=
  match v with
  | JNull => "null"
  | JBool true => "true"
  | JBool false => "false"
  | JNum n => Number_toString n
  | JFrac negative digits point => Fraction_toString negative digits point
  | JNegZero => "0"
  | JInfinity false => "Infinity"
  | JInfinity true => "-Infinity"
  | JStr s => s
  | JArr l =>
      match l with
      | [] => ""
      | x :: r =>
          match x with JNull => "" | _ => Json_toString x end ++
          (fix rest (r : list Json) : string :=
             match r with
             | [] => ""
             | y :: r' =>
                 "," ++ match y with JNull => "" | _ => Json_toString y end
                     ++ rest r'
             end) r
      end
  | JObj _ => "[object Object]"
  end.

Definition ToString (v : JsVal) : string :=
  match v with
  | None => "undefined"
  | Some j => Json_toString j
  end.

(** [a === b].  Arrays and objects compare by identity: a value taken from a
    remote response and a value taken from a request are never the same
    object, so the comparison is [false] for them.  The two zeros are
    equal. *)
Definition strict_equal (a b : JsVal) : bool :=
  match a, b with
  | None, None => true
  | Some JNull, Some JNull => true
  | Some (JBool x), Some (JBool y) => Bool.eqb x y
  | Some (JNum x), Some (JNum y) => Z.eqb x y
  | Some (JNum x), Some JNegZero => Z.eqb x 0
  | Some JNegZero, Some (JNum y) => Z.eqb y 0
  | Some JNegZero, Some JNegZero => true
  | Some (JFrac s x p), Some (JFrac t y q) =>
      Bool.eqb s t && String.eqb x y && Z.eqb p q
  | Some (JInfinity s), Some (JInfinity t) => Bool.eqb s t
  | Some (JStr x), Some (JStr y) => String.eqb x y
  | _, _ => false
  end.

(** A formal parameter with a default value: the default replaces
    [undefined] only. *)
Definition default_parameter (v : JsVal) (d : Json) : Json :=
  match v with
  | None => d
  | Some j => j
  end.

(** ** Exceptions and outcomes *)

(** What a [throw] carries: an [Error] object (of which only the message is
    observed) or any other value. *)
Inductive Exception : Type :=
| Error (message : string)
| Thrown (value : JsVal).

Inductive Outcome (A : Type) : Type :=
| Returned (a : A)
| Threw (e : Exception).
Arguments Returned {A} a.
Arguments Threw {A} e.

(** The [TypeError]s of V8 that the program can run into. *)
Definition TypeError_cannot_read (what prop : string) : Exception :=
  Error ("Cannot read properties of " ++ what ++ " (reading '" ++ prop ++ "')").

Definition TypeError_not_a_function (expr : string) : Exception :=
  Error (expr ++ " is not a function").

Definition TypeError_cannot_convert : Exception :=
  Error "Cannot convert object to primitive value".

(** Whether [ToPrimitive] succeeds on a value.  An object of JSON data
    inherits [toString] and [valueOf] from [Object.prototype] unless it has
    a member of that name; a member is data, not a function, and
    [OrdinaryToPrimitive] passes over it.  With a member [toString] no
    method is left that returns a primitive value (the inherited [valueOf]
    returns the object itself) and the conversion throws.  An array
    converts by joining the conversions of its elements. *)
Fixpoint converts_to_primitive (v : Json) : bool :=
  match v with
  | JArr l => forallb converts_to_primitive l
  | JObj m =>
      match assoc "toString" m with
      | Some _ => false
      | None => true
      end
  | _ => true
  end.

(** [ToString] on a value of a request, as a template literal applies
    it. *)
Definition ToString_or_throw (v : JsVal) : Outcome string :=
  match v with
  | None => Returned "undefined"
  | Some j =>
      if converts_to_primitive j then Returned (Json_toString j)
      else Threw TypeError_cannot_convert
  end.

(** [v.k] for a property name [k] that no built-in prototype defines (the
    program reads [streams] and [name]): reading from [undefined] or [null]
    throws, an object yields its own property, any other value yields
    [undefined]. *)
Definition get_property (v : JsVal) (k : string) : Outcome JsVal :=
  match v with
  | None => Threw (TypeError_cannot_read "undefined" k)
  | Some JNull => Threw (TypeError_cannot_read "null" k)
  | Some (JObj m) => Returned (assoc k m)
  | Some _ => Returned undefined
  end.

(** [Array.prototype.find]: the first element on which the callback holds,
    [undefined] when there is none; an exception of the callback ends the
    search. *)
Fixpoint Array_find (callback : Json -> Outcome bool) (l : list Json)
  : Outcome JsVal :=
  match l with
  | [] => Returned undefined
  | x :: r =>
      match callback x with
      | Threw e => Threw e
      | Returned true => Returned (Some x)
      | Returned false => Array_find callback r
      end
  end.

(** [streams.find(callback)] on an arbitrary value: only an array has the
    method. *)
Definition call_find (expr : string) (streams : JsVal)
  (callback : Json -> Outcome bool) : Outcome JsVal :=
  match streams with
  | None => Threw (TypeError_cannot_read "undefined" "find")
  | Some JNull => Threw (TypeError_cannot_read "null" "find")
  | Some (JArr l) => Array_find callback l
  | Some _ => Threw (TypeError_not_a_function (expr ++ ".find"))
  end.

(** ** [JSON.stringify] *)

Module JSON.

(** A hexadecimal digit, in lower case. *)
Definition hex_digit (n : nat) : ascii :=
  if Nat.ltb n 10 then ascii_of_nat (48 + n) else ascii_of_nat (87 + n).

(** [QuoteJSONString] on one character: the quote and the backslash are
    escaped, the control characters below U+0020 get their short escape or
    [\u00XX], every other character stands for itself. *)
Definition quote_char (c : ascii) : string :=
  let n := nat_of_ascii c in
  if Nat.eqb n 34 then String "\" (String dquote "")
  else if Nat.eqb n 92 then "\\"
  else if Nat.eqb n 8 then "\b"
  else if Nat.eqb n 9 then "\t"
  else if Nat.eqb n 10 then "\n"
  else if Nat.eqb n 12 then "\f"
  else if Nat.eqb n 13 then "\r"
  else if Nat.ltb n 32 then
    "\u00" ++ String (hex_digit (n / 16)) (String (hex_digit (n mod 16)) "")
  else String c "".

Fixpoint quote_chars (s : string) : string :=
  match s with
  | EmptyString => ""
  | String c r => quote_char c ++ quote_chars r
  end.

Definition QuoteJSONString (s : string) : string :=
  String dquote (quote_chars s ++ String dquote "").

(** [JSON.stringify(v)] without indentation: no white space, the members of
    an object in their order.  A number is written by [Number::toString],
    an infinity as [null]. *)
Fixpoint stringify (v : Json) : string :=
  match v with
  | JNull => "null"
  | JBool true => "true"
  | JBool false => "false"
  | JNum n => Number_toString n
  | JFrac negative digits point => Fraction_toString negative digits point
  | JNegZero => "0"
  | JInfinity _ => "null"
  | JStr s => QuoteJSONString s
  | JArr [] => "[]"
  | JArr (x :: r) =>
      "[" ++ stringify x ++
      (fix elements (r : list Json) : string :=
         match r with
         | [] => "]"
         | y :: r' => "," ++ stringify y ++ elements r'
         end) r
  | JObj [] => "{}"
  | JObj ((k, x) :: r) =>
      "{" ++ QuoteJSONString k ++ ":" ++ stringify x ++
      (fix members (r : list (string * Json)) : string :=
         match r with
         | [] => "}"
         | (k', y) :: r' =>
             "," ++ QuoteJSONString k' ++ ":" ++ stringify y ++ members r'
         end) r
  end.

(** The elements of an array after the first, up to the closing bracket. *)
Fixpoint stringify_elements (r : list Json) : string :=
  match r with
  | [] => "]"
  | y :: r' => "," ++ stringify y ++ stringify_elements r'
  end.

(** The members of an object after the first, up to the closing brace. *)
Fixpoint stringify_members (r : list (string * Json)) : string :=
  match r with
  | [] => "}"
  | (k, y) :: r' =>
      "," ++ QuoteJSONString k ++ ":" ++ stringify y ++ stringify_members r'
  end.

(** [JSON.stringify] of an object built by the program: a property that
    holds [undefined] is left out. *)
Fixpoint defined_properties (o : JsObject) : list (string * Json) :=
  match o with
  | [] => []
  | (k, Some v) :: r => (k, v) :: defined_properties r
  | (_, None) :: r => defined_properties r
  end.

(** *** [JSON.parse]

    The decoder reads the JSON grammar: white space between tokens, the
    escapes of strings, arrays and objects of any depth.  It returns [None]
    where [JSON.parse] throws a [SyntaxError], and also on text whose value
    this development cannot represent: an escaped surrogate that has no
    partner.  The members of
    an object come in the order of the text (JavaScript enumerates names
    that are array indices first). *)

Definition is_whitespace (c : ascii) : bool :=
  let n := nat_of_ascii c in
  Nat.eqb n 32 || Nat.eqb n 9 || Nat.eqb n 10 || Nat.eqb n 13.

Fixpoint skip_whitespace (s : string) : string :=
  match s with
  | EmptyString => ""
  | String c r => if is_whitespace c then skip_whitespace r else s
  end.

(** The value of a hexadecimal digit, in either case. *)
Definition hex_value (c : ascii) : option N :=
  let n := N_of_ascii c in
  if (48 <=? n)%N && (n <=? 57)%N then Some (n - 48)%N
  else if (97 <=? n)%N && (n <=? 102)%N then Some (n - 87)%N
  else if (65 <=? n)%N && (n <=? 70)%N then Some (n - 55)%N
  else None.

(** The code unit written by four hexadecimal digits. *)
Definition hex4 (h1 h2 h3 h4 : ascii) : option N :=
  match hex_value h1, hex_value h2, hex_value h3, hex_value h4 with
  | Some a, Some b, Some c, Some d => Some (((a * 16 + b) * 16 + c) * 16 + d)%N
  | _, _, _, _ => None
  end.

(** The UTF-8 bytes of a code point. *)
Definition utf8 (n : N) : string :=
  if (n <? 128)%N then String (ascii_of_N n) ""
  else if (n <? 2048)%N then
    String (ascii_of_N (192 + n / 64))
      (String (ascii_of_N (128 + n mod 64)) "")
  else if (n <? 65536)%N then
    String (ascii_of_N (224 + n / 4096))
      (String (ascii_of_N (128 + (n / 64) mod 64))
         (String (ascii_of_N (128 + n mod 64)) ""))
  else
    String (ascii_of_N (240 + n / 262144))
      (String (ascii_of_N (128 + (n / 4096) mod 64))
         (String (ascii_of_N (128 + (n / 64) mod 64))
            (String (ascii_of_N (128 + n mod 64)) ""))).

Definition is_high_surrogate (n : N) : bool :=
  (55296 <=? n)%N && (n <? 56320)%N.

Definition is_low_surrogate (n : N) : bool :=
  (56320 <=? n)%N && (n <? 57344)%N.

(** Puts decoded characters in front of the rest of a decoded string. *)
Definition prepend (t : string) (r : option (string * string))
  : option (string * string) :=
  match r with
  | Some (u, rest) => Some (t ++ u, rest)
  | None => None
  end.

(** The characters of a string after its opening quote, up to and including
    the closing quote; returns the decoded string and the text that
    follows. *)
Fixpoint parse_chars (s : string) : option (string * string) :=
  match s with
  | EmptyString => None
  | String c r =>
      if Ascii.eqb c dquote then Some ("", r)
      else if Ascii.eqb c "\" then
        match r with
        | EmptyString => None
        | String e r1 =>
            if Ascii.eqb e dquote then prepend (String dquote "") (parse_chars r1)
            else if Ascii.eqb e "\" then prepend "\" (parse_chars r1)
            else if Ascii.eqb e "/" then prepend "/" (parse_chars r1)
            else if Ascii.eqb e "b" then prepend (String "008" "") (parse_chars r1)
            else if Ascii.eqb e "f" then prepend (String "012" "") (parse_chars r1)
            else if Ascii.eqb e "n" then prepend (String "010" "") (parse_chars r1)
            else if Ascii.eqb e "r" then prepend (String "013" "") (parse_chars r1)
            else if Ascii.eqb e "t" then prepend (String "009" "") (parse_chars r1)
            else if Ascii.eqb e "u" then
              match r1 with
              | String h1 (String h2 (String h3 (String h4 r2))) =>
                  match hex4 h1 h2 h3 h4 with
                  | None => None
                  | Some hi =>
                      if is_high_surrogate hi then
                        match r2 with
                        | String "\" (String "u" (String l1 (String l2
                            (String l3 (String l4 r3))))) =>
                            match hex4 l1 l2 l3 l4 with
                            | None => None
                            | Some lo =>
                                if is_low_surrogate lo then
                                  prepend
                                    (utf8 (65536 + (hi - 55296) * 1024
                                             + (lo - 56320))%N)
                                    (parse_chars r3)
                                else None
                            end
                        | _ => None
                        end
                      else if is_low_surrogate hi then None
                      else prepend (utf8 hi) (parse_chars r2)
                  end
              | _ => None
              end
            else None
        end
      else if (N_of_ascii c <? 32)%N then None
      else prepend (String c "") (parse_chars r)
  end.

(** Whether the text goes on with a fraction or an exponent. *)
Definition continues_number (s : string) : bool :=
  match s with
  | String c _ => Ascii.eqb c "." || Ascii.eqb c "e" || Ascii.eqb c "E"
  | EmptyString => false
  end.

(** The fraction of a number, if there is one: a point and digits. *)
Definition parse_fraction (s : string) : option (string * string) :=
  match s with
  | EmptyString => Some ("", s)
  | String c r =>
      if Ascii.eqb c "." then
        match span_digits r with
        | (EmptyString, _) => None
        | (frac, rest) => Some (frac, rest)
        end
      else Some ("", s)
  end.

(** The exponent of a number, if there is one: [e] or [E], an optional sign
    and digits. *)
Definition parse_exponent (s : string) : option (Z * string) :=
  match s with
  | EmptyString => Some (0%Z, s)
  | String c r =>
      if Ascii.eqb c "e" || Ascii.eqb c "E" then
        let (negative, r1) :=
          match r with
          | EmptyString => (false, r)
          | String c' r' =>
              if Ascii.eqb c' "-" then (true, r')
              else if Ascii.eqb c' "+" then (false, r')
              else (false, r)
          end in
        match span_digits r1 with
        | (EmptyString, _) => None
        | (digits, rest) =>
            Some (if negative then (- digits_value digits 0)%Z
                  else digits_value digits 0, rest)
        end
      else Some (0%Z, s)
  end.

(** The number that a literal writes: the digits before and after the
    point, without the zeros at either end, are read as a decimal and
    rounded to binary64. *)
Definition number_of_literal (negative : bool) (int frac : string)
  (exponent : Z) : Json :=
  let significant := strip_leading_zeros (int ++ frac) in
  let digits := strip_trailing_zeros significant in
  let point :=
    (Z.of_nat (String.length int) + Z.of_nat (String.length significant)
     - Z.of_nat (String.length (int ++ frac)) + exponent)%Z in
  match digits with
  | EmptyString => if negative then JNegZero else JNum 0
  | String _ _ =>
      let (m, e) := read_decimal digits point in Number_of_binary64 negative m e
  end.

(** A number after its sign: digits without a zero in front of another
    digit, an optional fraction and an optional exponent. *)
Definition parse_unsigned (negative : bool) (s : string)
  : option (Json * string) :=
  let (int, s2) := span_digits s in
  match int with
  | EmptyString => None
  | String c r =>
      if Ascii.eqb c "0" && negb (String.eqb r "") then None
      else
        match parse_fraction s2 with
        | None => None
        | Some (frac, s3) =>
            match parse_exponent s3 with
            | None => None
            | Some (exponent, rest) =>
                Some (number_of_literal negative int frac exponent, rest)
            end
        end
  end.

(** A number, with an optional minus sign in front. *)
Definition parse_number (s : string) : option (Json * string) :=
  match s with
  | EmptyString => None
  | String c r =>
      if Ascii.eqb c "-" then parse_unsigned true r
      else parse_unsigned false s
  end.

(** The object made of the members read, in the order of the text: a name
    that comes again replaces the value read before for it. *)
Definition object_of_members (raw : list (string * Json)) : Json :=
  JObj (fold_left (fun o kv => obj_set (fst kv) (snd kv) o) raw []).

(** The text that follows the character [c], when [c] is the next character
    after optional white space. *)
Definition token (c : ascii) (s : string) : option string :=
  match skip_whitespace s with
  | String c' r => if Ascii.eqb c' c then Some r else None
  | EmptyString => None
  end.

(** The text that follows the letters [l], when the text starts with them. *)
Fixpoint literal (l s : string) : option string :=
  match l with
  | EmptyString => Some s
  | String c l' =>
      match s with
      | String c' s' => if Ascii.eqb c c' then literal l' s' else None
      | EmptyString => None
      end
  end.

(** A value at the head of the text, after optional white space; [fuel]
    bounds the nesting and the number of elements read. *)
Fixpoint parse_value (fuel : nat) (s : string) : option (Json * string) :=
  match fuel with
  | O => None
  | S fuel =>
      match skip_whitespace s with
      | EmptyString => None
      | String c r =>
          if Ascii.eqb c "n" then option_map (pair JNull) (literal "ull" r)
          else if Ascii.eqb c "t" then
            option_map (pair (JBool true)) (literal "rue" r)
          else if Ascii.eqb c "f" then
            option_map (pair (JBool false)) (literal "alse" r)
          else if Ascii.eqb c dquote then
            match parse_chars r with
            | Some (str, r1) => Some (JStr str, r1)
            | None => None
            end
          else if Ascii.eqb c "[" then
            match token "]" r with
            | Some r1 => Some (JArr [], r1)
            | None =>
                match parse_value fuel r with
                | Some (x, r1) =>
                    match parse_elements fuel r1 with
                    | Some (l, r2) => Some (JArr (x :: l), r2)
                    | None => None
                    end
                | None => None
                end
            end
          else if Ascii.eqb c "{" then
            match token "}" r with
            | Some r1 => Some (JObj [], r1)
            | None =>
                match parse_member fuel r with
                | Some (kv, r1) =>
                    match parse_members fuel r1 with
                    | Some (m, r2) => Some (object_of_members (kv :: m), r2)
                    | None => None
                    end
                | None => None
                end
            end
          else parse_number (String c r)
      end
  end

(** The elements of an array after the first: [, value]* and the closing
    bracket. *)
with parse_elements (fuel : nat) (s : string) : option (list Json * string) :=
  match fuel with
  | O => None
  | S fuel =>
      match token "]" s with
      | Some r => Some ([], r)
      | None =>
          match token "," s with
          | Some r =>
              match parse_value fuel r with
              | Some (y, r1) =>
                  match parse_elements fuel r1 with
                  | Some (l, r2) => Some (y :: l, r2)
                  | None => None
                  end
              | None => None
              end
          | None => None
          end
      end
  end

(** One member of an object: a name in quotes, a colon and a value. *)
with parse_member (fuel : nat) (s : string)
  : option ((string * Json) * string) :=
  match fuel with
  | O => None
  | S fuel =>
      match token dquote s with
      | Some r =>
          match parse_chars r with
          | Some (k, r1) =>
              match token ":" r1 with
              | Some r2 =>
                  match parse_value fuel r2 with
                  | Some (y, r3) => Some ((k, y), r3)
                  | None => None
                  end
              | None => None
              end
          | None => None
          end
      | None => None
      end
  end

(** The members of an object after the first: [, member]* and the closing
    brace. *)
with parse_members (fuel : nat) (s : string)
  : option (list (string * Json) * string) :=
  match fuel with
  | O => None
  | S fuel =>
      match token "}" s with
      | Some r => Some ([], r)
      | None =>
          match token "," s with
          | Some r =>
              match parse_member fuel r with
              | Some (kv, r1) =>
                  match parse_members fuel r1 with
                  | Some (m, r2) => Some (kv :: m, r2)
                  | None => None
                  end
              | None => None
              end
          | None => None
          end
      end
  end.

(** [JSON.parse(text)]: one value, and nothing but white space after it. *)
Definition parse (text : string) : option Json :=
  match parse_value (S (String.length text)) text with
  | Some (v, rest) =>
      match skip_whitespace rest with
      | EmptyString => Some v
      | String _ _ => None
      end
  | None => None
  end.

End JSON.

(** ** [ToNumber] and [Math.floor(limit / 2)] *)

(** The white space and the line terminators that [StringToNumber] passes
    over, as UTF-8 bytes: the controls 9 to 13, the space, U+00A0, U+1680,
    U+2000 to U+200A, U+2028, U+2029, U+202F, U+205F, U+3000 and U+FEFF. *)
Definition bytes (l : list nat) : string :=
  fold_right (fun n s => String (ascii_of_nat n) s) "" l.

Definition white_space : list string :=
  map bytes
    [ [9]; [10]; [11]; [12]; [13]; [32]; [194; 160]; [225; 154; 128];
      [226; 128; 128]; [226; 128; 129]; [226; 128; 130]; [226; 128; 131];
      [226; 128; 132]; [226; 128; 133]; [226; 128; 134]; [226; 128; 135];
      [226; 128; 136]; [226; 128; 137]; [226; 128; 138]; [226; 128; 168];
      [226; 128; 169]; [226; 128; 175]; [226; 129; 159]; [227; 128; 128];
      [239; 187; 191] ].

(** The text after one white space character, if the text starts with
    one. *)
Definition after_white_space (s : string) : option string :=
  fold_right
    (fun w found =>
       match JSON.literal w s with
       | Some r => Some r
       | None => found
       end)
    None white_space.

Fixpoint skip_white_space (fuel : nat) (s : string) : string :=
  match fuel with
  | O => s
  | S fuel' =>
      match after_white_space s with
      | Some r => skip_white_space fuel' r
      | None => s
      end
  end.

(** The value of a digit of a literal in base 2, 8 or 16. *)
Definition digit_value (c : ascii) : option Z :=
  match JSON.hex_value c with
  | Some n => Some (Z.of_N n)
  | None => None
  end.

(** The digits in base [radix] at the head of the text, at least one. *)
Fixpoint radix_digits (radix : Z) (s : string) (acc : Z) (seen : bool)
  : option (Z * string) :=
  let stop := if seen then Some (acc, s) else None in
  match s with
  | EmptyString => stop
  | String c r =>
      match digit_value c with
      | Some d =>
          if (d <? radix)%Z then radix_digits radix r (radix * acc + d) true
          else stop
      | None => stop
      end
  end.

(** The binary64 number nearest to an integer. *)
Definition Number_of_integer (n : Z) : Json :=
  if (n =? 0)%Z then JNum 0
  else let (m, e) := to_binary64 (Z.abs n) 1 in
       Number_of_binary64 (n <? 0)%Z m e.

(** [0x], [0o] or [0b], in either case, and digits in that base. *)
Definition non_decimal_literal (s : string) : option (Json * string) :=
  match s with
  | String "0" (String x r) =>
      let radix :=
        if Ascii.eqb x "x" || Ascii.eqb x "X" then Some 16%Z
        else if Ascii.eqb x "o" || Ascii.eqb x "O" then Some 8%Z
        else if Ascii.eqb x "b" || Ascii.eqb x "B" then Some 2%Z
        else None in
      match radix with
      | Some radix =>
          match radix_digits radix r 0 false with
          | Some (n, rest) => Some (Number_of_integer n, rest)
          | None => None
          end
      | None => None
      end
  | _ => None
  end.

(** An exponent, if the text goes on with one. *)
Definition optional_exponent (s : string) : Z * string :=
  match JSON.parse_exponent s with
  | Some (exponent, rest) => (exponent, rest)
  | None => (0%Z, s)
  end.

(** [StrDecimalLiteral]: an optional sign, then [Infinity] or digits with
    an optional point (digits on one side of it at least) and an optional
    exponent. *)
Definition decimal_literal (s : string) : option (Json * string) :=
  let (negative, s1) :=
    match s with
    | EmptyString => (false, s)
    | String c r =>
        if Ascii.eqb c "-" then (true, r)
        else if Ascii.eqb c "+" then (false, r)
        else (false, s)
    end in
  match JSON.literal "Infinity" s1 with
  | Some rest => Some (JInfinity negative, rest)
  | None =>
      let (int, s2) := span_digits s1 in
      let (frac, s3) :=
        match s2 with
        | EmptyString => ("", s2)
        | String c r =>
            if Ascii.eqb c "." then span_digits r else ("", s2)
        end in
      if String.eqb int "" && String.eqb frac "" then None
      else
        let (exponent, rest) := optional_exponent s3 in
        Some (JSON.number_of_literal negative int frac exponent, rest)
  end.

(** [StringToNumber]: the number that the text writes, white space around
    it left out; 0 for the empty text; [None], which stands for [NaN], for
    any other text. *)
Definition StringToNumber (s : string) : option Json :=
  match skip_white_space (String.length s) s with
  | EmptyString => Some (JNum 0)
  | String _ _ as s1 =>
      match (match non_decimal_literal s1 with
             | Some found => Some found
             | None => decimal_literal s1
             end) with
      | Some (v, rest) =>
          match skip_white_space (String.length rest) rest with
          | EmptyString => Some v
          | String _ _ => None
          end
      | None => None
      end
  end.

(** [ToNumber]: a number, or [None] for [NaN].  [null] and the booleans
    coerce to 0 and 1; an array or an object is converted by [ToPrimitive],
    which can throw, and the string it gives by [StringToNumber]. *)
Definition ToNumber (v : Json) : Outcome (option Json) :=
  match v with
  | JNull => Returned (Some (JNum 0))
  | JBool b => Returned (Some (JNum (if b then 1 else 0)))
  | JNum _ | JFrac _ _ _ | JNegZero | JInfinity _ => Returned (Some v)
  | JStr s => Returned (StringToNumber s)
  | JArr _ | JObj _ =>
      if converts_to_primitive v then Returned (StringToNumber (Json_toString v))
      else Threw TypeError_cannot_convert
  end.

(** [Math.floor(x / 2)] on a number; [None] when the result is no integer
    (an infinity).  On an integer it is the floor division of [Z].
    Halving a number that is not an integer is exact, but for the least
    number below zero, whose half is rounded to the negative zero. *)
Definition floor_half (x : Json) : option Z :=
  match x with
  | JNum n => Some (n / 2)%Z
  | JFrac negative digits point =>
      let (p, q) := decimal_fraction digits point in
      if negative then
        let (m, e) := to_binary64 p q in
        if (m =? 1)%Z && (e =? -1074)%Z then Some 0%Z
        else Some ((- p) / (2 * q))%Z
      else Some (p / (2 * q))%Z
  | JNegZero => Some 0%Z
  | _ => None
  end.

(** [Math.floor(limit / 2)] for [limit] declared [number]: [None] stands
    for a result that is no integer ([NaN] or an infinity). *)
Definition Math_floor_half (limit : Json) : Outcome (option Z) :=
  match ToNumber limit with
  | Threw e => Threw e
  | Returned None => Returned None
  | Returned (Some x) => Returned (floor_half x)
  end.

(** ** The remote workspace *)

(** The parameters of a message-retrieve call.  [narrow] is the string
    [JSON.stringify] returned; a count is [None] when [Math_floor_half]
    gives no integer. *)
Record MessagesRetrieveParams : Type := {
  narrow : string;
  num_before : option Z;
  num_after : option Z;
  anchor : Json
}.

(** The calls the program makes on the connection ([this.client]), named by
    the path of the method, with the parameter object passed. *)
Inductive RemoteCall : Type :=
| streams_retrieve (params : JsObject)
| messages_send (params : JsObject)
| reactions_add (params : JsObject)
| messages_retrieve (params : MessagesRetrieveParams)
| streams_topics_retrieve (params : JsObject)
| streams_subscribe (params : JsObject)
| users_retrieve.

(** The calls issued so far, oldest first. *)
Definition Trace : Type := list RemoteCall.

(** The connection: what a call answers, given the calls that came before
    it.  The answer is the decoded JSON body of the response, or an
    exception. *)
Definition Connection : Type := Trace -> RemoteCall -> Outcome Json.

(** ** Asynchronous computations *)

Definition Async (A : Type) : Type := Trace -> Outcome A * Trace.

Definition ret {A : Type} (a : A) : Async A :=
  fun tr => (Returned a, tr).

Definition throw {A : Type} (e : Exception) : Async A :=
  fun tr => (Threw e, tr).

Definition bind {A B : Type} (m : Async A) (k : A -> Async B) : Async B :=
  fun tr =>
    match m tr with
    | (Returned a, tr') => k a tr'
    | (Threw e, tr') => (Threw e, tr')
    end.

(** [try { body } catch (error) { handler }]. *)
Definition try_catch {A : Type} (body : Async A)
  (handler : Exception -> Async A) : Async A :=
  fun tr =>
    match body tr with
    | (Returned a, tr') => (Returned a, tr')
    | (Threw e, tr') => handler e tr'
    end.

(** An expression that may throw but issues no call. *)
Definition eval {A : Type} (o : Outcome A) : Async A :=
  fun tr => (o, tr).

Declare Scope async_scope.
Delimit Scope async_scope with async.
Notation "x <- m ;; k" := (bind m (fun x => k))
  (at level 61, m at next level, right associativity) : async_scope.
Local Open Scope async_scope.

(** ** The remote operation facade: class [ZulipClient] *)

Section ZulipClient.

(** [this.client]. *)
Variable client : Connection.

(** [await this.client.<method>(params)]. *)
Definition await (call : RemoteCall) : Async Json :=
  fun tr => (client tr call, (tr ++ [call])%list).

Definition getStreams (includePrivate includeWebPublic includeSubscribed : JsVal)
  : Async Json :=
  let includePrivate := default_parameter includePrivate (JBool false) in
  let includeWebPublic := default_parameter includeWebPublic (JBool true) in
  let includeSubscribed := default_parameter includeSubscribed (JBool true) in
  try_catch
    (let params : JsObject := [] in
     let params :=
       if ToBoolean (Some includePrivate)
       then obj_set "include_private" (Some (JBool true)) params
       else params in
     let params :=
       if negb (ToBoolean (Some includeWebPublic))
       then obj_set "include_web_public" (Some (JBool false)) params
       else params in
     let params :=
       if negb (ToBoolean (Some includeSubscribed))
       then obj_set "include_subscribed" (Some (JBool false)) params
       else params in
     await (streams_retrieve params))
    (fun error => throw error).

Definition sendStreamMessage (streamName topic content : JsVal) : Async Json :=
  try_catch
    (let params : JsObject :=
       [("to", streamName);
        ("type", Some (JStr "stream"));
        ("topic", topic);
        ("content", content)] in
     await (messages_send params))
    (fun error => throw error).

Definition sendDirectMessage (recipients content : JsVal) : Async Json :=
  try_catch
    (let params : JsObject :=
       [("to", recipients);
        ("type", Some (JStr "private"));
        ("content", content)] in
     await (messages_send params))
    (fun error => throw error).

Definition addReaction (messageId emojiName : JsVal) : Async Json :=
  try_catch
    (await (reactions_add
              [("message_id", messageId); ("emoji_name", emojiName)]))
    (fun error => throw error).

Definition getMessages (streamName topic limit anchor : JsVal) : Async Json :=
  let limit := default_parameter limit (JNum 20) in
  let anchor := default_parameter anchor (JStr "newest") in
  try_catch
    (streamsResponse <-
       getStreams (Some (JBool true)) (Some (JBool true)) (Some (JBool true)) ;;
     streams <- eval (get_property (Some streamsResponse) "streams") ;;
     stream <-
       eval (call_find "streamsResponse.streams" streams
               (fun s =>
                  match get_property (Some s) "name" with
                  | Threw e => Threw e
                  | Returned s_name => Returned (strict_equal s_name streamName)
                  end)) ;;
     if negb (ToBoolean stream) then
       name <- eval (ToString_or_throw streamName) ;;
       throw (Error ("Stream " ++ String dquote name
                       ++ String dquote " not found"))
     else
       let narrow : list JsObject :=
         [ [("operator", Some (JStr "stream")); ("operand", streamName)];
           [("operator", Some (JStr "topic")); ("operand", topic)] ] in
       let narrow_text :=
         JSON.stringify
           (JArr (map (fun o => JObj (JSON.defined_properties o)) narrow)) in
       before <- eval (Math_floor_half limit) ;;
       after <- eval (Math_floor_half limit) ;;
       let params :=
         {| narrow := narrow_text;
            num_before := before;
            num_after := after;
            anchor := anchor |} in
       await (messages_retrieve params))
    (fun error => throw error).

Definition getTopics (streamId : JsVal) : Async Json :=
  try_catch
    (await (streams_topics_retrieve [("stream_id", streamId)]))
    (fun error => throw error).

Definition subscribeToStream (streamName : JsVal) : Async Json :=
  try_catch
    (let subscriptions : list JsObject := [ [("name", streamName)] ] in
     await (streams_subscribe
              [("subscriptions",
                Some (JStr (JSON.stringify
                  (JArr (map (fun o => JObj (JSON.defined_properties o))
                             subscriptions)))))]))
    (fun error => throw error).

Definition getUsers : Async Json :=
  try_catch (await users_retrieve) (fun error => throw error).

End ZulipClient.

(** ** The tool dispatcher: the handler of [CallToolRequest] *)

(** [request.params]: the tool name and the argument bag, which may be
    absent. *)
Record CallToolRequest : Type := {
  params_name : string;
  params_arguments : option (list (string * Json))
}.

Record TextContent : Type := {
  type : string;
  text : string
}.

Record CallToolResult : Type := {
  content : list TextContent
}.

Section Server.

(** The facade built in [main] is a [ZulipClient] over this connection. *)
Variable zulipClient : Connection.

(** The body of the handler's [try] block. *)
Definition handler_try (request : CallToolRequest) : Async CallToolResult :=
  match params_arguments request with
  | None => throw (Error "No arguments provided")
  | Some args =>
      let name := params_name request in
      if String.eqb name "zulip_list_channels" then
        response <-
          getStreams zulipClient
            (get_arg args "include_private")
            (get_arg args "include_web_public")
            (get_arg args "include_subscribed") ;;
        ret {| content :=
                 [ {| type := "text"; text := JSON.stringify response |} ] |}
      else if String.eqb name "zulip_post_message" then
        if negb (ToBoolean (get_arg args "channel_name"))
           || negb (ToBoolean (get_arg args "topic"))
           || negb (ToBoolean (get_arg args "content"))
        then
          throw (Error
            "Missing required arguments: channel_name, topic, and content")
        else
          response <-
            sendStreamMessage zulipClient
              (get_arg args "channel_name")
              (get_arg args "topic")
              (get_arg args "content") ;;
          ret {| content :=
                   [ {| type := "text"; text := JSON.stringify response |} ] |}
      else if String.eqb name "zulip_send_direct_message" then
        if negb (ToBoolean (get_arg args "recipients"))
           || negb (ToBoolean (get_arg args "content"))
        then
          throw (Error "Missing required arguments: recipients and content")
        else
          response <-
            sendDirectMessage zulipClient
              (get_arg args "recipients")
              (get_arg args "content") ;;
          ret {| content :=
                   [ {| type := "text"; text := JSON.stringify response |} ] |}
      else if String.eqb name "zulip_add_reaction" then
        if strict_equal (get_arg args "message_id") undefined
           || negb (ToBoolean (get_arg args "emoji_name"))
        then
          throw (Error
            "Missing required arguments: message_id and emoji_name")
        else
          response <-
            addReaction zulipClient
              (get_arg args "message_id")
              (get_arg args "emoji_name") ;;
          ret {| content :=
                   [ {| type := "text"; text := JSON.stringify response |} ] |}
      else if String.eqb name "zulip_get_channel_history" then
        if negb (ToBoolean (get_arg args "channel_name"))
           || negb (ToBoolean (get_arg args "topic"))
        then
          throw (Error "Missing required arguments: channel_name and topic")
        else
          response <-
            getMessages zulipClient
              (get_arg args "channel_name")
              (get_arg args "topic")
              (get_arg args "limit")
              (get_arg args "anchor") ;;
          ret {| content :=
                   [ {| type := "text"; text := JSON.stringify response |} ] |}
      else if String.eqb name "zulip_get_topics" then
        if strict_equal (get_arg args "channel_id") undefined then
          throw (Error "Missing required argument: channel_id")
        else
          response <- getTopics zulipClient (get_arg args "channel_id") ;;
          ret {| content :=
                   [ {| type := "text"; text := JSON.stringify response |} ] |}
      else if String.eqb name "zulip_subscribe_to_channel" then
        if negb (ToBoolean (get_arg args "channel_name")) then
          throw (Error "Missing required argument: channel_name")
        else
          response <-
            subscribeToStream zulipClient (get_arg args "channel_name") ;;
          ret {| content :=
                   [ {| type := "text"; text := JSON.stringify response |} ] |}
      else if String.eqb name "zulip_get_users" then
        response <- getUsers zulipClient ;;
        ret {| content :=
                 [ {| type := "text"; text := JSON.stringify response |} ] |}
      else
        throw (Error ("Unknown tool: " ++ name))
  end.

(** The handler: the [try] block and its [catch], which turns whatever was
    thrown into a result.  What the [try] block throws by itself is an
    [Error]; a value of another kind comes from the connection, and
    [String(error)] is taken on the values whose conversion does not
    fail. *)
Definition handler (request : CallToolRequest) : Async CallToolResult :=
  try_catch (handler_try request)
    (fun error =>
       ret {| content :=
                [ {| type := "text";
                     text :=
                       JSON.stringify
                         (JObj [("error",
                                 JStr match error with
                                      | Error message => message
                                      | Thrown value => ToString value
                                      end)]) |} ] |}).

End Server.

(** ** Vocabulary of the statements *)

(** The names of the tools that the handler of [ListToolsRequest] lists, in
    its order. *)
Definition tool_names : list string :=
  [ "zulip_list_channels";
    "zulip_post_message";
    "zulip_send_direct_message";
    "zulip_add_reaction";
    "zulip_get_channel_history";
    "zulip_get_topics";
    "zulip_subscribe_to_channel";
    "zulip_get_users" ].

(** A result with one text item. *)
Definition text_result (t : string) : CallToolResult :=
  {| content := [ {| type := "text"; text := t |} ] |}.

(** The message the [catch] block reads off what was thrown. *)
Definition error_message (e : Exception) : string :=
  match e with
  | Error message => message
  | Thrown value => ToString value
  end.

(** The error envelope: the JSON text of [{error: message}]. *)
Definition error_result (message : string) : CallToolResult :=
  text_result (JSON.stringify (JObj [("error", JStr message)])).

(** The result the handler makes of the outcome of a facade call. *)
Definition result_of (o : Outcome Json) : CallToolResult :=
  match o with
  | Returned response => text_result (JSON.stringify response)
  | Threw e => error_result (error_message e)
  end.

(** Whether a property list has a property named [k]. *)
Fixpoint has_key {A : Type} (k : string) (m : list (string * A)) : bool :=
  match m with
  | [] => false
  | (k', _) :: r => String.eqb k k' || has_key k r
  end.

Fixpoint distinct_keys {A : Type} (m : list (string * A)) : bool :=
  match m with
  | [] => true
  | (k, _) :: r => negb (has_key k r) && distinct_keys r
  end.

(** Digits as the shortest decimal of a number has them: at least one, and
    no zero at either end. *)
Fixpoint all_digits (s : string) : bool :=
  match s with
  | EmptyString => true
  | String c r => is_digit c && all_digits r
  end.

Definition canonical_digits (s : string) : bool :=
  match s with
  | EmptyString => false
  | String c _ =>
      negb (Ascii.eqb c "0") && all_digits s
      && String.eqb (strip_trailing_zeros s) s
  end.

(** A finite number other than the negative zero.  An integer is a number
    when rounding to binary64 leaves it as it is; digits with a point are
    one when they are the shortest decimal of the number they read as. *)
Definition finite_number (v : Json) : bool :=
  match v with
  | JNum n =>
      (n =? 0)%Z
      || match (let (m, e) := to_binary64 (Z.abs n) 1 in
                Number_of_binary64 (n <? 0)%Z m e) with
         | JNum n' => (n' =? n)%Z
         | _ => false
         end
  | JFrac negative digits point =>
      canonical_digits digits
      && match (let (m, e) := read_decimal digits point in
                Number_of_binary64 negative m e) with
         | JFrac negative' digits' point' =>
             Bool.eqb negative' negative && String.eqb digits' digits
             && (point' =? point)%Z
         | _ => false
         end
  | _ => false
  end.

(** A value of JavaScript that JSON text writes: the members of an object
    have distinct names and the numbers are finite and not the negative
    zero, at every depth. *)
Fixpoint well_formed (v : Json) : bool :=
  match v with
  | JNull | JBool _ | JStr _ => true
  | JNum _ | JFrac _ _ _ | JNegZero | JInfinity _ => finite_number v
  | JArr l => forallb well_formed l
  | JObj m => distinct_keys m && forallb (fun kv => well_formed (snd kv)) m
  end.

(** The pairs [(m, e)] that stand for the binary64 numbers [m * 2 ^ e]. *)
Definition is_binary64 (m e : Z) : Prop :=
  (0 <= m < 2 ^ 53)%Z /\ (-1074 <= e)%Z /\ (2 ^ 52 <= m \/ e = -1074)%Z.

(** A value of JavaScript in this representation: the members of an object
    have distinct names, an integer is a binary64 number, and digits with a
    point are the shortest decimal of a number that is no integer. *)
Fixpoint javascript_value (v : Json) : bool :=
  match v with
  | JNull | JBool _ | JStr _ | JNegZero | JInfinity _ => true
  | JNum _ | JFrac _ _ _ => finite_number v
  | JArr l => forallb javascript_value l
  | JObj m => distinct_keys m && forallb (fun kv => javascript_value (snd kv)) m
  end.

(** A value that holds no infinite number and no negative zero. *)
Fixpoint no_special_number (v : Json) : bool :=
  match v with
  | JNegZero | JInfinity _ => false
  | JArr l => forallb no_special_number l
  | JObj m => forallb (fun kv => no_special_number (snd kv)) m
  | _ => true
  end.

(** The callback of [find] in [getMessages]: [s.name === streamName]. *)
Definition name_is (streamName : JsVal) (s : Json) : Outcome bool :=
  match get_property (Some s) "name" with
  | Threw e => Threw e
  | Returned s_name => Returned (strict_equal s_name streamName)
  end.

(** The stream-list call of [getStreams(true, true, true)]. *)
Definition list_all_streams : RemoteCall :=
  streams_retrieve [("include_private", Some (JBool true))].

(** The value of a flag of [getStreams]: the argument when given, the
    default of the parameter otherwise. *)
Definition flag (given : option bool) (default : bool) : bool :=
  match given with
  | Some b => b
  | None => default
  end.

(** The message of the error [getMessages] throws for a stream it did not
    find. *)
Definition stream_not_found (streamName : JsVal) : string :=
  "Stream " ++ String dquote (ToString streamName)
    ++ String dquote " not found".



(** The connection of the specification's example: the stream listing
    returns the one stream "general". *)
Definition general_only : Connection :=
  fun _ call =>
    match call with
    | streams_retrieve _ =>
        Returned
          (JObj [("streams",
                  JArr [JObj [("name", JStr "general"); ("id", JNum 7)]])])
    | _ => Returned (JObj [("messages", JArr [])])
    end.

(** *** Vocabulary of the round trip of [JSON.stringify] and [JSON.parse] *)

(** A text in front of which a number ends: it does not go on with a digit,
    a fraction or an exponent. *)
Definition ends_number (rest : string) : bool :=
  match rest with
  | EmptyString => true
  | String c _ => negb (is_digit c) && negb (JSON.continues_number rest)
  end.

(** A text that does not start with a digit. *)
Definition head_is_no_digit (s : string) : bool :=
  match s with
  | EmptyString => true
  | String c _ => negb (is_digit c)
  end.

(** The character a number starts with: the minus sign or a digit. *)
Definition starts_number (c : ascii) : bool :=
  Ascii.eqb c "-" || is_digit c.

(** A character with which no value starts and at which a number ends. *)
Definition is_separator (c : ascii) : bool :=
  Ascii.eqb c "," || Ascii.eqb c "]" || Ascii.eqb c "}".

(** [JSON.parse_value] reads back what [JSON.stringify] wrote for [v],
    whatever text follows, provided a number is not followed by a character
    that would extend it. *)
Definition reads_back (v : Json) : Prop :=
  well_formed v = true ->
  forall fuel rest,
    String.length (JSON.stringify v) <= fuel ->
    ends_number rest = true ->
    JSON.parse_value fuel (JSON.stringify v ++ rest) = Some (v, rest).

(** The last call of the trace was answered with [R]: what the facade
    method that issued it returns. *)
Definition answered (client : Connection) (tr : Trace) (R : Json) : Prop :=
  exists tr0 call,
    tr = (tr0 ++ [call])%list /\ client tr0 call = Returned R.

(** An answer to the user listing, and a connection that gives it. *)
Definition users_answer : Json :=
  JObj [("result", JStr "success");
        ("msg", JStr "");
        ("members",
         JArr [JObj [("user_id", JNum 11);
                     ("full_name", JStr ("Ada " ++ String dquote "L."));
                     ("is_bot", JBool false);
                     ("avatar_url", JNull);
                     ("delta", JNum (-3))]])].

Definition users_of_example : Connection :=
  fun _ _ => Returned users_answer.

(** An answer with numbers of every form: 1700000000.5, -0.0025, 1e+21 and
    5e-324, besides small integers. *)
Definition numbers_answer : Json :=
  JObj [("result", JStr "success");
        ("members",
         JArr [JObj [("user_id", JNum 11);
                     ("date_joined", JFrac false "17000000005" 10);
                     ("drift", JFrac true "25" (-2));
                     ("quota", JNum (10 ^ 21));
                     ("least", JFrac false "5" (-323))]])].

(** A connection that answers every call with [R]. *)
Definition answering (R : Json) : Connection :=
  fun _ _ => Returned R.

(** An answer with an infinite number and the negative zero, and a body
    that the client decodes to it: [{"id":1e999,"delta":-0}]. *)
Definition answer_out_of_range : Json :=
  JObj [("id", JInfinity false); ("delta", JNegZero)].

Definition body_out_of_range : string :=
  "{" ++ String dquote ("id" ++ String dquote (":1e999,"
    ++ String dquote ("delta" ++ String dquote ":-0}"))).

(** ** The tool catalog and the handler of [ListToolsRequest] *)

Definition listChannelsTool : Json :=
  JObj
    [("name", JStr "zulip_list_channels");
     ("description",
      JStr "List available channels (streams) in the Zulip organization");
     ("inputSchema",
      JObj
        [("type", JStr "object");
         ("properties",
          JObj
            [("include_private",
              JObj [("type", JStr "boolean");
                    ("description", JStr "Whether to include private streams");
                    ("default", JBool false)]);
             ("include_web_public",
              JObj [("type", JStr "boolean");
                    ("description",
                     JStr "Whether to include web-public streams");
                    ("default", JBool true)]);
             ("include_subscribed",
              JObj [("type", JStr "boolean");
                    ("description",
                     JStr "Whether to include streams the bot is subscribed to");
                    ("default", JBool true)])])])].

Definition postMessageTool : Json :=
  JObj
    [("name", JStr "zulip_post_message");
     ("description", JStr "Post a new message to a Zulip channel (stream)");
     ("inputSchema",
      JObj
        [("type", JStr "object");
         ("properties",
          JObj
            [("channel_name",
              JObj [("type", JStr "string");
                    ("description", JStr "The name of the stream to post to")]);
             ("topic",
              JObj [("type", JStr "string");
                    ("description", JStr "The topic within the stream")]);
             ("content",
              JObj [("type", JStr "string");
                    ("description", JStr "The message content to post")])]);
         ("required",
          JArr [JStr "channel_name"; JStr "topic"; JStr "content"])])].

Definition sendDirectMessageTool : Json :=
  JObj
    [("name", JStr "zulip_send_direct_message");
     ("description", JStr "Send a direct message to one or more users");
     ("inputSchema",
      JObj
        [("type", JStr "object");
         ("properties",
          JObj
            [("recipients",
              JObj [("type", JStr "array");
                    ("items", JObj [("type", JStr "string")]);
                    ("description",
                     JStr "Email addresses or user IDs of recipients")]);
             ("content",
              JObj [("type", JStr "string");
                    ("description", JStr "The message content to send")])]);
         ("required", JArr [JStr "recipients"; JStr "content"])])].

Definition addReactionTool : Json :=
  JObj
    [("name", JStr "zulip_add_reaction");
     ("description", JStr "Add an emoji reaction to a message");
     ("inputSchema",
      JObj
        [("type", JStr "object");
         ("properties",
          JObj
            [("message_id",
              JObj [("type", JStr "number");
                    ("description", JStr "The ID of the message to react to")]);
             ("emoji_name",
              JObj [("type", JStr "string");
                    ("description", JStr "Emoji name without colons")])]);
         ("required", JArr [JStr "message_id"; JStr "emoji_name"])])].

Definition getChannelHistoryTool : Json :=
  JObj
    [("name", JStr "zulip_get_channel_history");
     ("description",
      JStr "Get recent messages from a channel (stream) and topic");
     ("inputSchema",
      JObj
        [("type", JStr "object");
         ("properties",
          JObj
            [("channel_name",
              JObj [("type", JStr "string");
                    ("description", JStr "The name of the stream")]);
             ("topic",
              JObj [("type", JStr "string");
                    ("description", JStr "The topic name")]);
             ("limit",
              JObj [("type", JStr "number");
                    ("description",
                     JStr "Number of messages to retrieve (default 20)");
                    ("default", JNum 20)]);
             ("anchor",
              JObj [("type", JStr "string");
                    ("description",
                     JStr "Message ID to start from (default 'newest')");
                    ("default", JStr "newest")])]);
         ("required", JArr [JStr "channel_name"; JStr "topic"])])].

Definition getTopicsTool : Json :=
  JObj
    [("name", JStr "zulip_get_topics");
     ("description", JStr "Get topics in a channel (stream)");
     ("inputSchema",
      JObj
        [("type", JStr "object");
         ("properties",
          JObj
            [("channel_id",
              JObj [("type", JStr "number");
                    ("description", JStr "The ID of the stream")])]);
         ("required", JArr [JStr "channel_id"])])].

Definition subscribeToChannelTool : Json :=
  JObj
    [("name", JStr "zulip_subscribe_to_channel");
     ("description", JStr "Subscribe the bot to a channel (stream)");
     ("inputSchema",
      JObj
        [("type", JStr "object");
         ("properties",
          JObj
            [("channel_name",
              JObj [("type", JStr "string");
                    ("description",
                     JStr "The name of the stream to subscribe to")])]);
         ("required", JArr [JStr "channel_name"])])].

Definition getUsersTool : Json :=
  JObj
    [("name", JStr "zulip_get_users");
     ("description", JStr "Get list of users in the Zulip organization");
     ("inputSchema",
      JObj [("type", JStr "object"); ("properties", JObj [])])].

(** The handler of [ListToolsRequest]: it issues no remote call. *)
Definition handler_list_tools : Async Json :=
  ret (JObj
         [("tools",
           JArr [listChannelsTool;
                 postMessageTool;
                 sendDirectMessageTool;
                 addReactionTool;
                 getChannelHistoryTool;
                 getTopicsTool;
                 subscribeToChannelTool;
                 getUsersTool])]).

(** ** The credentials read by [main] *)

(** [zulipConfig]. *)
Record ZulipConfig : Type := {
  username : string;
  apiKey : string;
  realm : string
}.

(** How the first part of [main] ends: [process.exit(code)], or the
    configuration from which the client is built. *)
Inductive Startup : Type :=
| Exit (code : Z)
| Configured (zulipConfig : ZulipConfig).

(** [main] up to the construction of [zulipConfig].  [env] is
    [process.env]: a variable is a string or is not set. *)
Definition main_credentials (env : string -> option string) : Startup :=
  let zulipEmail := env "ZULIP_EMAIL" in
  let zulipApiKey := env "ZULIP_API_KEY" in
  let zulipUrl := env "ZULIP_URL" in
  if negb (ToBoolean (option_map JStr zulipEmail))
     || negb (ToBoolean (option_map JStr zulipApiKey))
     || negb (ToBoolean (option_map JStr zulipUrl))
  then Exit 1
  else
    match zulipEmail, zulipApiKey, zulipUrl with
    | Some email, Some key, Some url =>
        Configured {| username := email; apiKey := key; realm := url |}
    | _, _, _ => Exit 1
    end.

(** ** Vocabulary of the further statements *)

(** The member [k] of an object; [undefined] on any other value. *)
Definition member (k : string) (v : Json) : JsVal :=
  match v with
  | JObj m => assoc k m
  | _ => None
  end.

(** The tools that the handler of [ListToolsRequest] returns. *)
Definition listed_tools : list Json :=
  match handler_list_tools [] with
  | (Returned result, _) =>
      match member "tools" result with
      | Some (JArr l) => l
      | _ => []
      end
  | (Threw _, _) => []
  end.

Definition tool_name (tool : Json) : string :=
  match member "name" tool with
  | Some (JStr s) => s
  | _ => ""
  end.

(** The properties that the input schema of a tool declares. *)
Definition schema_properties (tool : Json) : list (string * Json) :=
  match member "inputSchema" tool with
  | Some schema =>
      match member "properties" schema with
      | Some (JObj m) => m
      | _ => []
      end
  | None => []
  end.

(** The names that the input schema of a tool lists as required. *)
Definition schema_required (tool : Json) : list string :=
  match member "inputSchema" tool with
  | Some schema =>
      match member "required" schema with
      | Some (JArr l) =>
          flat_map (fun x => match x with JStr s => [s] | _ => [] end) l
      | _ => []
      end
  | None => []
  end.

(** The default that the input schema of a tool declares for a property. *)
Definition schema_default (tool : Json) (k : string) : JsVal :=
  match assoc k (schema_properties tool) with
  | Some property => member "default" property
  | None => None
  end.

(** Whether [p] is a prefix of [s]. *)
Fixpoint starts_with (p s : string) : bool :=
  match p with
  | EmptyString => true
  | String c p' =>
      match s with
      | String c' s' => Ascii.eqb c c' && starts_with p' s'
      | EmptyString => false
      end
  end.

(** The remote calls that belong to a tool. *)
Definition call_of_tool (name : string) (call : RemoteCall) : bool :=
  match call with
  | streams_retrieve _ =>
      String.eqb name "zulip_list_channels"
      || String.eqb name "zulip_get_channel_history"
  | messages_send _ =>
      String.eqb name "zulip_post_message"
      || String.eqb name "zulip_send_direct_message"
  | reactions_add _ => String.eqb name "zulip_add_reaction"
  | messages_retrieve _ => String.eqb name "zulip_get_channel_history"
  | streams_topics_retrieve _ => String.eqb name "zulip_get_topics"
  | streams_subscribe _ => String.eqb name "zulip_subscribe_to_channel"
  | users_retrieve => String.eqb name "zulip_get_users"
  end.

(** A connection whose stream listing fails. *)
Definition listing_fails : Connection :=
  fun _ call =>
    match call with
    | streams_retrieve _ => Threw (Error "Invalid API key")
    | _ => Returned (JObj [("messages", JArr [])])
    end.

(** A connection whose stream listing answers with an error report, which
    has no list of streams. *)
Definition listing_without_streams : Connection :=
  fun _ call =>
    match call with
    | streams_retrieve _ =>
        Returned (JObj [("result", JStr "error"); ("msg", JStr "Not allowed")])
    | _ => Returned (JObj [("messages", JArr [])])
    end.

(** * Properties *)

(** ** The asynchronous computations *)

Lemma try_catch_rethrow {A : Type} (body : Async A) (tr : Trace) :
  try_catch body (fun error => throw error) tr = body tr.
Proof.
  unfold try_catch, throw.
  destruct (body tr) as [[a | e] tr']; reflexivity.
Qed.

(** A facade call followed by the wrapping of its response, under the
    handler's [catch]: the shape of every case of the switch. *)
Lemma catch_wrap (call : Async Json) (tr : Trace) :
  try_catch
    (bind call (fun response =>
       ret {| content :=
                [ {| type := "text"; text := JSON.stringify response |} ] |}))
    (fun error =>
       ret {| content :=
                [ {| type := "text";
                     text :=
                       JSON.stringify
                         (JObj [("error",
                                 JStr match error with
                                      | Error message => message
                                      | Thrown value => ToString value
                                      end)]) |} ] |})
    tr
  = (Returned (result_of (fst (call tr))), snd (call tr)).
Proof.
  unfold try_catch, bind, ret.
  destruct (call tr) as [[response | e] tr']; reflexivity.
Qed.

(** ** What each facade method does *)

Lemma getStreams_all (client : Connection) (tr : Trace) :
  getStreams client (Some (JBool true)) (Some (JBool true)) (Some (JBool true)) tr
  = (client tr list_all_streams, (tr ++ [list_all_streams])%list).
Proof. unfold getStreams. rewrite try_catch_rethrow. reflexivity. Qed.

Lemma sendStreamMessage_call (client : Connection) streamName topic content tr :
  sendStreamMessage client streamName topic content tr
  = let call := messages_send [("to", streamName);
                               ("type", Some (JStr "stream"));
                               ("topic", topic);
                               ("content", content)] in
    (client tr call, (tr ++ [call])%list).
Proof. unfold sendStreamMessage. rewrite try_catch_rethrow. reflexivity. Qed.

Lemma sendDirectMessage_call (client : Connection) recipients content tr :
  sendDirectMessage client recipients content tr
  = let call := messages_send [("to", recipients);
                               ("type", Some (JStr "private"));
                               ("content", content)] in
    (client tr call, (tr ++ [call])%list).
Proof. unfold sendDirectMessage. rewrite try_catch_rethrow. reflexivity. Qed.

Lemma addReaction_call (client : Connection) messageId emojiName tr :
  addReaction client messageId emojiName tr
  = let call := reactions_add [("message_id", messageId);
                               ("emoji_name", emojiName)] in
    (client tr call, (tr ++ [call])%list).
Proof. unfold addReaction. rewrite try_catch_rethrow. reflexivity. Qed.

(** ** The dispatcher *)

(** Opens the handler on a request given by its two fields. *)
Ltac unfold_handler :=
  unfold handler, handler_try; cbn [params_name params_arguments].

(** C5.  Whatever the tool name, one of the eight or not, a request whose
    argument bag is absent gets the error envelope for "No arguments
    provided", and no remote call is issued: the check comes before the
    routing on the name. *)
Theorem absent_arguments_rejected (client : Connection) (name : string)
  (tr : Trace) :
  handler client {| params_name := name; params_arguments := None |} tr
  = (Returned (error_result "No arguments provided"), tr).
Proof. reflexivity. Qed.

(** C9.  With an argument bag present and a name that is none of the eight
    tool names, the handler returns the error envelope whose message is
    "Unknown tool: " followed by the name, and issues no remote call. *)
Theorem unknown_tool_rejected (client : Connection) (name : string)
  (args : list (string * Json)) (tr : Trace) :
  ~ In name tool_names ->
  handler client {| params_name := name; params_arguments := Some args |} tr
  = (Returned (error_result ("Unknown tool: " ++ name)), tr).
Proof.
  intros Hname.
  unfold_handler.
  repeat match goal with
         | |- context [String.eqb name ?s] =>
             destruct (String.eqb_spec name s) as [-> | _];
             [ exfalso; apply Hname; cbv [tool_names In]; tauto | ]
         end.
  reflexivity.
Qed.

Lemma unknown_tool_rejected_witness :
  handler (fun _ _ => Returned JNull)
    {| params_name := "nonexistent_tool"; params_arguments := Some [] |} []
  = (Returned (error_result "Unknown tool: nonexistent_tool"), []).
Proof.
  apply (unknown_tool_rejected (fun _ _ => Returned JNull)
           "nonexistent_tool" [] []).
  cbv [tool_names In].
  intros H; repeat (destruct H as [H | H]; [discriminate H | ]); exact H.
Defined.

(** C6.  For [zulip_post_message]: when one of [channel_name], [topic] and
    [content] is absent or falsy, the handler returns the error envelope
    whose message names the three fields and the trace is unchanged (no
    message-send call); when the three are truthy, one message-send call of
    type "stream" carries them, and its outcome makes the result.  The
    second part is the request of the specification, with only
    [channel_name] given. *)
Theorem post_message_validation (client : Connection)
  (args : list (string * Json)) (tr : Trace) :
  handler client
    {| params_name := "zulip_post_message"; params_arguments := Some args |} tr
  = (if ToBoolean (get_arg args "channel_name")
        && ToBoolean (get_arg args "topic")
        && ToBoolean (get_arg args "content")
     then
       let call :=
         messages_send [("to", get_arg args "channel_name");
                        ("type", Some (JStr "stream"));
                        ("topic", get_arg args "topic");
                        ("content", get_arg args "content")] in
       (Returned (result_of (client tr call)), (tr ++ [call])%list)
     else
       (Returned
          (error_result
             "Missing required arguments: channel_name, topic, and content"),
        tr))
  /\ handler client
       {| params_name := "zulip_post_message";
          params_arguments := Some [("channel_name", JStr "general")] |} tr
     = (Returned
          (error_result
             "Missing required arguments: channel_name, topic, and content"),
        tr).
Proof.
  split; [ | reflexivity ].
  unfold_handler. cbn [String.eqb Ascii.eqb Bool.eqb].
  destruct (ToBoolean (get_arg args "channel_name"));
    destruct (ToBoolean (get_arg args "topic"));
    destruct (ToBoolean (get_arg args "content")); cbn [negb orb andb];
    try reflexivity.
  rewrite catch_wrap, sendStreamMessage_call. reflexivity.
Qed.

(** C4.  For [zulip_add_reaction]: the request is rejected, with the message
    naming [message_id] and [emoji_name] and without any remote call, exactly
    when [message_id] is absent or [emoji_name] is falsy; otherwise one
    reaction-add call carries the two values.  In particular [message_id: 0]
    with a truthy [emoji_name] is not rejected: the reaction-add call is
    issued with message id 0. *)
Theorem add_reaction_validation (client : Connection)
  (args : list (string * Json)) (tr : Trace) :
  handler client
    {| params_name := "zulip_add_reaction"; params_arguments := Some args |} tr
  = match get_arg args "message_id" with
    | None =>
        (Returned
           (error_result
              "Missing required arguments: message_id and emoji_name"), tr)
    | Some message_id =>
        if ToBoolean (get_arg args "emoji_name") then
          let call :=
            reactions_add [("message_id", Some message_id);
                           ("emoji_name", get_arg args "emoji_name")] in
          (Returned (result_of (client tr call)), (tr ++ [call])%list)
        else
          (Returned
             (error_result
                "Missing required arguments: message_id and emoji_name"), tr)
    end
  /\ forall emoji_name : Json,
       ToBoolean (Some emoji_name) = true ->
       let call :=
         reactions_add [("message_id", Some (JNum 0));
                        ("emoji_name", Some emoji_name)] in
       handler client
         {| params_name := "zulip_add_reaction";
            params_arguments :=
              Some [("message_id", JNum 0); ("emoji_name", emoji_name)] |} tr
       = (Returned (result_of (client tr call)), (tr ++ [call])%list).
Proof.
  assert (General : forall args,
    handler client
      {| params_name := "zulip_add_reaction"; params_arguments := Some args |}
      tr
    = match get_arg args "message_id" with
      | None =>
          (Returned
             (error_result
                "Missing required arguments: message_id and emoji_name"), tr)
      | Some message_id =>
          if ToBoolean (get_arg args "emoji_name") then
            let call :=
              reactions_add [("message_id", Some message_id);
                             ("emoji_name", get_arg args "emoji_name")] in
            (Returned (result_of (client tr call)), (tr ++ [call])%list)
          else
            (Returned
               (error_result
                  "Missing required arguments: message_id and emoji_name"),
             tr)
      end).
  { intros a. unfold_handler. cbn [String.eqb Ascii.eqb Bool.eqb].
    destruct (get_arg a "message_id") as [message_id | ]; [ | reflexivity ].
    replace (strict_equal (Some message_id) undefined) with false
      by (destruct message_id; reflexivity).
    destruct (ToBoolean (get_arg a "emoji_name")); cbn [negb orb];
      [ | reflexivity ].
    rewrite catch_wrap, addReaction_call. reflexivity. }
  split; [ apply General | ].
  intros emoji_name Htruthy. rewrite General.
  change (get_arg [("message_id", JNum 0); ("emoji_name", emoji_name)]
            "message_id") with (Some (JNum 0)).
  change (get_arg [("message_id", JNum 0); ("emoji_name", emoji_name)]
            "emoji_name") with (Some emoji_name).
  cbv beta iota. rewrite Htruthy. reflexivity.
Qed.

Lemma add_reaction_validation_witness :
  handler (fun _ _ => Returned (JObj [("result", JStr "success")]))
    {| params_name := "zulip_add_reaction";
       params_arguments :=
         Some [("message_id", JNum 0); ("emoji_name", JStr "smile")] |} []
  = (Returned (text_result (JSON.stringify (JObj [("result", JStr "success")]))),
     [reactions_add [("message_id", Some (JNum 0));
                     ("emoji_name", Some (JStr "smile"))]]).
Proof.
  apply (proj2 (add_reaction_validation
                  (fun _ _ => Returned (JObj [("result", JStr "success")]))
                  [] [])
           (JStr "smile")).
  reflexivity.
Defined.

(** C10.  For [zulip_send_direct_message]: the request is rejected only when
    [recipients] or [content] is absent or falsy; otherwise one message-send
    call of type "private" carries the two values as they are.  An empty
    array of recipients is truthy: it passes the validation and is sent as
    the recipient list, nothing checks that it has an element. *)
Theorem send_direct_message_validation (client : Connection)
  (args : list (string * Json)) (tr : Trace) :
  handler client
    {| params_name := "zulip_send_direct_message";
       params_arguments := Some args |} tr
  = (if ToBoolean (get_arg args "recipients")
        && ToBoolean (get_arg args "content")
     then
       let call :=
         messages_send [("to", get_arg args "recipients");
                        ("type", Some (JStr "private"));
                        ("content", get_arg args "content")] in
       (Returned (result_of (client tr call)), (tr ++ [call])%list)
     else
       (Returned
          (error_result "Missing required arguments: recipients and content"),
        tr))
  /\ forall content : Json,
       ToBoolean (Some content) = true ->
       let call :=
         messages_send [("to", Some (JArr []));
                        ("type", Some (JStr "private"));
                        ("content", Some content)] in
       handler client
         {| params_name := "zulip_send_direct_message";
            params_arguments :=
              Some [("recipients", JArr []); ("content", content)] |} tr
       = (Returned (result_of (client tr call)), (tr ++ [call])%list).
Proof.
  assert (General : forall args,
    handler client
      {| params_name := "zulip_send_direct_message";
         params_arguments := Some args |} tr
    = (if ToBoolean (get_arg args "recipients")
          && ToBoolean (get_arg args "content")
       then
         let call :=
           messages_send [("to", get_arg args "recipients");
                          ("type", Some (JStr "private"));
                          ("content", get_arg args "content")] in
         (Returned (result_of (client tr call)), (tr ++ [call])%list)
       else
         (Returned
            (error_result
               "Missing required arguments: recipients and content"),
          tr))).
  { intros a. unfold_handler. cbn [String.eqb Ascii.eqb Bool.eqb].
    destruct (ToBoolean (get_arg a "recipients"));
      destruct (ToBoolean (get_arg a "content")); cbn [negb orb andb];
      try reflexivity.
    rewrite catch_wrap, sendDirectMessage_call. reflexivity. }
  split; [ apply General | ].
  intros content Htruthy. rewrite General.
  change (get_arg [("recipients", JArr []); ("content", content)] "recipients")
    with (Some (JArr [])).
  change (get_arg [("recipients", JArr []); ("content", content)] "content")
    with (Some content).
  rewrite Htruthy. reflexivity.
Qed.

Lemma send_direct_message_validation_witness :
  handler (fun _ _ => Returned (JObj [("id", JNum 42)]))
    {| params_name := "zulip_send_direct_message";
       params_arguments :=
         Some [("recipients", JArr []); ("content", JStr "hello")] |} []
  = (Returned (text_result (JSON.stringify (JObj [("id", JNum 42)]))),
     [messages_send [("to", Some (JArr []));
                     ("type", Some (JStr "private"));
                     ("content", Some (JStr "hello"))]]).
Proof.
  apply (proj2 (send_direct_message_validation
                  (fun _ _ => Returned (JObj [("id", JNum 42)])) [] [])
           (JStr "hello")).
  reflexivity.
Defined.

(** ** The stream listing *)

(** C8.  For every combination of the three flags of [getStreams], each
    given as a boolean or left to its default (false, true, true), one
    stream-list call is issued, and its parameter object holds a flag exactly
    when the flag's value is not the remote default: [include_private] (as
    true) when [includePrivate] is true, [include_web_public] (as false) when
    [includeWebPublic] is false, [include_subscribed] (as false) when
    [includeSubscribed] is false; it holds no other property. *)
Theorem getStreams_sends_deviating_flags (client : Connection)
  (includePrivate includeWebPublic includeSubscribed : option bool)
  (tr : Trace) :
  exists params : JsObject,
    getStreams client
      (option_map JBool includePrivate)
      (option_map JBool includeWebPublic)
      (option_map JBool includeSubscribed) tr
    = (client tr (streams_retrieve params),
       (tr ++ [streams_retrieve params])%list)
    /\ assoc "include_private" params
       = (if flag includePrivate false then Some (Some (JBool true)) else None)
    /\ assoc "include_web_public" params
       = (if flag includeWebPublic true then None else Some (Some (JBool false)))
    /\ assoc "include_subscribed" params
       = (if flag includeSubscribed true then None else Some (Some (JBool false)))
    /\ distinct_keys params = true
    /\ forall k, has_key k params = true ->
         k = "include_private" \/ k = "include_web_public"
         \/ k = "include_subscribed".
Proof.
  unfold getStreams. rewrite try_catch_rethrow.
  destruct includePrivate as [[|]|], includeWebPublic as [[|]|],
    includeSubscribed as [[|]|];
    cbn [option_map default_parameter ToBoolean negb obj_set String.eqb
         Ascii.eqb Bool.eqb flag];
    (eexists; split; [ reflexivity | ]);
    (repeat split; try reflexivity);
    intros k; cbn [has_key];
    repeat match goal with
           | |- (String.eqb k ?s || _)%bool = true -> _ =>
               destruct (String.eqb_spec k s) as [-> | _];
               [ tauto | cbn [orb] ]
           end;
    discriminate.
Qed.

(** ** The dispatcher never throws *)



(** ** The channel history *)

(** The conversions of [getMessages] throw nothing but the [TypeError] of
    [ToPrimitive]. *)
Lemma ToString_or_throw_throws (v : JsVal) (e : Exception) :
  ToString_or_throw v = Threw e -> e = TypeError_cannot_convert.
Proof.
  destruct v as [j | ]; [ | discriminate ]. cbn [ToString_or_throw].
  destruct (converts_to_primitive j); [ discriminate | ].
  intros H. now injection H as <-.
Qed.

Lemma Math_floor_half_throws (limit : Json) (e : Exception) :
  Math_floor_half limit = Threw e -> e = TypeError_cannot_convert.
Proof.
  unfold Math_floor_half.
  destruct (ToNumber limit) as [[x | ] | e'] eqn:Hnumber; try discriminate.
  intros H. injection H as <-.
  destruct limit as [ | b | n | f d q | | f | s | l | m];
    cbn [ToNumber] in Hnumber; try discriminate Hnumber.
  - destruct (converts_to_primitive (JArr l)); [ discriminate Hnumber | ].
    now injection Hnumber as <-.
  - destruct (converts_to_primitive (JObj m)); [ discriminate Hnumber | ].
    now injection Hnumber as <-.
Qed.

(** [getMessages], step by step: the stream listing, the search, and the
    message-retrieve call. *)
Lemma getMessages_steps (client : Connection)
  (streamName topic limit anchor : JsVal) (tr : Trace) :
  getMessages client streamName topic limit anchor tr
  = let tr1 := (tr ++ [list_all_streams])%list in
    match client tr list_all_streams with
    | Threw e => (Threw e, tr1)
    | Returned streamsResponse =>
        match get_property (Some streamsResponse) "streams" with
        | Threw e => (Threw e, tr1)
        | Returned streams =>
            match call_find "streamsResponse.streams" streams
                    (name_is streamName) with
            | Threw e => (Threw e, tr1)
            | Returned stream =>
                if ToBoolean stream then
                  match Math_floor_half (default_parameter limit (JNum 20))
                  with
                  | Threw e => (Threw e, tr1)
                  | Returned half =>
                      let call :=
                        messages_retrieve
                          {| narrow :=
                               JSON.stringify
                                 (JArr
                                    [JObj (JSON.defined_properties
                                             [("operator", Some (JStr "stream"));
                                              ("operand", streamName)]);
                                     JObj (JSON.defined_properties
                                             [("operator", Some (JStr "topic"));
                                              ("operand", topic)])]);
                             num_before := half;
                             num_after := half;
                             anchor :=
                               default_parameter anchor (JStr "newest") |}
                      in
                      (client tr1 call, (tr1 ++ [call])%list)
                  end
                else
                  match ToString_or_throw streamName with
                  | Threw e => (Threw e, tr1)
                  | Returned name =>
                      (Threw (Error ("Stream " ++ String dquote name
                                       ++ String dquote " not found")), tr1)
                  end
            end
        end
    end.
Proof.
  unfold getMessages. rewrite try_catch_rethrow.
  unfold bind. rewrite getStreams_all.
  destruct (client tr list_all_streams) as [streamsResponse | e];
    [ | reflexivity ].
  unfold eval.
  destruct (get_property (Some streamsResponse) "streams") as [streams | e];
    [ | reflexivity ].
  change (fun s : Json =>
            match get_property (Some s) "name" with
            | Returned s_name => Returned (strict_equal s_name streamName)
            | Threw e => Threw e
            end) with (name_is streamName).
  destruct (call_find "streamsResponse.streams" streams (name_is streamName))
    as [stream | e]; [ | reflexivity ].
  destruct (ToBoolean stream); cbn [negb].
  - now destruct (Math_floor_half (default_parameter limit (JNum 20))).
  - now destruct (ToString_or_throw streamName).
Qed.

(** The element [find] returns satisfies the callback. *)
Lemma Array_find_found (callback : Json -> Outcome bool) (l : list Json)
  (x : Json) :
  Array_find callback l = Returned (Some x) -> callback x = Returned true.
Proof.
  induction l as [ | y r IH]; cbn [Array_find]; [ discriminate | ].
  destruct (callback y) as [[ | ] | e] eqn:Hy; intros H.
  - inversion H; subst; exact Hy.
  - exact (IH H).
  - discriminate H.
Qed.


(** A stream whose name is a given (defined) value is an object, hence
    truthy. *)
Lemma named_stream_truthy (streamName s : Json) :
  name_is (Some streamName) s = Returned true -> ToBoolean (Some s) = true.
Proof.
  unfold name_is.
  destruct s; cbn [get_property]; try discriminate; try reflexivity;
    cbn [strict_equal]; discriminate.
Qed.

(** C2.  When the stream listing returns a list of streams in which [find]
    comes upon one named [streamName], [getMessages] called with a stream
    name, a topic, a numeric limit and an anchor issues, after the stream
    listing, one message-retrieve call with [num_before] and [num_after] both
    the floor of [limit / 2], the anchor given, and as [narrow] the JSON text
    of the two filters (stream, then topic).  The two halves add up to
    [limit] for an even limit and to [limit - 1] for an odd one. *)
Theorem getMessages_splits_limit (client : Connection) (tr : Trace)
  (streamName topic : Json) (limit : Z) (anchor : Json)
  (streamsResponse : Json) (streams : list Json) (stream : Json) :
  client tr list_all_streams = Returned streamsResponse ->
  get_property (Some streamsResponse) "streams" = Returned (Some (JArr streams)) ->
  Array_find (name_is (Some streamName)) streams = Returned (Some stream) ->
  let call :=
    messages_retrieve
      {| narrow :=
           JSON.stringify
             (JArr [JObj [("operator", JStr "stream"); ("operand", streamName)];
                    JObj [("operator", JStr "topic"); ("operand", topic)]]);
         num_before := Some (limit / 2)%Z;
         num_after := Some (limit / 2)%Z;
         anchor := anchor |} in
  getMessages client (Some streamName) (Some topic) (Some (JNum limit))
    (Some anchor) tr
  = (client (tr ++ [list_all_streams])%list call,
     (tr ++ [list_all_streams; call])%list)
  /\ (limit / 2 + limit / 2 = if Z.odd limit then limit - 1 else limit)%Z.
Proof.
  intros Hresponse Hstreams Hfind call. split.
  - rewrite getMessages_steps. cbv zeta.
    rewrite Hresponse, Hstreams. cbn [call_find]. rewrite Hfind.
    rewrite (named_stream_truthy _ _ (Array_find_found _ _ _ Hfind)).
    cbn [default_parameter]. unfold Math_floor_half.
    cbn [ToNumber floor_half].
    rewrite <- List.app_assoc. reflexivity.
  - pose proof (Z.div2_odd limit) as Hhalf.
    rewrite Z.div2_div in Hhalf.
    destruct (Z.odd limit); cbn [Z.b2z] in Hhalf; lia.
Qed.

Lemma getMessages_splits_limit_witness :
  getMessages general_only (Some (JStr "general")) (Some (JStr "intro"))
    (Some (JNum 20)) (Some (JStr "newest")) []
  = (Returned (JObj [("messages", JArr [])]),
     [list_all_streams;
      messages_retrieve
        {| narrow :=
             JSON.stringify
               (JArr [JObj [("operator", JStr "stream");
                            ("operand", JStr "general")];
                      JObj [("operator", JStr "topic");
                            ("operand", JStr "intro")]]);
           num_before := Some 10%Z;
           num_after := Some 10%Z;
           anchor := JStr "newest" |}]).
Proof.
  apply (proj1 (getMessages_splits_limit general_only []
                  (JStr "general") (JStr "intro") 20 (JStr "newest")
                  (JObj [("streams",
                          JArr [JObj [("name", JStr "general");
                                      ("id", JNum 7)]])])
                  [JObj [("name", JStr "general"); ("id", JNum 7)]]
                  (JObj [("name", JStr "general"); ("id", JNum 7)])
                  eq_refl eq_refl eq_refl)).
Defined.

(** The second example of the specification: a limit of 7 gives 3 and 3. *)
Example getMessages_limit_7 :
  snd (getMessages general_only (Some (JStr "general")) (Some (JStr "intro"))
         (Some (JNum 7)) (Some (JStr "newest")) [])
  = [list_all_streams;
     messages_retrieve
       {| narrow :=
            JSON.stringify
              (JArr [JObj [("operator", JStr "stream");
                           ("operand", JStr "general")];
                     JObj [("operator", JStr "topic");
                           ("operand", JStr "intro")]]);
          num_before := Some 3%Z;
          num_after := Some 3%Z;
          anchor := JStr "newest" |}].
Proof. reflexivity. Qed.

(** Whatever its arguments and whatever the connection answers,
    [getMessages] starts with the listing of all streams. *)
Lemma getMessages_lists_streams_first (client : Connection)
  (streamName topic limit anchor : JsVal) (tr : Trace) :
  exists rest,
    snd (getMessages client streamName topic limit anchor tr)
    = (tr ++ list_all_streams :: rest)%list.
Proof.
  rewrite getMessages_steps. cbv zeta.
  destruct (client tr list_all_streams) as [streamsResponse | e];
    [ | exists []; reflexivity ].
  destruct (get_property (Some streamsResponse) "streams") as [streams | e];
    [ | exists []; reflexivity ].
  destruct (call_find _ streams (name_is streamName)) as [stream | e];
    [ | exists []; reflexivity ].
  destruct (ToBoolean stream).
  - destruct (Math_floor_half _); [ | exists []; reflexivity ].
    eexists [_]. cbn [snd]. rewrite <- List.app_assoc. reflexivity.
  - destruct (ToString_or_throw streamName); exists []; reflexivity.
Qed.




(** ** The round trip of [JSON.stringify] and [JSON.parse] *)

Import JSON.

(** *** Strings *)

Lemma append_assoc (a b c : string) : (a ++ b) ++ c = a ++ (b ++ c).
Proof. induction a as [ | x a IH]; cbn; [ reflexivity | now rewrite IH ]. Qed.

Lemma append_empty_r (a : string) : a ++ "" = a.
Proof. induction a as [ | x a IH]; cbn; [ reflexivity | now rewrite IH ]. Qed.

Lemma length_append (a b : string) :
  String.length (a ++ b) = String.length a + String.length b.
Proof. induction a as [ | x a IH]; cbn; [ reflexivity | now rewrite IH ]. Qed.

Lemma parse_chars_quote_char (c : ascii) (rest : string) :
  parse_chars (quote_char c ++ rest) = prepend (String c "") (parse_chars rest).
Proof.
  destruct c as [[] [] [] [] [] [] [] []]; reflexivity.
Qed.

Lemma parse_chars_quote_chars (s rest : string) :
  parse_chars (quote_chars s ++ String dquote rest) = Some (s, rest).
Proof.
  induction s as [ | c s IH]; [ reflexivity | ].
  cbn [quote_chars]. rewrite append_assoc, parse_chars_quote_char, IH.
  reflexivity.
Qed.

(** *** Digits *)

Lemma is_digit_other (c : ascii) :
  is_digit c = true ->
  Ascii.eqb c "." = false /\ Ascii.eqb c "e" = false /\ Ascii.eqb c "E" = false
  /\ Ascii.eqb c "-" = false /\ Ascii.eqb c "+" = false.
Proof.
  destruct c as [[] [] [] [] [] [] [] []]; intros H;
    try discriminate H; repeat split; reflexivity.
Qed.

Lemma all_digits_app (a b : string) :
  all_digits (a ++ b) = all_digits a && all_digits b.
Proof.
  induction a as [ | c a IH]; cbn [append all_digits]; [ reflexivity | ].
  now rewrite IH, andb_assoc.
Qed.

Lemma all_digits_zeros (n : nat) : all_digits (zeros n) = true.
Proof. induction n as [ | n IH]; cbn; [ reflexivity | exact IH ]. Qed.

Lemma length_zeros (n : nat) : String.length (zeros n) = n.
Proof. induction n as [ | n IH]; cbn; [ reflexivity | now rewrite IH ]. Qed.

Lemma take_drop (n : nat) (s : string) : take n s ++ drop n s = s.
Proof.
  revert s. induction n as [ | n IH]; intros [ | c s]; cbn; try reflexivity.
  now rewrite IH.
Qed.

Lemma length_take (n : nat) (s : string) :
  n <= String.length s -> String.length (take n s) = n.
Proof.
  revert s. induction n as [ | n IH]; intros [ | c s]; cbn; intros H;
    try reflexivity; try lia.
  rewrite IH; [ reflexivity | lia ].
Qed.

Lemma all_digits_string_of_uint (d : Decimal.uint) :
  all_digits (NilEmpty.string_of_uint d) = true.
Proof. induction d; cbn; auto. Qed.

Lemma all_digits_decimal_digits (n : Z) : all_digits (decimal_digits n) = true.
Proof. apply all_digits_string_of_uint. Qed.

(** The run of digits at the head of a text ends where the digits end. *)
Lemma span_digits_app (a b : string) :
  all_digits a = true -> head_is_no_digit b = true ->
  span_digits (a ++ b) = (a, b).
Proof.
  intros Ha Hb. induction a as [ | c a IH]; cbn [append].
  - destruct b as [ | c b]; [ reflexivity | ].
    cbn [span_digits]. cbn in Hb. apply negb_true_iff in Hb. now rewrite Hb.
  - cbn [all_digits] in Ha. apply andb_true_iff in Ha as [Hc Ha].
    cbn [span_digits]. now rewrite Hc, (IH Ha).
Qed.

Lemma ends_number_head (rest : string) :
  ends_number rest = true -> head_is_no_digit rest = true.
Proof.
  destruct rest as [ | c rest]; [ reflexivity | ].
  unfold ends_number. cbn [head_is_no_digit].
  intros H. now apply andb_true_iff in H as [H _].
Qed.

Lemma ends_number_continues (rest : string) :
  ends_number rest = true -> continues_number rest = false.
Proof.
  destruct rest as [ | c rest]; [ reflexivity | ].
  unfold ends_number. intros H. apply andb_true_iff in H as [_ H].
  now apply negb_true_iff in H.
Qed.

Lemma ends_number_fraction (rest : string) :
  ends_number rest = true -> parse_fraction rest = Some ("", rest).
Proof.
  intros H. apply ends_number_continues in H.
  destruct rest as [ | c rest]; [ reflexivity | ].
  cbn [continues_number] in H. apply orb_false_iff in H as [H _].
  apply orb_false_iff in H as [H _].
  cbn [parse_fraction]. now rewrite H.
Qed.

Lemma ends_number_exponent (rest : string) :
  ends_number rest = true -> parse_exponent rest = Some (0%Z, rest).
Proof.
  intros H. apply ends_number_continues in H.
  destruct rest as [ | c rest]; [ reflexivity | ].
  cbn [continues_number] in H. apply orb_false_iff in H as [H HE].
  apply orb_false_iff in H as [_ He].
  cbn [parse_exponent]. now rewrite He, HE.
Qed.

(** The value of the digits that the library writes. *)
Lemma digits_value_of_uint_acc (d : Decimal.uint) (acc : positive) :
  digits_value (NilEmpty.string_of_uint d) (Z.pos acc)
  = Z.pos (Pos.of_uint_acc d acc).
Proof.
  revert acc.
  induction d as [ | d IH | d IH | d IH | d IH | d IH | d IH | d IH | d IH
                   | d IH | d IH ]; intros acc;
    cbn [NilEmpty.string_of_uint digits_value Pos.of_uint_acc];
    [ reflexivity | .. ]; rewrite <- IH; f_equal;
    match goal with
    | |- context [N_of_ascii ?c] =>
        let v := eval vm_compute in (Z.of_N (N_of_ascii c) - 48)%Z in
        change (Z.of_N (N_of_ascii c) - 48)%Z with v
    end; lia.
Qed.

Lemma digits_value_of_uint (d : Decimal.uint) :
  digits_value (NilEmpty.string_of_uint d) 0 = Z.of_N (Pos.of_uint d).
Proof.
  induction d as [ | d IH | d IH | d IH | d IH | d IH | d IH | d IH | d IH
                   | d IH | d IH ];
    cbn [NilEmpty.string_of_uint digits_value Pos.of_uint];
    [ reflexivity | exact IH | .. ];
    exact (digits_value_of_uint_acc d _).
Qed.

Lemma digits_value_decimal_digits (n : Z) :
  (0 <= n)%Z -> digits_value (decimal_digits n) 0 = n.
Proof.
  intros Hn. unfold decimal_digits. rewrite digits_value_of_uint.
  change (Pos.of_uint (N.to_uint (Z.to_N n)))
    with (N.of_uint (N.to_uint (Z.to_N n))).
  rewrite DecimalN.Unsigned.of_to. now apply Z2N.id.
Qed.

(** *** Zeros at the ends of digits *)

Lemma strip_trailing_zeros_head (c : ascii) (r : string) :
  Ascii.eqb c "0" = false ->
  strip_trailing_zeros (String c r) = String c (strip_trailing_zeros r).
Proof.
  intros Hc. cbn [strip_trailing_zeros]. rewrite Hc.
  now destruct (strip_trailing_zeros r).
Qed.

Lemma strip_trailing_zeros_idempotent (s : string) :
  strip_trailing_zeros (strip_trailing_zeros s) = strip_trailing_zeros s.
Proof.
  induction s as [ | c s IH]; [ reflexivity | ].
  cbn [strip_trailing_zeros].
  destruct (strip_trailing_zeros s) as [ | c' s'] eqn:Hs.
  - destruct (Ascii.eqb c "0") eqn:Hc; [ reflexivity | ].
    cbn [strip_trailing_zeros]. now rewrite Hc.
  - change (strip_trailing_zeros (String c (String c' s')))
      with (match strip_trailing_zeros (String c' s') with
            | EmptyString => if Ascii.eqb c "0" then "" else String c ""
            | String _ _ as r' => String c r'
            end).
    now rewrite IH.
Qed.

Lemma strip_trailing_zeros_app_zeros (s : string) (n : nat) :
  strip_trailing_zeros (s ++ zeros n) = strip_trailing_zeros s.
Proof.
  induction s as [ | c s IH]; cbn [append].
  - induction n as [ | n IHn]; [ reflexivity | ].
    cbn [zeros strip_trailing_zeros]. now rewrite IHn.
  - cbn [strip_trailing_zeros]. now rewrite IH.
Qed.

Lemma all_digits_strip_trailing_zeros (s : string) :
  all_digits s = true -> all_digits (strip_trailing_zeros s) = true.
Proof.
  induction s as [ | c s IH]; [ reflexivity | ].
  cbn [all_digits]. intros H. apply andb_true_iff in H as [Hc Hs].
  cbn [strip_trailing_zeros]. specialize (IH Hs).
  destruct (strip_trailing_zeros s) as [ | c' s'].
  - destruct (Ascii.eqb c "0"); [ reflexivity | ].
    cbn [all_digits]. now rewrite Hc.
  - cbn [all_digits] in *. now rewrite Hc, IH.
Qed.

Lemma length_strip_trailing_zeros (s : string) :
  String.length (strip_trailing_zeros s) <= String.length s.
Proof.
  induction s as [ | c s IH]; [ reflexivity | ].
  cbn [strip_trailing_zeros].
  destruct (strip_trailing_zeros s) as [ | c' s'].
  - destruct (Ascii.eqb c "0"); cbn [String.length]; lia.
  - cbn [String.length] in *. lia.
Qed.

(** The zeros taken from the end of digits are a power of ten. *)
Lemma digits_value_strip_trailing_zeros (s : string) (acc : Z) :
  digits_value s acc
  = (digits_value (strip_trailing_zeros s) acc
     * 10 ^ (Z.of_nat (String.length s)
             - Z.of_nat (String.length (strip_trailing_zeros s))))%Z.
Proof.
  revert acc. induction s as [ | c s IH]; intros acc.
  - cbn. lia.
  - pose proof (length_strip_trailing_zeros s) as Hlen.
    cbn [strip_trailing_zeros digits_value]. rewrite IH.
    destruct (strip_trailing_zeros s) as [ | c' s'] eqn:Hs.
    + destruct (Ascii.eqb_spec c "0") as [-> | Hc].
      * cbn [digits_value String.length].
        change (Z.of_N (N_of_ascii "0") - 48)%Z with 0%Z.
        replace (Z.of_nat (S (String.length s)) - Z.of_nat 0)%Z
          with (Z.succ (Z.of_nat (String.length s) - Z.of_nat 0)) by lia.
        rewrite Z.pow_succ_r by lia. lia.
      * cbn [digits_value String.length].
        replace (Z.of_nat (S (String.length s)) - Z.of_nat 1)%Z
          with (Z.of_nat (String.length s) - Z.of_nat 0)%Z by lia.
        reflexivity.
    + cbn [digits_value String.length].
      replace (Z.of_nat (S (String.length s))
               - Z.of_nat (S (S (String.length s'))))%Z
        with (Z.of_nat (String.length s)
              - Z.of_nat (String.length (String c' s')))%Z
        by (cbn [String.length]; lia).
      reflexivity.
Qed.

Lemma strip_leading_zeros_zeros (n : nat) (s : string) :
  strip_leading_zeros (zeros n ++ s) = strip_leading_zeros s.
Proof. induction n as [ | n IH]; [ reflexivity | exact IH ]. Qed.

Lemma strip_leading_zeros_head (c : ascii) (r : string) :
  Ascii.eqb c "0" = false -> strip_leading_zeros (String c r) = String c r.
Proof. intros Hc. cbn [strip_leading_zeros]. now rewrite Hc. Qed.

(** The digits of a positive integer do not start with a zero. *)
Lemma decimal_digits_head (n : Z) :
  (0 < n)%Z ->
  exists c r, decimal_digits n = String c r /\ Ascii.eqb c "0" = false.
Proof.
  intros Hn. unfold decimal_digits.
  destruct n as [ | p | p]; try lia. cbn [Z.to_N N.to_uint].
  pose proof (DecimalPos.Unsigned.to_of (Pos.to_uint p)) as Hnorm.
  rewrite DecimalPos.Unsigned.of_to in Hnorm. cbn [N.to_uint] in Hnorm.
  unfold Decimal.unorm in Hnorm.
  pose proof (DecimalFacts.nzhead_nonzero (Pos.to_uint p)) as Hhead.
  destruct (Decimal.nzhead (Pos.to_uint p)) eqn:Hnz;
    try (exfalso; exact (Hhead _ eq_refl));
    try (exfalso; exact (DecimalPos.Unsigned.to_uint_nonzero p Hnorm));
    rewrite Hnorm; cbn [NilEmpty.string_of_uint]; eauto.
Qed.

Lemma canonical_digits_head (s : string) :
  canonical_digits s = true ->
  exists c r, s = String c r /\ Ascii.eqb c "0" = false
              /\ all_digits s = true /\ strip_trailing_zeros s = s.
Proof.
  destruct s as [ | c r]; [ discriminate | ].
  unfold canonical_digits. intros H.
  apply andb_true_iff in H as [H Hstrip].
  apply andb_true_iff in H as [Hc Hall].
  apply negb_true_iff in Hc. apply String.eqb_eq in Hstrip.
  exists c, r. auto.
Qed.

Lemma canonical_digits_of_integer (s exponent : Z) :
  (0 < s)%Z -> canonical_digits (fst (decimal_of_integer s exponent)) = true.
Proof.
  intros Hs. unfold decimal_of_integer. cbn [fst].
  destruct (decimal_digits_head s Hs) as (c & r & Hd & Hc).
  pose proof (all_digits_decimal_digits s) as Hall.
  pose proof (strip_trailing_zeros_idempotent (decimal_digits s)) as Hidem.
  apply all_digits_strip_trailing_zeros in Hall.
  rewrite Hd in *. rewrite (strip_trailing_zeros_head c r Hc) in *.
  unfold canonical_digits. rewrite Hc, Hall. cbn [negb andb].
  now apply String.eqb_eq.
Qed.

(** *** Reading the text of a number *)

Lemma decimal_digits_nonempty (n : Z) :
  exists c r, decimal_digits n = String c r.
Proof.
  destruct (Z.lt_ge_cases 0 n) as [Hn | Hn].
  - destruct (decimal_digits_head n Hn) as (c & r & H & _). eauto.
  - unfold decimal_digits. replace (Z.to_N n) with 0%N by lia.
    cbn. eauto.
Qed.

Lemma length_drop (n : nat) (s : string) :
  n < String.length s -> exists c r, drop n s = String c r.
Proof.
  revert s. induction n as [ | n IH]; intros [ | c s]; cbn; intros H;
    try lia; eauto.
  apply IH. lia.
Qed.

Lemma parse_unsigned_parts (negative : bool) (text int frac : string)
  (exponent : Z) (s2 s3 rest : string) (c : ascii) (r : string) :
  span_digits text = (int, s2) ->
  int = String c r ->
  Ascii.eqb c "0" && negb (String.eqb r "") = false ->
  parse_fraction s2 = Some (frac, s3) ->
  parse_exponent s3 = Some (exponent, rest) ->
  parse_unsigned negative text
  = Some (number_of_literal negative int frac exponent, rest).
Proof.
  intros Hspan Hint Hzero Hfrac Hexp. unfold parse_unsigned.
  rewrite Hspan. rewrite Hint at 1. now rewrite Hzero, Hfrac, Hexp.
Qed.

Lemma number_of_literal_reads (negative : bool) (int frac : string)
  (exponent : Z) (digits : string) (point : Z) :
  canonical_digits digits = true ->
  strip_trailing_zeros (strip_leading_zeros (int ++ frac)) = digits ->
  (Z.of_nat (String.length int)
   + Z.of_nat (String.length (strip_leading_zeros (int ++ frac)))
   - Z.of_nat (String.length (int ++ frac)) + exponent)%Z = point ->
  number_of_literal negative int frac exponent
  = (let (m, e) := read_decimal digits point in
     Number_of_binary64 negative m e).
Proof.
  intros Hd Hstrip Hpoint. unfold number_of_literal.
  rewrite Hstrip, Hpoint.
  destruct (canonical_digits_head digits Hd) as (c & r & -> & _).
  reflexivity.
Qed.

Lemma parse_exponent_form (point : Z) (rest : string) :
  head_is_no_digit rest = true ->
  parse_exponent
    (String "e" ((if (0 <=? point - 1)%Z then "+" else "-")
                   ++ decimal_digits (Z.abs (point - 1))) ++ rest)
  = Some ((point - 1)%Z, rest).
Proof.
  intros Hrest.
  pose proof (span_digits_app (decimal_digits (Z.abs (point - 1))) rest
                (all_digits_decimal_digits _) Hrest) as Hspan.
  pose proof (digits_value_decimal_digits (Z.abs (point - 1))
                (Z.abs_nonneg _)) as Hvalue.
  destruct (decimal_digits_nonempty (Z.abs (point - 1))) as (c & r & Hd).
  rewrite Hd in Hspan, Hvalue.
  destruct (Z.leb_spec 0 (point - 1));
    cbn [append parse_exponent Ascii.eqb Bool.eqb orb];
    rewrite Hd; cbn [append] in Hspan |- *; rewrite Hspan, Hvalue;
    do 2 f_equal; lia.
Qed.

(** The text that [Number::toString] writes for digits and a point reads as
    these digits with this point. *)
Lemma parse_unsigned_format (negative : bool) (digits : string) (point : Z)
  (rest : string) :
  canonical_digits digits = true ->
  ends_number rest = true ->
  parse_unsigned negative (Number_format digits point ++ rest)
  = Some (let (m, e) := read_decimal digits point in
          Number_of_binary64 negative m e, rest).
Proof.
  intros Hd Hrest.
  destruct (canonical_digits_head digits Hd) as (c & r & -> & Hc & Hall & Hstrip).
  pose proof (ends_number_head rest Hrest) as Hhead.
  pose proof (ends_number_fraction rest Hrest) as Hfraction.
  pose proof (ends_number_exponent rest Hrest) as Hexponent.
  assert (Hcheck : forall r', Ascii.eqb c "0" && negb (String.eqb r' "") = false)
    by (intros r'; now rewrite Hc).
  pose proof (strip_leading_zeros_head c) as Hlead.
  specialize (fun r' => Hlead r' Hc).
  unfold Number_format.
  destruct ((Z.of_nat (String.length (String c r)) <=? point)%Z
            && (point <=? 21)%Z) eqn:Hcase1.
  { (* the digits, then zeros *)
    apply andb_true_iff in Hcase1 as [Hk _]. apply Z.leb_le in Hk.
    set (z := Z.to_nat (point - Z.of_nat (String.length (String c r)))) in *.
    rewrite <- (number_of_literal_reads negative (String c r ++ zeros z) "" 0
                  (String c r) point Hd).
    - apply (parse_unsigned_parts _ _ _ _ _ rest rest rest c (r ++ zeros z)).
      + apply span_digits_app; [ | exact Hhead ].
        now rewrite all_digits_app, Hall, all_digits_zeros.
      + reflexivity.
      + apply Hcheck.
      + exact Hfraction.
      + exact Hexponent.
    - rewrite append_empty_r. cbn [append]. rewrite Hlead.
      change (String c (r ++ zeros z)) with (String c r ++ zeros z).
      now rewrite strip_trailing_zeros_app_zeros.
    - rewrite append_empty_r. cbn [append]. rewrite Hlead.
      change (String c (r ++ zeros z)) with (String c r ++ zeros z).
      rewrite length_append, length_zeros. unfold z. lia. }
  destruct ((0 <? point)%Z && (point <=? 21)%Z) eqn:Hcase2.
  { (* a point among the digits *)
    apply andb_true_iff in Hcase2 as [Hpos H21].
    apply Z.ltb_lt in Hpos. rewrite H21, andb_true_r in Hcase1.
    apply Z.leb_gt in Hcase1.
    set (n := Z.to_nat point) in *.
    assert (Hn : n < String.length (String c r)) by (unfold n; lia).
    assert (Hn0 : 0 < n) by (unfold n; lia).
    pose proof (take_drop n (String c r)) as Htd.
    assert (Hall' : all_digits (take n (String c r)) = true
                    /\ all_digits (drop n (String c r)) = true).
    { rewrite <- Htd, all_digits_app in Hall.
      now apply andb_true_iff in Hall. }
    destruct Hall' as [Htake Hdrop].
    destruct (length_drop n (String c r) Hn) as (c' & r' & Hdrop').
    assert (Htake' : take n (String c r) = String c (take (pred n) r))
      by (destruct n; [ lia | reflexivity ]).
    rewrite <- (number_of_literal_reads negative (take n (String c r))
                  (drop n (String c r)) 0 (String c r) point Hd).
    - rewrite append_assoc.
      apply (parse_unsigned_parts _ _ _ _ _
               (String "." (drop n (String c r)) ++ rest) rest rest
               c (take (pred n) r)).
      + apply span_digits_app; [ exact Htake | reflexivity ].
      + exact Htake'.
      + apply Hcheck.
      + cbn [append parse_fraction Ascii.eqb Bool.eqb].
        rewrite (span_digits_app _ _ Hdrop Hhead).
        now rewrite Hdrop'.
      + exact Hexponent.
    - rewrite Htd, Hlead. exact Hstrip.
    - rewrite Htd, Hlead.
      rewrite length_take by lia. unfold n. lia. }
  destruct ((-6 <? point)%Z && (point <=? 0)%Z) eqn:Hcase3.
  { (* zeros, then the digits *)
    apply andb_true_iff in Hcase3 as [_ Hle]. apply Z.leb_le in Hle.
    set (z := Z.to_nat (- point)) in *.
    rewrite <- (number_of_literal_reads negative "0" (zeros z ++ String c r) 0
                  (String c r) point Hd).
    - apply (parse_unsigned_parts _ _ _ _ _
               (String "." (zeros z ++ String c r) ++ rest) rest rest "0" "").
      + reflexivity.
      + reflexivity.
      + reflexivity.
      + cbn [append parse_fraction Ascii.eqb Bool.eqb].
        rewrite span_digits_app; [ | | exact Hhead ].
        * destruct z; reflexivity.
        * now rewrite all_digits_app, all_digits_zeros, Hall.
      + exact Hexponent.
    - cbn [append strip_leading_zeros Ascii.eqb Bool.eqb].
      rewrite strip_leading_zeros_zeros, Hlead. exact Hstrip.
    - cbn [append strip_leading_zeros Ascii.eqb Bool.eqb].
      rewrite strip_leading_zeros_zeros, Hlead.
      cbn [String.length]. rewrite length_append, length_zeros.
      cbn [String.length]. unfold z. lia. }
  (* the exponent form *)
  pose proof (parse_exponent_form point rest Hhead) as Hexp.
  assert (Hdigit : is_digit c = true /\ all_digits r = true).
  { cbn [all_digits] in Hall. now apply andb_true_iff in Hall. }
  destruct Hdigit as [Hdigit Hall_r].
  rewrite <- (number_of_literal_reads negative (String c "") r (point - 1)
                (String c r) point Hd).
  - unfold exponent_form.
    set (exponent := String "e" _) in *.
    destruct r as [ | c' r'].
    + apply (parse_unsigned_parts _ _ _ _ _ (exponent ++ rest)
               (exponent ++ rest) rest c "").
      * cbn [append span_digits]. now rewrite Hdigit.
      * reflexivity.
      * apply Hcheck.
      * reflexivity.
      * exact Hexp.
    + apply (parse_unsigned_parts _ _ _ _ _
               (String "." ((String c' r' ++ exponent) ++ rest))
               (exponent ++ rest) rest c "").
      * cbn [append span_digits]. now rewrite Hdigit.
      * reflexivity.
      * apply Hcheck.
      * cbn [parse_fraction Ascii.eqb Bool.eqb]. rewrite append_assoc.
        rewrite (span_digits_app _ _ Hall_r); reflexivity.
      * exact Hexp.
  - cbn [append]. rewrite Hlead. exact Hstrip.
  - cbn [append]. rewrite Hlead. cbn [String.length]. lia.
Qed.

Lemma Number_format_head (digits : string) (point : Z) :
  canonical_digits digits = true ->
  exists c s, Number_format digits point = String c s /\ is_digit c = true.
Proof.
  intros Hd.
  destruct (canonical_digits_head digits Hd) as (c & r & -> & _ & Hall & _).
  cbn [all_digits] in Hall. apply andb_true_iff in Hall as [Hc _].
  unfold Number_format.
  destruct ((Z.of_nat (String.length (String c r)) <=? point)%Z
            && (point <=? 21)%Z).
  { cbn [append]. eexists _, _. split; [ reflexivity | exact Hc ]. }
  destruct ((0 <? point)%Z && (point <=? 21)%Z) eqn:Hcase.
  { apply andb_true_iff in Hcase as [Hpos _]. apply Z.ltb_lt in Hpos.
    destruct (Z.to_nat point) eqn:Hn; [ lia | ]. cbn [take append].
    eexists _, _. split; [ reflexivity | exact Hc ]. }
  destruct ((-6 <? point)%Z && (point <=? 0)%Z).
  { eexists _, _. split; reflexivity. }
  unfold exponent_form.
  destruct r; eexists _, _; (split; [ reflexivity | exact Hc ]).
Qed.

Lemma parse_number_format (negative : bool) (digits : string) (point : Z)
  (rest : string) :
  canonical_digits digits = true ->
  ends_number rest = true ->
  parse_number ((if negative then "-" else "")
                  ++ Number_format digits point ++ rest)
  = Some (let (m, e) := read_decimal digits point in
          Number_of_binary64 negative m e, rest).
Proof.
  intros Hd Hrest. destruct negative.
  - cbn [append parse_number].
    change (Ascii.eqb "-" "-") with true. cbv iota.
    now apply parse_unsigned_format.
  - destruct (Number_format_head digits point Hd) as (c & s & Htext & Hc).
    rewrite <- (parse_unsigned_format false digits point rest Hd Hrest).
    rewrite Htext. cbn [append parse_number].
    now destruct (is_digit_other c Hc) as (_ & _ & _ & -> & _).
Qed.

(** *** The shortest decimal reads as the number *)

Lemma round_half_even_zero (q : Z) : (0 < q)%Z -> round_half_even 0 q = 0%Z.
Proof.
  intros Hq. unfold round_half_even.
  rewrite Z.div_0_l, Z.mod_0_l by lia.
  destruct (Z.ltb_spec (2 * 0) q); [ reflexivity | lia ].
Qed.

Lemma to_binary64_zero (q : Z) : (0 < q)%Z -> fst (to_binary64 0 q) = 0%Z.
Proof.
  intros Hq. unfold to_binary64.
  set (e := Z.max _ _).
  assert (Hm : (if (0 <=? e)%Z then round_half_even 0 (q * 2 ^ e)
                else round_half_even (0 * 2 ^ (- e)) q) = 0%Z).
  { destruct (Z.leb_spec 0 e).
    - apply round_half_even_zero.
      apply Z.mul_pos_pos; [ exact Hq | now apply Z.pow_pos_nonneg ].
    - now apply round_half_even_zero. }
  rewrite Hm. reflexivity.
Qed.

Lemma read_decimal_no_digits (point : Z) : fst (read_decimal "" point) = 0%Z.
Proof.
  unfold read_decimal, decimal_fraction. cbn [digits_value String.length].
  destruct (Z.leb_spec 0 (point - Z.of_nat 0)).
  - apply to_binary64_zero. lia.
  - apply to_binary64_zero. apply Z.pow_pos_nonneg; lia.
Qed.

(** A decimal made of an integer that reads as a number other than zero has
    canonical digits. *)
Lemma decimal_of_integer_canonical (s exponent m e : Z) :
  read_decimal (fst (decimal_of_integer s exponent))
               (snd (decimal_of_integer s exponent)) = (m, e) ->
  m <> 0%Z ->
  canonical_digits (fst (decimal_of_integer s exponent)) = true.
Proof.
  intros Hread Hm.
  destruct (Z.lt_ge_cases 0 s) as [Hs | Hs].
  - now apply canonical_digits_of_integer.
  - exfalso. apply Hm.
    unfold decimal_of_integer, decimal_digits in Hread.
    replace (Z.to_N s) with 0%N in Hread by lia.
    cbn [fst snd N.to_uint NilEmpty.string_of_uint strip_trailing_zeros
         Ascii.eqb Bool.eqb] in Hread.
    pose proof (read_decimal_no_digits (Z.of_nat (String.length "0") + exponent))
      as H0.
    now rewrite Hread in H0.
Qed.

Lemma decimal_of_length_reads (m e p q order k : Z) (d : string * Z) :
  decimal_of_length m e p q order k = Some d ->
  m <> 0%Z ->
  read_decimal (fst d) (snd d) = (m, e) /\ canonical_digits (fst d) = true.
Proof.
  unfold decimal_of_length. intros H Hm.
  destruct (if (0 <=? k - order)%Z then _ else _) as [tp tq].
  set (near := round_half_even tp tq) in *.
  set (far := if (near =? tp / tq)%Z then _ else _) in *.
  assert (Hreads : forall s x,
             (let (m', e') := read_decimal (fst (decimal_of_integer s x))
                                           (snd (decimal_of_integer s x)) in
              (m' =? m)%Z && (e' =? e)%Z) = true ->
             read_decimal (fst (decimal_of_integer s x))
                          (snd (decimal_of_integer s x)) = (m, e)
             /\ canonical_digits (fst (decimal_of_integer s x)) = true).
  { intros s x.
    destruct (read_decimal (fst (decimal_of_integer s x))
                           (snd (decimal_of_integer s x)))
      as [m' e'] eqn:Hread.
    intros Hcheck.
    apply andb_true_iff in Hcheck as [Hm' He'].
    apply Z.eqb_eq in Hm', He'. subst m' e'.
    split; [ reflexivity | ].
    now apply (decimal_of_integer_canonical s x m e). }
  match type of H with
  | (if ?b then _ else _) = _ => destruct b eqn:Hnear
  end.
  - injection H as <-. now apply Hreads.
  - match type of H with
    | (if ?b then _ else _) = _ => destruct b eqn:Hfar
    end; [ | discriminate ].
    injection H as <-. now apply Hreads.
Qed.

Lemma shortest_from_reads (fuel : nat) (m e p q order k : Z) (d : string * Z) :
  shortest_from fuel m e p q order k = Some d ->
  m <> 0%Z ->
  read_decimal (fst d) (snd d) = (m, e) /\ canonical_digits (fst d) = true.
Proof.
  revert k. induction fuel as [ | fuel IH]; intros k H Hm; [ discriminate | ].
  cbn [shortest_from] in H.
  destruct (decimal_of_length m e p q order k) as [d' | ] eqn:Hk.
  - injection H as <-. now apply (decimal_of_length_reads m e p q order k).
  - now apply (IH (k + 1)%Z).
Qed.

Lemma shortest_decimal_reads (m e : Z) (d : string * Z) :
  shortest_decimal m e = Some d ->
  m <> 0%Z ->
  read_decimal (fst d) (snd d) = (m, e) /\ canonical_digits (fst d) = true.
Proof.
  unfold shortest_decimal. destruct (binary64_fraction m e) as [p q].
  apply shortest_from_reads.
Qed.

(** The digits of a positive integer read as the integer. *)
Lemma read_decimal_of_integer (n : Z) :
  (0 < n)%Z ->
  read_decimal (fst (decimal_of_integer n 0)) (snd (decimal_of_integer n 0))
  = to_binary64 n 1.
Proof.
  intros Hn. unfold decimal_of_integer, read_decimal, decimal_fraction.
  cbn [fst snd].
  pose proof (length_strip_trailing_zeros (decimal_digits n)) as Hlen.
  pose proof (digits_value_strip_trailing_zeros (decimal_digits n) 0) as Hvalue.
  rewrite digits_value_decimal_digits in Hvalue by lia.
  destruct (Z.leb_spec 0 (Z.of_nat (String.length (decimal_digits n)) + 0
                          - Z.of_nat (String.length
                                        (strip_trailing_zeros (decimal_digits n)))));
    [ | lia ].
  rewrite Z.add_0_r. now rewrite <- Hvalue.
Qed.

(** The text of an integer that is a binary64 number: a sign and the format
    of canonical digits that read as the integer. *)
Lemma Number_toString_reads (n : Z) :
  n <> 0%Z ->
  finite_number (JNum n) = true ->
  exists digits point,
    Number_toString n
    = (if (n <? 0)%Z then "-" else "") ++ Number_format digits point
    /\ canonical_digits digits = true
    /\ (let (m, e) := read_decimal digits point in
        Number_of_binary64 (n <? 0)%Z m e) = JNum n.
Proof.
  intros Hn Hfinite. unfold finite_number in Hfinite.
  apply Z.eqb_neq in Hn. rewrite Hn in Hfinite. cbn [orb] in Hfinite.
  apply Z.eqb_neq in Hn.
  unfold Number_toString. apply Z.eqb_neq in Hn. rewrite Hn.
  apply Z.eqb_neq in Hn.
  destruct (to_binary64 (Z.abs n) 1) as [m e] eqn:Hbinary.
  destruct (Number_of_binary64 (n <? 0)%Z m e) as [ | | n' | | | | | | ] eqn:Hnum;
    try discriminate Hfinite.
  apply Z.eqb_eq in Hfinite. subst n'.
  assert (Hm : m <> 0%Z).
  { intros ->. unfold Number_of_binary64 in Hnum. cbn in Hnum.
    destruct (n <? 0)%Z; [ discriminate | ]. injection Hnum as Hnum. lia. }
  destruct (shortest_decimal m e) as [[digits point] | ] eqn:Hshortest.
  - destruct (shortest_decimal_reads m e _ Hshortest Hm) as [Hread Hcanon].
    cbn [fst snd] in Hread, Hcanon.
    exists digits, point. repeat split; [ exact Hcanon | ].
    now rewrite Hread.
  - pose proof (read_decimal_of_integer (Z.abs n) ltac:(lia)) as Hread.
    rewrite Hbinary in Hread.
    destruct (decimal_of_integer (Z.abs n) 0) as [digits point] eqn:Hdecimal.
    cbn [fst snd] in Hread.
    exists digits, point. repeat split.
    + pose proof (canonical_digits_of_integer (Z.abs n) 0 ltac:(lia)) as Hc.
      now rewrite Hdecimal in Hc.
    + now rewrite Hread.
Qed.

Lemma parse_number_toString (n : Z) (rest : string) :
  finite_number (JNum n) = true ->
  ends_number rest = true ->
  parse_number (Number_toString n ++ rest) = Some (JNum n, rest).
Proof.
  intros Hfinite Hrest. destruct (Z.eq_dec n 0) as [-> | Hn].
  - change (Number_toString 0) with "0". cbn [append parse_number].
    change (Ascii.eqb "0" "-") with false. cbv iota.
    apply (parse_unsigned_parts false _ "0" "" 0 rest rest rest "0" "").
    + change (String "0" rest) with ("0" ++ rest).
      apply span_digits_app; [ reflexivity | now apply ends_number_head ].
    + reflexivity.
    + reflexivity.
    + now apply ends_number_fraction.
    + now apply ends_number_exponent.
  - destruct (Number_toString_reads n Hn Hfinite)
      as (digits & point & -> & Hcanon & Hnum).
    rewrite append_assoc, parse_number_format by assumption.
    now rewrite Hnum.
Qed.

Lemma parse_number_fraction (negative : bool) (digits : string) (point : Z)
  (rest : string) :
  finite_number (JFrac negative digits point) = true ->
  ends_number rest = true ->
  parse_number (Fraction_toString negative digits point ++ rest)
  = Some (JFrac negative digits point, rest).
Proof.
  intros Hfinite Hrest. unfold finite_number in Hfinite.
  apply andb_true_iff in Hfinite as [Hcanon Hnum].
  unfold Fraction_toString.
  rewrite append_assoc, parse_number_format by assumption.
  set (v := let (m, e) := read_decimal digits point in
            Number_of_binary64 negative m e) in *.
  destruct v as [ | | | negative' digits' point' | | | | | ];
    try discriminate Hnum.
  apply andb_true_iff in Hnum as [Hnum Hpoint].
  apply andb_true_iff in Hnum as [Hneg Hdigits].
  apply Bool.eqb_prop in Hneg. apply String.eqb_eq in Hdigits.
  apply Z.eqb_eq in Hpoint. now subst.
Qed.

Lemma starts_number_digit (c : ascii) :
  is_digit c = true -> starts_number c = true.
Proof. intros H. unfold starts_number. now rewrite H, orb_true_r. Qed.

Lemma Number_toString_head (n : Z) :
  finite_number (JNum n) = true ->
  exists c s, Number_toString n = String c s /\ starts_number c = true.
Proof.
  intros Hfinite. destruct (Z.eq_dec n 0) as [-> | Hn].
  - exists "0"%char, "". split; reflexivity.
  - destruct (Number_toString_reads n Hn Hfinite)
      as (digits & point & -> & Hcanon & _).
    destruct (n <? 0)%Z; cbn [append].
    + eexists _, _. split; reflexivity.
    + destruct (Number_format_head digits point Hcanon) as (c & s & -> & Hc).
      exists c, s. split; [ reflexivity | now apply starts_number_digit ].
Qed.

Lemma Fraction_toString_head (negative : bool) (digits : string) (point : Z) :
  canonical_digits digits = true ->
  exists c s, Fraction_toString negative digits point = String c s
              /\ starts_number c = true.
Proof.
  intros Hcanon. unfold Fraction_toString. destruct negative; cbn [append].
  - eexists _, _. split; reflexivity.
  - destruct (Number_format_head digits point Hcanon) as (c & s & -> & Hc).
    exists c, s. split; [ reflexivity | now apply starts_number_digit ].
Qed.

(** [Number::toString], [JSON.parse] and [StringToNumber] on numbers whose
    text or value is known. *)
Example Number_toString_examples :
  map Number_toString
    [0; 7; -120; 2 ^ 53; 2 ^ 60; 10 ^ 21 - 2 ^ 17; 10 ^ 21; 2 ^ 70; - 2 ^ 100]%Z
  = ["0"; "7"; "-120"; "9007199254740992"; "1152921504606847000";
     "999999999999999900000"; "1e+21"; "1.1805916207174113e+21";
     "-1.2676506002282294e+30"].
Proof. vm_compute. reflexivity. Qed.

Example Fraction_toString_examples :
  map (fun v => stringify v)
    [JFrac false "15" 1; JFrac true "1" 0; JFrac false "1" (-5);
     JFrac false "1" (-6); JFrac false "123" (-6); JFrac false "12345" 3;
     JFrac false "30000000000000004" 0; JNegZero; JInfinity true]
  = ["1.5"; "-0.1"; "0.000001"; "1e-7"; "1.23e-7"; "123.45";
     "0.30000000000000004"; "0"; "null"].
Proof. vm_compute. reflexivity. Qed.

Example parse_number_examples :
  map parse
    ["0"; "-0"; "1.5"; "1e+21"; "1E3"; "1e-2"; "-12.50e1"; "100e-2"; "01";
     "1."; ".5"; "1e"; "+1"; "1e999"; "9007199254740993";
     "0.1000000000000000055"; "3e-324"; "2e-324"]
  = [Some (JNum 0); Some JNegZero; Some (JFrac false "15" 1);
     Some (JNum (10 ^ 21)); Some (JNum 1000); Some (JFrac false "1" (-1));
     Some (JNum (-125)); Some (JNum 1); None; None; None; None; None;
     Some (JInfinity false); Some (JNum (2 ^ 53)); Some (JFrac false "1" 0);
     Some (JFrac false "5" (-323)); Some (JNum 0)].
Proof. vm_compute. reflexivity. Qed.

Example Math_floor_half_examples :
  map Math_floor_half
    [JNum 20; JNum 7; JNum (-7); JFrac false "75" 1; JStr "7"; JStr " 0x10 ";
     JStr "abc"; JStr ""; JArr [JNum 7]; JArr [JNum 1; JNum 2]; JObj [];
     JBool true; JNull; JInfinity false; JObj [("toString", JNum 1)]]
  = [Returned (Some 10%Z); Returned (Some 3%Z); Returned (Some (-4)%Z);
     Returned (Some 3%Z); Returned (Some 3%Z); Returned (Some 8%Z);
     Returned None; Returned (Some 0%Z); Returned (Some 3%Z); Returned None;
     Returned None; Returned (Some 0%Z); Returned (Some 0%Z); Returned None;
     Threw TypeError_cannot_convert].
Proof. vm_compute. reflexivity. Qed.

Lemma parse_value_number_head (fuel : nat) (c : ascii) (s : string) :
  starts_number c = true ->
  parse_value (S fuel) (String c s) = parse_number (String c s).
Proof.
  destruct c as [[] [] [] [] [] [] [] []]; intros H;
    try discriminate H; reflexivity.
Qed.

(** *** Objects *)

Lemma has_key_app {A : Type} (k : string) (a b : list (string * A)) :
  has_key k (a ++ b)%list = has_key k a || has_key k b.
Proof.
  induction a as [ | [k' v'] a IH]; cbn [has_key app]; [ reflexivity | ].
  rewrite IH. apply orb_assoc.
Qed.

Lemma distinct_keys_app {A : Type} (a : list (string * A)) (k : string) (v : A)
  (m : list (string * A)) :
  distinct_keys (a ++ (k, v) :: m)%list = true ->
  has_key k a = false /\ distinct_keys ((a ++ [(k, v)]) ++ m)%list = true.
Proof.
  intros H. split.
  - induction a as [ | [k' v'] a IH]; [ reflexivity | ].
    cbn [app distinct_keys] in H. apply andb_true_iff in H as [Hk' Ha].
    cbn [has_key]. rewrite (IH Ha), orb_false_r.
    apply negb_true_iff in Hk'. rewrite has_key_app in Hk'.
    apply orb_false_iff in Hk' as [_ Hk']. cbn [has_key] in Hk'.
    apply orb_false_iff in Hk' as [Hk' _].
    rewrite String.eqb_sym. exact Hk'.
  - rewrite <- List.app_assoc. exact H.
Qed.

Lemma obj_set_new {A : Type} (k : string) (v : A) (a : list (string * A)) :
  has_key k a = false -> obj_set k v a = (a ++ [(k, v)])%list.
Proof.
  induction a as [ | [k' v'] a IH]; cbn [has_key obj_set app]; [ reflexivity | ].
  intros H. apply orb_false_iff in H as [Hk Ha].
  rewrite Hk, (IH Ha). reflexivity.
Qed.

Lemma fold_obj_set_distinct (m a : list (string * Json)) :
  distinct_keys (a ++ m)%list = true ->
  fold_left (fun o kv => obj_set (fst kv) (snd kv) o) m a = (a ++ m)%list.
Proof.
  revert a. induction m as [ | [k v] m IH]; intros a H; cbn [fold_left].
  - now rewrite List.app_nil_r.
  - apply distinct_keys_app in H as [Hnew H].
    cbn [fst snd]. rewrite (obj_set_new _ _ _ Hnew), (IH _ H).
    now rewrite <- List.app_assoc.
Qed.

Lemma object_of_distinct_members (m : list (string * Json)) :
  distinct_keys m = true -> object_of_members m = JObj m.
Proof.
  intros H. unfold object_of_members.
  now rewrite (fold_obj_set_distinct m [] H).
Qed.

(** *** The shape of the text [stringify] writes *)

Lemma stringify_array (x : Json) (r : list Json) :
  stringify (JArr (x :: r)) = "[" ++ stringify x ++ stringify_elements r.
Proof.
  reflexivity.
Qed.

Lemma stringify_object (k : string) (x : Json) (r : list (string * Json)) :
  stringify (JObj ((k, x) :: r))
  = "{" ++ QuoteJSONString k ++ ":" ++ stringify x ++ stringify_members r.
Proof.
  reflexivity.
Qed.

(** Every text [stringify] writes is at least one character, which is
    neither white space nor a separator. *)
Lemma starts_number_other (c : ascii) :
  starts_number c = true -> is_whitespace c = false /\ is_separator c = false.
Proof.
  destruct c as [[] [] [] [] [] [] [] []]; intros Hc; try discriminate Hc;
    split; reflexivity.
Qed.

Lemma stringify_head (v : Json) :
  well_formed v = true ->
  exists c s,
    stringify v = String c s
    /\ is_whitespace c = false /\ is_separator c = false.
Proof.
  intros Hwf.
  destruct v as [ | [ | ] | n | negative digits point | | negative | s
                 | [ | x r] | [ | [k x] r] ];
    try discriminate Hwf;
    try (eexists; eexists; repeat split; reflexivity).
  - destruct (Number_toString_head n Hwf) as (c & s & Htext & Hc).
    exists c, s. cbn [stringify]. split; [ exact Htext | ].
    now apply starts_number_other.
  - cbn [well_formed finite_number] in Hwf.
    apply andb_true_iff in Hwf as [Hcanon _].
    destruct (Fraction_toString_head negative digits point Hcanon)
      as (c & s & Htext & Hc).
    exists c, s. cbn [stringify]. split; [ exact Htext | ].
    now apply starts_number_other.
Qed.

Lemma token_other (t c : ascii) (s : string) :
  is_whitespace c = false -> Ascii.eqb c t = false ->
  token t (String c s) = None.
Proof.
  intros Hws Hc. unfold token. cbn [skip_whitespace]. now rewrite Hws, Hc.
Qed.

Lemma token_same (t : ascii) (s : string) :
  is_whitespace t = false -> token t (String t s) = Some s.
Proof.
  intros Hws. unfold token. cbn [skip_whitespace].
  now rewrite Hws, Ascii.eqb_refl.
Qed.

Lemma stringify_length_pos (v : Json) :
  well_formed v = true -> 1 <= String.length (stringify v).
Proof.
  intros Hwf.
  destruct (stringify_head v Hwf) as (c & s & -> & _).
  cbn [String.length]. lia.
Qed.

(** *** One step of the decoder *)

Lemma parse_value_string (fuel : nat) (t : string) :
  parse_value (S fuel) (String dquote t)
  = match parse_chars t with
    | Some (str, r1) => Some (JStr str, r1)
    | None => None
    end.
Proof. reflexivity. Qed.

Lemma parse_value_bracket (fuel : nat) (t : string) :
  parse_value (S fuel) (String "[" t)
  = match token "]" t with
    | Some r1 => Some (JArr [], r1)
    | None =>
        match parse_value fuel t with
        | Some (x, r1) =>
            match parse_elements fuel r1 with
            | Some (l, r2) => Some (JArr (x :: l), r2)
            | None => None
            end
        | None => None
        end
    end.
Proof. reflexivity. Qed.

Lemma parse_value_brace (fuel : nat) (t : string) :
  parse_value (S fuel) (String "{" t)
  = match token "}" t with
    | Some r1 => Some (JObj [], r1)
    | None =>
        match parse_member fuel t with
        | Some (kv, r1) =>
            match parse_members fuel r1 with
            | Some (m, r2) => Some (object_of_members (kv :: m), r2)
            | None => None
            end
        | None => None
        end
    end.
Proof. reflexivity. Qed.

Lemma parse_elements_step (fuel : nat) (s : string) :
  parse_elements (S fuel) s
  = match token "]" s with
    | Some r => Some ([], r)
    | None =>
        match token "," s with
        | Some r =>
            match parse_value fuel r with
            | Some (y, r1) =>
                match parse_elements fuel r1 with
                | Some (l, r2) => Some (y :: l, r2)
                | None => None
                end
            | None => None
            end
        | None => None
        end
    end.
Proof. reflexivity. Qed.

Lemma parse_member_step (fuel : nat) (s : string) :
  parse_member (S fuel) s
  = match token dquote s with
    | Some r =>
        match parse_chars r with
        | Some (k, r1) =>
            match token ":" r1 with
            | Some r2 =>
                match parse_value fuel r2 with
                | Some (y, r3) => Some ((k, y), r3)
                | None => None
                end
            | None => None
            end
        | None => None
        end
    | None => None
    end.
Proof. reflexivity. Qed.

Lemma parse_members_step (fuel : nat) (s : string) :
  parse_members (S fuel) s
  = match token "}" s with
    | Some r => Some ([], r)
    | None =>
        match token "," s with
        | Some r =>
            match parse_member fuel r with
            | Some (kv, r1) =>
                match parse_members fuel r1 with
                | Some (m, r2) => Some (kv :: m, r2)
                | None => None
                end
            | None => None
            end
        | None => None
        end
    end.
Proof. reflexivity. Qed.

(** *** The round trip *)

Lemma ends_number_elements (r : list Json) (rest : string) :
  ends_number (stringify_elements r ++ rest) = true.
Proof. destruct r; reflexivity. Qed.

Lemma ends_number_members (r : list (string * Json)) (rest : string) :
  ends_number (stringify_members r ++ rest) = true.
Proof. destruct r as [ | [k y] r]; reflexivity. Qed.

Lemma token_stringify (t : ascii) (v : Json) (rest : string) :
  well_formed v = true ->
  is_separator t = true -> token t (stringify v ++ rest) = None.
Proof.
  intros Hwf Ht.
  destruct (stringify_head v Hwf) as (c & s & -> & Hws & Hsep).
  apply token_other; [ exact Hws | ].
  destruct (Ascii.eqb_spec c t) as [-> | _]; [ congruence | reflexivity ].
Qed.

Lemma parse_elements_stringify (r : list Json) :
  Forall reads_back r ->
  forallb well_formed r = true ->
  forall fuel rest,
    String.length (stringify_elements r) <= fuel ->
    ends_number rest = true ->
    parse_elements fuel (stringify_elements r ++ rest) = Some (r, rest).
Proof.
  induction 1 as [ | y r Hy _ IH]; intros Hwf fuel rest Hfuel Hrest.
  - destruct fuel as [ | fuel]; [ cbn in Hfuel; lia | reflexivity ].
  - cbn [forallb] in Hwf. apply andb_true_iff in Hwf as [Hwf_y Hwf_r].
    cbn [stringify_elements] in *.
    rewrite !length_append in Hfuel. cbn [String.length] in Hfuel.
    destruct fuel as [ | fuel]; [ lia | ].
    rewrite !append_assoc. cbn [append]. rewrite parse_elements_step.
    rewrite (token_other "]" ","), (token_same ",") by reflexivity.
    rewrite (Hy Hwf_y fuel _ ltac:(lia) (ends_number_elements r rest)).
    rewrite (IH Hwf_r fuel rest ltac:(lia) Hrest).
    reflexivity.
Qed.

Lemma parse_members_stringify (r : list (string * Json)) :
  Forall (fun kv => reads_back (snd kv)) r ->
  forallb (fun kv => well_formed (snd kv)) r = true ->
  forall fuel rest,
    String.length (stringify_members r) <= fuel ->
    ends_number rest = true ->
    parse_members fuel (stringify_members r ++ rest) = Some (r, rest).
Proof.
  induction 1 as [ | [k y] r Hy _ IH]; intros Hwf fuel rest Hfuel Hrest.
  - destruct fuel as [ | fuel]; [ cbn in Hfuel; lia | reflexivity ].
  - cbn [forallb snd] in Hwf, Hy.
    apply andb_true_iff in Hwf as [Hwf_y Hwf_r].
    cbn [stringify_members] in *. unfold QuoteJSONString in *.
    rewrite !length_append in Hfuel.
    cbn [String.length] in Hfuel. rewrite !length_append in Hfuel.
    cbn [String.length] in Hfuel.
    destruct fuel as [ | [ | fuel]]; [ lia | lia | ].
    rewrite !append_assoc. cbn [append].
    rewrite parse_members_step.
    rewrite (token_other "}" ","), (token_same ",") by reflexivity.
    rewrite parse_member_step, (token_same dquote) by reflexivity.
    rewrite !append_assoc. cbn [append].
    rewrite parse_chars_quote_chars, (token_same ":") by reflexivity.
    rewrite (Hy Hwf_y fuel _ ltac:(lia) (ends_number_members r rest)).
    rewrite (IH Hwf_r (S fuel) rest ltac:(lia) Hrest).
    reflexivity.
Qed.

Lemma parse_value_stringify (v : Json) : reads_back v.
Proof.
  induction v as [ | b | n | negative digits point | | negative | s | l IH
                   | m IH] using Json_ind;
    intros Hwf fuel rest Hfuel Hrest; try discriminate Hwf.
  - destruct fuel as [ | fuel]; [ cbn in Hfuel; lia | reflexivity ].
  - destruct fuel as [ | fuel]; [ destruct b; cbn in Hfuel; lia | ].
    destruct b; reflexivity.
  - pose proof (stringify_length_pos (JNum n) Hwf) as Hpos.
    destruct fuel as [ | fuel]; [ lia | ].
    cbn [stringify] in *.
    destruct (Number_toString_head n Hwf) as (c & s & Htext & Hc).
    rewrite Htext. cbn [append].
    rewrite (parse_value_number_head _ _ _ Hc).
    change (String c (s ++ rest)) with (String c s ++ rest).
    rewrite <- Htext. now apply parse_number_toString.
  - pose proof (stringify_length_pos (JFrac negative digits point) Hwf) as Hpos.
    destruct fuel as [ | fuel]; [ lia | ].
    cbn [stringify] in *.
    pose proof Hwf as Hcanon. cbn [well_formed finite_number] in Hcanon.
    apply andb_true_iff in Hcanon as [Hcanon _].
    destruct (Fraction_toString_head negative digits point Hcanon)
      as (c & s & Htext & Hc).
    rewrite Htext. cbn [append].
    rewrite (parse_value_number_head _ _ _ Hc).
    change (String c (s ++ rest)) with (String c s ++ rest).
    rewrite <- Htext. now apply parse_number_fraction.
  - destruct fuel as [ | fuel]; [ cbn in Hfuel; lia | ].
    cbn [stringify]. unfold QuoteJSONString. cbn [append].
    rewrite append_assoc. cbn [append].
    now rewrite parse_value_string, parse_chars_quote_chars.
  - destruct l as [ | x r].
    + destruct fuel as [ | fuel]; [ cbn in Hfuel; lia | reflexivity ].
    + rewrite stringify_array in *.
      rewrite !length_append in Hfuel. cbn [String.length] in Hfuel.
      destruct fuel as [ | fuel]; [ lia | ].
      cbn [well_formed forallb] in Hwf.
      apply andb_true_iff in Hwf as [Hwf_x Hwf_r].
      inversion IH as [ | ? ? IHx IHr]; subst.
      rewrite !append_assoc. cbn [append].
      rewrite parse_value_bracket.
      rewrite (token_stringify _ _ _ Hwf_x) by reflexivity.
      rewrite (IHx Hwf_x fuel _ ltac:(lia) (ends_number_elements r rest)).
      rewrite (parse_elements_stringify r IHr Hwf_r fuel rest ltac:(lia) Hrest).
      reflexivity.
  - destruct m as [ | [k x] r].
    + destruct fuel as [ | fuel]; [ cbn in Hfuel; lia | reflexivity ].
    + cbn [well_formed] in Hwf. apply andb_true_iff in Hwf as [Hkeys Hwf].
      cbn [forallb snd] in Hwf. apply andb_true_iff in Hwf as [Hwf_x Hwf_r].
      rewrite stringify_object in *. unfold QuoteJSONString in *.
      rewrite !length_append in Hfuel.
      cbn [String.length] in Hfuel. rewrite !length_append in Hfuel.
      cbn [String.length] in Hfuel.
      destruct fuel as [ | [ | fuel]]; [ lia | lia | ].
      inversion IH as [ | ? ? IHx IHr]; subst. cbn [snd] in IHx.
      rewrite !append_assoc. cbn [append].
      rewrite !append_assoc. cbn [append].
      rewrite parse_value_brace.
      rewrite (token_other "}" dquote) by reflexivity.
      rewrite parse_member_step, (token_same dquote) by reflexivity.
      rewrite parse_chars_quote_chars, (token_same ":") by reflexivity.
      rewrite (IHx Hwf_x fuel _ ltac:(lia) (ends_number_members r rest)).
      rewrite (parse_members_stringify r IHr Hwf_r (S fuel) rest ltac:(lia)
                 Hrest).
      now rewrite (object_of_distinct_members _ Hkeys).
Qed.

(** [JSON.parse] reads back every JavaScript value from the text
    [JSON.stringify] writes for it. *)
Lemma parse_stringify (v : Json) :
  well_formed v = true -> parse (stringify v) = Some v.
Proof.
  intros Hwf. unfold parse.
  pose proof (parse_value_stringify v Hwf
                (S (String.length (stringify v))) "" ltac:(lia) eq_refl)
    as Hread.
  rewrite append_empty_r in Hread. rewrite Hread. reflexivity.
Qed.

(** ** Rounding to binary64 *)

(** The power of two [2 ^ l] compared with [P / Q], both sides scaled by
    [2 ^ N] so that no exponent is negative. *)
Lemma pow2_split (x y : Z) :
  (0 <= x)%Z -> (0 <= y)%Z -> (2 ^ (x + y) = 2 ^ x * 2 ^ y)%Z.
Proof. intros. now apply Z.pow_add_r. Qed.

Lemma pow2_pos (x : Z) : (0 <= x)%Z -> (0 < 2 ^ x)%Z.
Proof. intros. now apply Z.pow_pos_nonneg. Qed.

Lemma floor_log2_test (P Q G N : Z) :
  (0 <= N)%Z -> (0 <= G + N)%Z ->
  (if (0 <=? G)%Z then (Q * 2 ^ G <=? P)%Z else (Q <=? P * 2 ^ (- G))%Z) = true
  <-> (Q * 2 ^ (G + N) <= P * 2 ^ N)%Z.
Proof.
  intros HN HGN. pose proof (pow2_pos N HN) as HposN.
  destruct (Z.leb_spec 0 G) as [HG | HG].
  - rewrite Z.leb_le, pow2_split by lia. split; intros H; nia.
  - rewrite Z.leb_le.
    pose proof (pow2_pos (G + N) HGN) as Hpos.
    replace (2 ^ N)%Z with (2 ^ (- G) * 2 ^ (G + N))%Z
      by (rewrite <- pow2_split by lia; f_equal; lia).
    split; intros H; nia.
Qed.

(** [floor_log2 P Q] is the exponent of the power of two at or below
    [P / Q]. *)
Lemma floor_log2_spec (P Q N : Z) :
  (0 < P)%Z -> (0 < Q)%Z -> (0 <= N)%Z -> (0 <= floor_log2 P Q + N)%Z ->
  (Q * 2 ^ (floor_log2 P Q + N) <= P * 2 ^ N
   /\ P * 2 ^ N < Q * 2 ^ (floor_log2 P Q + 1 + N))%Z.
Proof.
  intros HP HQ HN. unfold floor_log2.
  pose proof (Z.log2_spec P HP) as [HPlow HPhigh].
  pose proof (Z.log2_spec Q HQ) as [HQlow HQhigh].
  pose proof (Z.log2_nonneg P) as Ha. pose proof (Z.log2_nonneg Q) as Hb.
  pose proof (pow2_pos N HN) as HposN.
  set (a := Z.log2 P) in *. set (b := Z.log2 Q) in *.
  destruct (if (0 <=? a - b)%Z then _ else _) eqn:Htest; intros HLN.
  - split.
    + now apply (floor_log2_test P Q (a - b) N HN HLN).
    + apply Z.lt_le_trans with (2 ^ Z.succ a * 2 ^ N)%Z; [ nia | ].
      rewrite <- pow2_split by lia.
      replace (Z.succ a + N)%Z with (b + (a - b + 1 + N))%Z by lia.
      rewrite (pow2_split b) by lia.
      apply Z.mul_le_mono_nonneg_r; [ | exact HQlow ].
      apply Z.lt_le_incl, pow2_pos. lia.
  - split.
    + apply Z.lt_le_incl.
      apply Z.lt_le_trans with (2 ^ Z.succ b * 2 ^ (a - b - 1 + N))%Z.
      * apply Z.mul_lt_mono_pos_r; [ apply pow2_pos; lia | exact HQhigh ].
      * rewrite <- pow2_split by lia.
        replace (Z.succ b + (a - b - 1 + N))%Z with (a + N)%Z by lia.
        rewrite pow2_split by lia. nia.
    + replace (a - b - 1 + 1 + N)%Z with (a - b + N)%Z by lia.
      apply Z.nle_gt. intros H.
      apply (floor_log2_test P Q (a - b) N HN ltac:(lia)) in H.
      congruence.
Qed.

(** There is one such exponent. *)
Lemma floor_log2_unique (P Q N L : Z) :
  (0 < P)%Z -> (0 < Q)%Z -> (0 <= N)%Z ->
  (0 <= L + N)%Z -> (0 <= floor_log2 P Q + N)%Z ->
  (Q * 2 ^ (L + N) <= P * 2 ^ N)%Z ->
  (P * 2 ^ N < Q * 2 ^ (L + 1 + N))%Z ->
  floor_log2 P Q = L.
Proof.
  intros HP HQ HN HL HF Hlow Hhigh.
  destruct (floor_log2_spec P Q N HP HQ HN HF) as [Flow Fhigh].
  set (F := floor_log2 P Q) in *.
  destruct (Z.lt_trichotomy F L) as [Hlt | [Heq | Hgt]]; [ | exact Heq | ];
    exfalso.
  - assert (2 ^ (F + 1 + N) <= 2 ^ (L + N))%Z
      by (apply Z.pow_le_mono_r; lia).
    nia.
  - assert (2 ^ (L + 1 + N) <= 2 ^ (F + N))%Z
      by (apply Z.pow_le_mono_r; lia).
    nia.
Qed.

Lemma floor_log2_lower (P Q : Z) :
  (Z.log2 P - Z.log2 Q - 1 <= floor_log2 P Q)%Z.
Proof.
  unfold floor_log2.
  match goal with
  | |- context [if ?b then (_ - _)%Z else _] => destruct b
  end; lia.
Qed.

Lemma round_half_even_bounds (A B lo hi : Z) :
  (0 < B)%Z -> (lo * B <= A)%Z -> (A < hi * B)%Z ->
  (lo <= round_half_even A B <= hi)%Z.
Proof.
  intros HB Hlo Hhi.
  assert (Hfloor : (lo <= A / B < hi)%Z).
  { split.
    - apply Z.div_le_lower_bound; [ exact HB | lia ].
    - apply Z.div_lt_upper_bound; [ exact HB | lia ]. }
  unfold round_half_even.
  destruct (2 * (A mod B) <? B)%Z; [ lia | ].
  destruct (B <? 2 * (A mod B))%Z; [ lia | ].
  destruct (Z.even (A / B)); lia.
Qed.

Lemma round_half_even_exact (m B : Z) :
  (0 < B)%Z -> round_half_even (m * B) B = m.
Proof.
  intros HB. unfold round_half_even.
  rewrite Z.div_mul, Z.mod_mul by lia.
  destruct (Z.ltb_spec (2 * 0) B); [ reflexivity | lia ].
Qed.

(** What rounding returns is a binary64 number. *)
Lemma to_binary64_canonical (P Q : Z) :
  (0 < P)%Z -> (0 < Q)%Z ->
  is_binary64 (fst (to_binary64 P Q)) (snd (to_binary64 P Q)).
Proof.
  intros HP HQ. unfold to_binary64.
  set (L := floor_log2 P Q).
  set (e := Z.max (L - 52) (-1074)).
  set (m := if (0 <=? e)%Z then round_half_even P (Q * 2 ^ e)
            else round_half_even (P * 2 ^ (- e)) Q).
  assert (Hm : (0 <= m <= 2 ^ 53)%Z /\ (e = (L - 52)%Z -> 2 ^ 52 <= m)%Z
               /\ (e <> (L - 52)%Z -> m <= 2 ^ 52)%Z).
  { destruct (Z.le_gt_cases (-1074) (L - 52)) as [Hnormal | Hsub].
    - assert (He : e = (L - 52)%Z) by (unfold e; lia).
      assert (Hbounds : (2 ^ 52 <= m <= 2 ^ 53)%Z).
      { unfold m. destruct (Z.leb_spec 0 e) as [Hpos | Hneg].
        - destruct (floor_log2_spec P Q 0 HP HQ ltac:(lia) ltac:(fold L; lia))
            as [Hlow Hhigh].
          fold L in Hlow, Hhigh. rewrite !Z.add_0_r in *.
          change (2 ^ 0)%Z with 1%Z in *. rewrite !Z.mul_1_r in *.
          replace L with (e + 52)%Z in Hlow by lia.
          replace (L + 1)%Z with (e + 53)%Z in Hhigh by lia.
          rewrite pow2_split in Hlow, Hhigh by lia.
          pose proof (pow2_pos e Hpos) as Hpow.
          apply round_half_even_bounds; nia.
        - destruct (floor_log2_spec P Q (- e) HP HQ ltac:(lia)
                      ltac:(fold L; lia)) as [Hlow Hhigh].
          fold L in Hlow, Hhigh.
          replace (L + - e)%Z with 52%Z in Hlow by lia.
          replace (L + 1 + - e)%Z with 53%Z in Hhigh by lia.
          apply round_half_even_bounds; lia. }
      split; [ lia | ]. split; [ lia | ]. intros H. contradiction.
    - assert (He : e = (-1074)%Z) by (unfold e; lia).
      assert (Hbounds : (0 <= m <= 2 ^ 52)%Z).
      { unfold m. rewrite He. cbn [Z.leb Z.compare Z.opp].
        assert (Hless : (P * 2 ^ 1074 < 2 ^ 52 * Q)%Z).
        { destruct (Z.le_gt_cases 0 (L + 1074)) as [Hin | Hout].
          - destruct (floor_log2_spec P Q 1074 HP HQ ltac:(lia)
                        ltac:(fold L; lia)) as [_ Hhigh].
            fold L in Hhigh.
            assert (2 ^ (L + 1 + 1074) <= 2 ^ 52)%Z
              by (apply Z.pow_le_mono_r; lia).
            nia.
          - destruct (floor_log2_spec P Q (- L) HP HQ ltac:(lia)
                        ltac:(fold L; lia)) as [_ Hhigh].
            fold L in Hhigh.
            replace (L + 1 + - L)%Z with 1%Z in Hhigh by lia.
            assert (2 ^ 1074 <= 2 ^ (- L))%Z
              by (apply Z.pow_le_mono_r; lia).
            assert (2 ^ 1 <= 2 ^ 52)%Z by (apply Z.pow_le_mono_r; lia).
            nia. }
        apply round_half_even_bounds; [ exact HQ | | lia ].
        pose proof (pow2_pos 1074 ltac:(lia)). nia. }
      assert (2 ^ 52 <= 2 ^ 53)%Z by (apply Z.pow_le_mono_r; lia).
      split; [ | split ]; lia. }
  destruct Hm as (Hrange & Hnormal & Hsub).
  assert (Hpow : (2 ^ 52 < 2 ^ 53)%Z) by (apply Z.pow_lt_mono_r; lia).
  assert (Hform : (2 ^ 52 <= m \/ e = -1074)%Z).
  { destruct (Z.eq_dec e (L - 52)) as [He | He].
    - left. now apply Hnormal.
    - right. unfold e in *. lia. }
  assert (He : (-1074 <= e)%Z) by (unfold e; lia).
  destruct (Z.eqb_spec m (2 ^ 53)) as [H53 | H53]; cbn [fst snd];
    unfold is_binary64; repeat split; lia.
Qed.

(** Rounding leaves a binary64 number as it is. *)
Lemma to_binary64_exact (P Q m e : Z) :
  (0 < P)%Z -> (0 < Q)%Z -> is_binary64 m e -> (0 < m)%Z ->
  (if (0 <=? e)%Z then P = (m * 2 ^ e * Q)%Z
   else (P * 2 ^ (- e))%Z = (m * Q)%Z) ->
  to_binary64 P Q = (m, e).
Proof.
  intros HP HQ (Hrange & He & Hform) Hm Hvalue.
  pose proof (Z.log2_spec m Hm) as [Hlow Hhigh].
  pose proof (Z.log2_nonneg m) as HX.
  set (X := Z.log2 m) in *.
  assert (Hlog : floor_log2 P Q = (X + e)%Z).
  { pose proof (floor_log2_lower P Q) as Hlower.
    pose proof (Z.log2_nonneg P) as HlogP.
    pose proof (Z.log2_nonneg Q) as HlogQ.
    set (N := (Z.log2 Q + 1 + Z.abs e)%Z).
    assert (HN : (0 <= N)%Z) by (unfold N; lia).
    pose proof (pow2_pos N HN) as HposN.
    pose proof (pow2_pos X HX) as HposX.
    apply (floor_log2_unique P Q N); try (unfold N; lia).
    - destruct (Z.leb_spec 0 e) as [Hpos | Hneg].
      + subst P. replace (X + e + N)%Z with (X + (e + N))%Z by lia.
        rewrite !pow2_split by lia.
        pose proof (pow2_pos e Hpos). nia.
      + replace (2 ^ N)%Z with (2 ^ (- e) * 2 ^ (e + N))%Z
          by (rewrite <- pow2_split by (unfold N; lia); f_equal; lia).
        replace (X + e + N)%Z with (X + (e + N))%Z by lia.
        rewrite (pow2_split X (e + N)) by (unfold N; lia).
        pose proof (pow2_pos (e + N) ltac:(unfold N; lia)).
        replace (P * (2 ^ (- e) * 2 ^ (e + N)))%Z
          with (m * Q * 2 ^ (e + N))%Z by (rewrite <- Hvalue; ring).
        nia.
    - destruct (Z.leb_spec 0 e) as [Hpos | Hneg].
      + subst P. replace (X + e + 1 + N)%Z with (Z.succ X + (e + N))%Z by lia.
        rewrite !pow2_split by lia.
        pose proof (pow2_pos e Hpos). nia.
      + replace (2 ^ N)%Z with (2 ^ (- e) * 2 ^ (e + N))%Z
          by (rewrite <- pow2_split by (unfold N; lia); f_equal; lia).
        replace (X + e + 1 + N)%Z with (Z.succ X + (e + N))%Z by lia.
        rewrite (pow2_split (Z.succ X) (e + N)) by (unfold N; lia).
        pose proof (pow2_pos (e + N) ltac:(unfold N; lia)).
        replace (P * (2 ^ (- e) * 2 ^ (e + N)))%Z
          with (m * Q * 2 ^ (e + N))%Z by (rewrite <- Hvalue; ring).
        nia. }
  assert (Hexp : Z.max (X + e - 52) (-1074) = e).
  { destruct (Z.le_gt_cases (2 ^ 52) m) as [Hnormal | Hsub].
    - assert (X = 52%Z) by (apply Z.log2_unique; lia). lia.
    - assert (e = (-1074)%Z) by lia.
      assert (X < 52)%Z by (apply Z.log2_lt_pow2; lia). lia. }
  unfold to_binary64. rewrite Hlog, Hexp.
  assert (Hround :
    (if (0 <=? e)%Z then round_half_even P (Q * 2 ^ e)
     else round_half_even (P * 2 ^ (- e)) Q) = m).
  { destruct (Z.leb_spec 0 e) as [Hpos | Hneg].
    - subst P. replace (m * 2 ^ e * Q)%Z with (m * (Q * 2 ^ e))%Z by lia.
      apply round_half_even_exact.
      pose proof (pow2_pos e Hpos). nia.
    - rewrite Hvalue. now apply round_half_even_exact. }
  rewrite Hround.
  destruct (Z.eqb_spec m (2 ^ 53)); [ lia | reflexivity ].
Qed.

(** ** The numbers that [JSON.parse] reads *)

Lemma binary64_integer_value (m e v : Z) :
  (0 < m)%Z -> binary64_integer m e = Some v ->
  (0 < v)%Z
  /\ (if (0 <=? e)%Z then v = (m * 2 ^ e * 1)%Z
      else (v * 2 ^ (- e))%Z = (m * 1)%Z).
Proof.
  intros Hm. unfold binary64_integer.
  destruct (Z.leb_spec 0 e) as [He | He].
  - intros H. injection H as <-.
    pose proof (pow2_pos e He). split; nia.
  - pose proof (pow2_pos (- e) ltac:(lia)) as Hpow.
    destruct (Z.eqb_spec (m mod 2 ^ (- e)) 0) as [Hmod | _]; [ | discriminate ].
    intros H. injection H as <-.
    pose proof (Z.div_mod m (2 ^ (- e)) ltac:(lia)) as Hdiv.
    rewrite Hmod in Hdiv. split; nia.
Qed.

(** The digits of the exact decimal of a binary64 number with a negative
    exponent read as the number. *)
Lemma read_decimal_exact (m e : Z) :
  is_binary64 m e -> (0 < m)%Z -> (e < 0)%Z ->
  read_decimal (fst (decimal_of_integer (m * 5 ^ (- e)) e))
               (snd (decimal_of_integer (m * 5 ^ (- e)) e)) = (m, e).
Proof.
  intros Hbinary Hm He.
  assert (H5 : (0 < 5 ^ (- e))%Z) by (apply Z.pow_pos_nonneg; lia).
  assert (H2 : (0 < 2 ^ (- e))%Z) by (apply Z.pow_pos_nonneg; lia).
  set (S := (m * 5 ^ (- e))%Z) in *.
  assert (HS : (0 < S)%Z) by (unfold S; nia).
  unfold decimal_of_integer, read_decimal, decimal_fraction. cbn [fst snd].
  pose proof (length_strip_trailing_zeros (decimal_digits S)) as Hlen.
  pose proof (digits_value_strip_trailing_zeros (decimal_digits S) 0) as Hvalue.
  rewrite digits_value_decimal_digits in Hvalue by lia.
  set (dv := digits_value (strip_trailing_zeros (decimal_digits S)) 0) in *.
  set (c := (Z.of_nat (String.length (decimal_digits S))
             - Z.of_nat (String.length
                           (strip_trailing_zeros (decimal_digits S))))%Z) in *.
  assert (Hc : (0 <= c)%Z) by (unfold c; lia).
  assert (H10c : (0 < 10 ^ c)%Z) by (apply Z.pow_pos_nonneg; lia).
  assert (Hdv : (0 < dv)%Z) by nia.
  assert (Hten : (10 ^ (- e) = 2 ^ (- e) * 5 ^ (- e))%Z)
    by (change 10%Z with (2 * 5)%Z; apply Z.pow_mul_l).
  replace (Z.of_nat (String.length (decimal_digits S)) + e
           - Z.of_nat (String.length (strip_trailing_zeros (decimal_digits S))))%Z
    with (c + e)%Z by (unfold c; lia).
  destruct (Z.leb_spec 0 (c + e)) as [Hshift | Hshift].
  - assert (Hsplit : (10 ^ c = 10 ^ (c + e) * 10 ^ (- e))%Z)
      by (rewrite <- Z.pow_add_r by lia; f_equal; lia).
    assert (Hp : (0 < 10 ^ (c + e))%Z) by (apply Z.pow_pos_nonneg; lia).
    apply to_binary64_exact; try assumption; try nia.
    destruct (Z.leb_spec 0 e); [ lia | ].
    rewrite Z.mul_1_r.
    apply (Z.mul_reg_r _ _ (5 ^ (- e))); [ lia | ].
    fold S. rewrite Hvalue, Hsplit, Hten. ring.
  - assert (Hsplit : (10 ^ (- e) = 10 ^ (- (c + e)) * 10 ^ c)%Z)
      by (rewrite <- Z.pow_add_r by lia; f_equal; lia).
    assert (Hp : (0 < 10 ^ (- (c + e)))%Z) by (apply Z.pow_pos_nonneg; lia).
    apply to_binary64_exact; try assumption.
    destruct (Z.leb_spec 0 e); [ lia | ].
    apply (Z.mul_reg_r _ _ (10 ^ c)); [ lia | ].
    replace (m * 10 ^ (- (c + e)) * 10 ^ c)%Z with (m * 10 ^ (- e))%Z
      by (rewrite Hsplit; ring).
    rewrite Hten.
    replace (m * (2 ^ (- e) * 5 ^ (- e)))%Z with (S * 2 ^ (- e))%Z
      by (unfold S; ring).
    rewrite Hvalue. ring.
Qed.

(** The value made of a binary64 number is a value of JavaScript. *)
Lemma Number_of_binary64_value (negative : bool) (m e : Z) :
  is_binary64 m e ->
  javascript_value (Number_of_binary64 negative m e) = true.
Proof.
  intros Hbinary. pose proof Hbinary as (Hrange & _ & _).
  unfold Number_of_binary64.
  destruct (Z.eqb_spec m 0) as [Hzero | Hzero];
    [ destruct negative; reflexivity | ].
  destruct (Z.ltb_spec 971 e) as [Hover | Hin]; [ reflexivity | ].
  assert (Hm : (0 < m)%Z) by lia.
  assert (Hagain : forall v,
            Number_of_binary64 negative m e = v ->
            (let (m', e') := (m, e) in Number_of_binary64 negative m' e') = v)
    by (intros v H; exact H).
  destruct (binary64_integer m e) as [v | ] eqn:Hinteger.
  - destruct (binary64_integer_value m e v Hm Hinteger) as [Hv Hvalue].
    cbn [javascript_value finite_number].
    assert (Hsigned : Z.abs (if negative then - v else v) = v)
      by (destruct negative; lia).
    assert (Hsign : ((if negative then - v else v) <? 0)%Z = negative)
      by (destruct negative; [ apply Z.ltb_lt | apply Z.ltb_ge ]; lia).
    rewrite Hsigned, Hsign.
    rewrite (to_binary64_exact v 1 m e Hv ltac:(lia) Hbinary Hm Hvalue).
    unfold Number_of_binary64.
    destruct (Z.eqb_spec m 0); [ contradiction | ].
    destruct (Z.ltb_spec 971 e); [ lia | ].
    rewrite Hinteger, Z.eqb_refl. apply orb_true_r.
  - assert (He : (e < 0)%Z).
    { unfold binary64_integer in Hinteger.
      destruct (Z.leb_spec 0 e); [ discriminate Hinteger | assumption ]. }
    assert (Hread : forall d,
              (match shortest_decimal m e with
               | Some d' => d'
               | None => decimal_of_integer (m * 5 ^ (- e)) e
               end) = d ->
              read_decimal (fst d) (snd d) = (m, e)
              /\ canonical_digits (fst d) = true).
    { intros d Hd.
      destruct (shortest_decimal m e) as [d' | ] eqn:Hshortest.
      - subst d'. now apply shortest_decimal_reads.
      - subst d. split; [ now apply read_decimal_exact | ].
        apply canonical_digits_of_integer.
        assert (0 < 5 ^ (- e))%Z by (apply Z.pow_pos_nonneg; lia). nia. }
    destruct (match shortest_decimal m e with
              | Some d' => d'
              | None => decimal_of_integer (m * 5 ^ (- e)) e
              end) as [digits point] eqn:Hd.
    destruct (Hread _ eq_refl) as [Hreads Hcanon]. cbn [fst snd] in *.
    cbn [javascript_value finite_number].
    rewrite Hcanon, Hreads. cbn [andb].
    unfold Number_of_binary64.
    destruct (Z.eqb_spec m 0); [ contradiction | ].
    destruct (Z.ltb_spec 971 e); [ lia | ].
    rewrite Hinteger, Hd.
    now rewrite Bool.eqb_reflx, String.eqb_refl, Z.eqb_refl.
Qed.

Lemma is_digit_value (c : ascii) :
  is_digit c = true -> (0 <= Z.of_N (N_of_ascii c) - 48)%Z.
Proof.
  unfold is_digit. intros H. apply andb_true_iff in H as [H _].
  apply N.leb_le in H. lia.
Qed.

Lemma digits_value_nonneg (s : string) (acc : Z) :
  all_digits s = true -> (0 <= acc)%Z -> (0 <= digits_value s acc)%Z.
Proof.
  revert acc. induction s as [ | c s IH]; intros acc Hs Hacc; [ exact Hacc | ].
  cbn [all_digits] in Hs. apply andb_true_iff in Hs as [Hc Hs].
  cbn [digits_value]. apply IH; [ exact Hs | ].
  pose proof (is_digit_value c Hc). lia.
Qed.

(** Digits read as a value of JavaScript. *)
Lemma read_decimal_value (negative : bool) (digits : string) (point : Z) :
  all_digits digits = true ->
  javascript_value
    (let (m, e) := read_decimal digits point in Number_of_binary64 negative m e)
  = true.
Proof.
  intros Hdigits.
  pose proof (digits_value_nonneg digits 0 Hdigits ltac:(lia)) as Hvalue.
  assert (Hround : forall P Q, (0 <= P)%Z -> (0 < Q)%Z ->
            javascript_value
              (let (m, e) := to_binary64 P Q in Number_of_binary64 negative m e)
            = true).
  { intros P Q HP HQ.
    destruct (Z.eq_dec P 0) as [-> | HP0].
    - pose proof (to_binary64_zero Q HQ) as Hzero.
      destruct (to_binary64 0 Q) as [m e]. cbn [fst] in Hzero. subst m.
      unfold Number_of_binary64. cbn [Z.eqb]. now destruct negative.
    - pose proof (to_binary64_canonical P Q ltac:(lia) HQ) as Hbinary.
      destruct (to_binary64 P Q) as [m e]. cbn [fst snd] in Hbinary.
      now apply Number_of_binary64_value. }
  unfold read_decimal, decimal_fraction.
  destruct (Z.leb_spec 0 (point - Z.of_nat (String.length digits))) as [H | H].
  - apply Hround; [ | lia ].
    apply Z.mul_nonneg_nonneg; [ exact Hvalue | ].
    apply Z.pow_nonneg. lia.
  - apply Hround; [ exact Hvalue | ]. apply Z.pow_pos_nonneg; lia.
Qed.

Lemma all_digits_span_digits (s : string) :
  all_digits (fst (span_digits s)) = true.
Proof.
  induction s as [ | c s IH]; [ reflexivity | ]. cbn [span_digits].
  destruct (is_digit c) eqn:Hc; [ | reflexivity ].
  destruct (span_digits s) as [d rest]. cbn [fst all_digits] in *.
  now rewrite Hc, IH.
Qed.

Lemma all_digits_strip_leading_zeros (s : string) :
  all_digits s = true -> all_digits (strip_leading_zeros s) = true.
Proof.
  induction s as [ | c s IH]; [ reflexivity | ].
  intros H. cbn [strip_leading_zeros].
  destruct (Ascii.eqb c "0"); [ | exact H ].
  cbn [all_digits] in H. apply andb_true_iff in H as [_ H]. now apply IH.
Qed.

Lemma number_of_literal_value (negative : bool) (int frac : string)
  (exponent : Z) :
  all_digits int = true -> all_digits frac = true ->
  javascript_value (number_of_literal negative int frac exponent) = true.
Proof.
  intros Hint Hfrac. unfold number_of_literal.
  assert (Hall : all_digits
                   (strip_trailing_zeros (strip_leading_zeros (int ++ frac)))
                 = true).
  { apply all_digits_strip_trailing_zeros, all_digits_strip_leading_zeros.
    now rewrite all_digits_app, Hint, Hfrac. }
  destruct (strip_trailing_zeros (strip_leading_zeros (int ++ frac)))
    as [ | c r] eqn:Hdigits; [ now destruct negative | ].
  now apply read_decimal_value.
Qed.

Lemma parse_unsigned_value (negative : bool) (s : string) (v : Json)
  (rest : string) :
  parse_unsigned negative s = Some (v, rest) -> javascript_value v = true.
Proof.
  unfold parse_unsigned.
  pose proof (all_digits_span_digits s) as Hint.
  destruct (span_digits s) as [int s2]. cbn [fst] in Hint.
  destruct int as [ | c r]; [ discriminate | ].
  destruct (Ascii.eqb c "0" && negb (String.eqb r "")); [ discriminate | ].
  destruct (parse_fraction s2) as [[frac s3] | ] eqn:Hfraction;
    [ | discriminate ].
  assert (Hfrac : all_digits frac = true).
  { unfold parse_fraction in Hfraction.
    destruct s2 as [ | c' r']; [ now injection Hfraction as <- _ | ].
    destruct (Ascii.eqb c' "."); [ | now injection Hfraction as <- _ ].
    pose proof (all_digits_span_digits r') as Hspan.
    destruct (span_digits r') as [[ | c'' r''] rest'];
      [ discriminate Hfraction | ].
    injection Hfraction as <- _. exact Hspan. }
  destruct (parse_exponent s3) as [[exponent rest'] | ]; [ | discriminate ].
  intros H. injection H as <- _.
  now apply number_of_literal_value.
Qed.

Lemma parse_number_value (s : string) (v : Json) (rest : string) :
  parse_number s = Some (v, rest) -> javascript_value v = true.
Proof.
  unfold parse_number. destruct s as [ | c r]; [ discriminate | ].
  destruct (Ascii.eqb c "-"); apply parse_unsigned_value.
Qed.

(** ** The values that [JSON.parse] returns *)

Lemma has_key_obj_set {A : Type} (k' k : string) (v : A)
  (m : list (string * A)) :
  has_key k' (obj_set k v m) = has_key k' m || String.eqb k' k.
Proof.
  induction m as [ | [k1 v1] m IH]; cbn [obj_set has_key].
  - now rewrite orb_false_r.
  - destruct (String.eqb_spec k k1) as [-> | Hk]; cbn [has_key].
    + destruct (String.eqb k' k1), (has_key k' m); reflexivity.
    + rewrite IH. now rewrite orb_assoc.
Qed.

Lemma distinct_keys_obj_set {A : Type} (k : string) (v : A)
  (m : list (string * A)) :
  distinct_keys m = true -> distinct_keys (obj_set k v m) = true.
Proof.
  induction m as [ | [k1 v1] m IH]; cbn [obj_set distinct_keys];
    [ reflexivity | ].
  intros H. apply andb_true_iff in H as [Hk1 Hm].
  destruct (String.eqb_spec k k1) as [-> | Hk]; cbn [distinct_keys].
  - now rewrite Hk1, Hm.
  - rewrite has_key_obj_set, (IH Hm).
    apply negb_true_iff in Hk1. rewrite Hk1.
    destruct (String.eqb_spec k1 k) as [-> | _]; [ contradiction | reflexivity ].
Qed.

Lemma forallb_obj_set {A : Type} (P : A -> bool) (k : string) (v : A)
  (m : list (string * A)) :
  P v = true ->
  forallb (fun kv => P (snd kv)) m = true ->
  forallb (fun kv => P (snd kv)) (obj_set k v m) = true.
Proof.
  intros Hv. induction m as [ | [k1 v1] m IH]; cbn [obj_set forallb snd].
  - now rewrite Hv.
  - intros H. apply andb_true_iff in H as [Hv1 Hm].
    destruct (String.eqb k k1); cbn [forallb snd].
    + now rewrite Hv, Hm.
    + now rewrite Hv1, (IH Hm).
Qed.

Lemma object_of_members_value (raw : list (string * Json)) :
  forallb (fun kv => javascript_value (snd kv)) raw = true ->
  javascript_value (object_of_members raw) = true.
Proof.
  intros Hraw. unfold object_of_members. cbn [javascript_value].
  apply andb_true_iff.
  assert (Hfold : forall acc,
            distinct_keys acc = true ->
            forallb (fun kv => javascript_value (snd kv)) acc = true ->
            distinct_keys
              (fold_left (fun o kv => obj_set (fst kv) (snd kv) o) raw acc)
            = true
            /\ forallb (fun kv => javascript_value (snd kv))
                 (fold_left (fun o kv => obj_set (fst kv) (snd kv) o) raw acc)
               = true).
  { induction raw as [ | [k v] raw IH]; intros acc Hkeys Hacc; cbn [fold_left].
    - now split.
    - cbn [forallb snd] in Hraw. apply andb_true_iff in Hraw as [Hv Hraw].
      apply (IH Hraw); cbn [fst snd].
      + now apply distinct_keys_obj_set.
      + now apply (forallb_obj_set javascript_value). }
  now apply Hfold.
Qed.

Lemma parse_value_step (fuel : nat) (s : string) :
  parse_value (S fuel) s
  = match skip_whitespace s with
    | EmptyString => None
    | String c r =>
        if Ascii.eqb c "n" then option_map (pair JNull) (literal "ull" r)
        else if Ascii.eqb c "t" then
          option_map (pair (JBool true)) (literal "rue" r)
        else if Ascii.eqb c "f" then
          option_map (pair (JBool false)) (literal "alse" r)
        else if Ascii.eqb c dquote then
          match parse_chars r with
          | Some (str, r1) => Some (JStr str, r1)
          | None => None
          end
        else if Ascii.eqb c "[" then
          match token "]" r with
          | Some r1 => Some (JArr [], r1)
          | None =>
              match parse_value fuel r with
              | Some (x, r1) =>
                  match parse_elements fuel r1 with
                  | Some (l, r2) => Some (JArr (x :: l), r2)
                  | None => None
                  end
              | None => None
              end
          end
        else if Ascii.eqb c "{" then
          match token "}" r with
          | Some r1 => Some (JObj [], r1)
          | None =>
              match parse_member fuel r with
              | Some (kv, r1) =>
                  match parse_members fuel r1 with
                  | Some (m, r2) => Some (object_of_members (kv :: m), r2)
                  | None => None
                  end
              | None => None
              end
          end
        else parse_number (String c r)
    end.
Proof. reflexivity. Qed.

(** Whatever the decoder reads is a value of JavaScript. *)
Lemma parse_value_javascript (fuel : nat) :
  (forall s v rest,
     parse_value fuel s = Some (v, rest) -> javascript_value v = true)
  /\ (forall s l rest,
        parse_elements fuel s = Some (l, rest) ->
        forallb javascript_value l = true)
  /\ (forall s kv rest,
        parse_member fuel s = Some (kv, rest) ->
        javascript_value (snd kv) = true)
  /\ (forall s m rest,
        parse_members fuel s = Some (m, rest) ->
        forallb (fun kv => javascript_value (snd kv)) m = true).
Proof.
  induction fuel as [ | fuel (IHvalue & IHelements & IHmember & IHmembers)];
    [ repeat split; discriminate | ].
  repeat split.
  - intros s v rest. rewrite parse_value_step.
    destruct (skip_whitespace s) as [ | c r]; [ discriminate | ].
    destruct (Ascii.eqb c "n").
    { destruct (literal "ull" r); [ | discriminate ].
      intros H. now injection H as <- _. }
    destruct (Ascii.eqb c "t").
    { destruct (literal "rue" r); [ | discriminate ].
      intros H. now injection H as <- _. }
    destruct (Ascii.eqb c "f").
    { destruct (literal "alse" r); [ | discriminate ].
      intros H. now injection H as <- _. }
    destruct (Ascii.eqb c dquote).
    { destruct (parse_chars r) as [[str r1] | ]; [ | discriminate ].
      intros H. now injection H as <- _. }
    destruct (Ascii.eqb c "[").
    { destruct (token "]" r); [ intros H; now injection H as <- _ | ].
      destruct (parse_value fuel r) as [[x r1] | ] eqn:Hx; [ | discriminate ].
      destruct (parse_elements fuel r1) as [[l r2] | ] eqn:Hl;
        [ | discriminate ].
      intros H. injection H as <- _. cbn [javascript_value forallb].
      now rewrite (IHvalue _ _ _ Hx), (IHelements _ _ _ Hl). }
    destruct (Ascii.eqb c "{").
    { destruct (token "}" r); [ intros H; now injection H as <- _ | ].
      destruct (parse_member fuel r) as [[kv r1] | ] eqn:Hkv;
        [ | discriminate ].
      destruct (parse_members fuel r1) as [[m r2] | ] eqn:Hm;
        [ | discriminate ].
      intros H. injection H as <- _. apply object_of_members_value.
      cbn [forallb].
      now rewrite (IHmember _ _ _ Hkv), (IHmembers _ _ _ Hm). }
    apply parse_number_value.
  - intros s l rest. rewrite parse_elements_step.
    destruct (token "]" s); [ intros H; now injection H as <- _ | ].
    destruct (token "," s) as [r | ]; [ | discriminate ].
    destruct (parse_value fuel r) as [[y r1] | ] eqn:Hy; [ | discriminate ].
    destruct (parse_elements fuel r1) as [[l' r2] | ] eqn:Hl;
      [ | discriminate ].
    intros H. injection H as <- _. cbn [forallb].
    now rewrite (IHvalue _ _ _ Hy), (IHelements _ _ _ Hl).
  - intros s kv rest. rewrite parse_member_step.
    destruct (token dquote s) as [r | ]; [ | discriminate ].
    destruct (parse_chars r) as [[k r1] | ]; [ | discriminate ].
    destruct (token ":" r1) as [r2 | ]; [ | discriminate ].
    destruct (parse_value fuel r2) as [[y r3] | ] eqn:Hy; [ | discriminate ].
    intros H. injection H as <- _. cbn [snd]. exact (IHvalue _ _ _ Hy).
  - intros s m rest. rewrite parse_members_step.
    destruct (token "}" s); [ intros H; now injection H as <- _ | ].
    destruct (token "," s) as [r | ]; [ | discriminate ].
    destruct (parse_member fuel r) as [[kv r1] | ] eqn:Hkv; [ | discriminate ].
    destruct (parse_members fuel r1) as [[m' r2] | ] eqn:Hm;
      [ | discriminate ].
    intros H. injection H as <- _. cbn [forallb].
    now rewrite (IHmember _ _ _ Hkv), (IHmembers _ _ _ Hm).
Qed.

Lemma parse_javascript_value (text : string) (v : Json) :
  parse text = Some v -> javascript_value v = true.
Proof.
  unfold parse.
  destruct (parse_value (S (String.length text)) text) as [[v' rest] | ] eqn:Hv;
    [ | discriminate ].
  destruct (skip_whitespace rest); [ | discriminate ].
  intros H. injection H as <-.
  exact (proj1 (parse_value_javascript _) _ _ _ Hv).
Qed.

(** A value of JavaScript without an infinite number and without the
    negative zero is one that JSON text writes. *)
Lemma javascript_value_well_formed (v : Json) :
  javascript_value v = true -> no_special_number v = true ->
  well_formed v = true.
Proof.
  induction v as [ | b | n | negative digits point | | negative | s | l IH
                   | m IH] using Json_ind;
    intros Hvalue Hspecial; try discriminate Hspecial; try exact Hvalue;
    try reflexivity.
  - cbn [javascript_value no_special_number well_formed] in *.
    induction IH as [ | x l Hx _ IHl]; [ reflexivity | ].
    cbn [forallb] in *.
    apply andb_true_iff in Hvalue as [Hvx Hvl].
    apply andb_true_iff in Hspecial as [Hsx Hsl].
    now rewrite (Hx Hvx Hsx), (IHl Hvl Hsl).
  - cbn [javascript_value no_special_number well_formed] in *.
    apply andb_true_iff in Hvalue as [Hkeys Hvalue].
    rewrite Hkeys. cbn [andb]. clear Hkeys.
    induction IH as [ | [k x] m Hx _ IHm]; [ reflexivity | ].
    cbn [forallb snd] in *.
    apply andb_true_iff in Hvalue as [Hvx Hvm].
    apply andb_true_iff in Hspecial as [Hsx Hsm].
    now rewrite (Hx Hvx Hsx), (IHm Hvm Hsm).
Qed.

(** What was decoded from JSON text is decoded again from the text
    [JSON.stringify] writes for it, unless it holds an infinite number or
    the negative zero. *)
Lemma parse_stringify_decoded (body : string) (R : Json) :
  parse body = Some R -> no_special_number R = true ->
  parse (stringify R) = Some R.
Proof.
  intros Hbody Hspecial. apply parse_stringify.
  apply javascript_value_well_formed; [ | exact Hspecial ].
  now apply (parse_javascript_value body).
Qed.

(** Rounding leaves a positive integer below [2 ^ 53] as it is. *)
Lemma to_binary64_safe_integer (p : Z) :
  (0 < p < 2 ^ 53)%Z ->
  exists m e,
    to_binary64 p 1 = (m, e)
    /\ m <> 0%Z /\ (e <= 0)%Z /\ binary64_integer m e = Some p.
Proof.
  intros Hp.
  pose proof (Z.log2_spec p ltac:(lia)) as [Hlow Hhigh].
  pose proof (Z.log2_nonneg p) as Hnonneg.
  assert (Hl : (Z.log2 p <= 52)%Z).
  { destruct (Z.le_gt_cases (Z.log2 p) 52) as [H | H]; [ exact H | ].
    exfalso. assert (2 ^ 53 <= 2 ^ Z.log2 p)%Z
      by (apply Z.pow_le_mono_r; lia). lia. }
  unfold to_binary64, floor_log2.
  change (Z.log2 1) with 0%Z. rewrite Z.sub_0_r.
  destruct (Z.leb_spec 0 (Z.log2 p)) as [_ | H]; [ | lia ].
  rewrite Z.mul_1_l.
  destruct (Z.leb_spec (2 ^ Z.log2 p) p) as [_ | H]; [ | lia ].
  rewrite Z.max_l by lia.
  set (e := (Z.log2 p - 52)%Z).
  assert (Hround : forall x, round_half_even x 1 = x).
  { intros x. unfold round_half_even. rewrite Z.div_1_r, Z.mod_1_r.
    reflexivity. }
  destruct (Z.leb_spec 0 e) as [He | He].
  - assert (e = 0%Z) by lia. replace e with 0%Z by lia.
    change (1 * 2 ^ 0)%Z with 1%Z. rewrite Hround.
    destruct (Z.eqb_spec p (2 ^ 53)) as [H53 | _]; [ lia | ].
    exists p, 0%Z. repeat split; try lia.
    unfold binary64_integer. cbn [Z.leb Z.compare].
    now rewrite Z.pow_0_r, Z.mul_1_r.
  - rewrite Hround.
    assert (Hpow : (0 < 2 ^ (- e))%Z) by (apply Z.pow_pos_nonneg; lia).
    assert (Hbound : (p * 2 ^ (- e) < 2 ^ 53)%Z).
    { replace (2 ^ 53)%Z with (2 ^ Z.succ (Z.log2 p) * 2 ^ (- e))%Z.
      - apply Z.mul_lt_mono_pos_r; assumption.
      - rewrite <- Z.pow_add_r by lia. f_equal. unfold e. lia. }
    destruct (Z.eqb_spec (p * 2 ^ (- e)) (2 ^ 53)) as [H53 | _]; [ lia | ].
    exists (p * 2 ^ (- e))%Z, e. repeat split; try lia.
    unfold binary64_integer.
    destruct (Z.leb_spec 0 e); [ lia | ].
    rewrite Z.mod_mul by lia. cbn [Z.eqb].
    now rewrite Z.div_mul by lia.
Qed.

(** Every integer below [2 ^ 53] in absolute value is a number. *)
Lemma safe_integer_is_number (n : Z) :
  (Z.abs n < 2 ^ 53)%Z -> finite_number (JNum n) = true.
Proof.
  intros Hn. unfold finite_number.
  destruct (Z.eqb_spec n 0) as [ | Hn0]; [ reflexivity | ]. cbn [orb].
  destruct (to_binary64_safe_integer (Z.abs n) ltac:(lia))
    as (m & e & -> & Hm & He & Hinteger).
  unfold Number_of_binary64.
  destruct (Z.eqb_spec m 0); [ contradiction | ].
  destruct (Z.ltb_spec 971 e); [ lia | ].
  rewrite Hinteger.
  destruct (Z.ltb_spec n 0); apply Z.eqb_eq; lia.
Qed.

(** ** Success: the result carries the remote answer *)

Lemma await_answered (client : Connection) (call : RemoteCall)
  (tr tr' : Trace) (R : Json) :
  await client call tr = (Returned R, tr') -> answered client tr' R.
Proof.
  unfold await. intros H. inversion H; subst.
  exists tr, call. split; [ reflexivity | assumption ].
Qed.

(** What [getMessages] returns is the answer to its message-retrieve
    call. *)
Lemma getMessages_answered (client : Connection)
  (streamName topic limit anchor : JsVal) (tr tr' : Trace) (R : Json) :
  getMessages client streamName topic limit anchor tr = (Returned R, tr') ->
  answered client tr' R.
Proof.
  rewrite getMessages_steps. cbv zeta.
  destruct (client tr list_all_streams) as [streamsResponse | e];
    [ | discriminate ].
  destruct (get_property (Some streamsResponse) "streams") as [streams | e];
    [ | discriminate ].
  destruct (call_find _ streams (name_is streamName)) as [stream | e];
    [ | discriminate ].
  destruct (ToBoolean stream).
  - destruct (Math_floor_half _) as [half | e]; [ | discriminate ].
    intros H. inversion H as [[HR Htr]].
    eexists; eexists; split; [ reflexivity | exact HR ].
  - destruct (ToString_or_throw streamName); discriminate.
Qed.

(** A facade call that returns, followed by the wrapping of its
    response. *)
Lemma bind_wrap_returned (call : Async Json) (tr tr' : Trace)
  (r : CallToolResult) :
  bind call (fun response =>
    ret {| content :=
             [ {| type := "text"; text := JSON.stringify response |} ] |}) tr
  = (Returned r, tr') ->
  exists R, call tr = (Returned R, tr') /\ r = text_result (JSON.stringify R).
Proof.
  unfold bind, ret.
  destruct (call tr) as [[R | e] tr1]; intros H; inversion H; subst.
  exists R. split; reflexivity.
Qed.

(** When the [try] block of the handler returns, its result wraps the answer
    to the last remote call, which is what the facade method returned. *)
Lemma handler_try_success (client : Connection) (request : CallToolRequest)
  (tr tr' : Trace) (r : CallToolResult) :
  handler_try client request tr = (Returned r, tr') ->
  exists R, answered client tr' R /\ r = text_result (JSON.stringify R).
Proof.
  unfold handler_try.
  destruct (params_arguments request) as [args | ]; [ | discriminate ].
  repeat match goal with
         | |- context [if ?b then _ else _] => destruct b
         end;
    try discriminate;
    intros H; apply bind_wrap_returned in H as (R & Hcall & ->);
    exists R; (split; [ | reflexivity ]);
    try (apply getMessages_answered in Hcall; exact Hcall);
    revert Hcall;
    unfold getStreams, sendStreamMessage, sendDirectMessage, addReaction,
      getTopics, subscribeToStream, getUsers;
    rewrite try_catch_rethrow; cbv zeta; apply await_answered.
Qed.

(** C7, amended.  When the facade call of a request succeeds (the [try]
    block returns), the handler returns a result with exactly one text item,
    whose text is [JSON.stringify R] for the value [R] the remote call
    answered and the facade method returned; and [JSON.parse] of that text
    is [R] itself, every member and element back and none added, provided
    [R] holds no infinite number and no negative zero.  This is so for every
    [R] that was itself decoded from JSON text, as the client decodes the
    body of a response; and, more generally, for every [R] that is a value
    of JavaScript in this representation (the names of an object's members
    distinct, an integer a binary64 number, a number that is not an integer
    held as its shortest decimal). *)
Theorem success_round_trip (client : Connection) (request : CallToolRequest)
  (tr tr' : Trace) (r : CallToolResult) :
  handler_try client request tr = (Returned r, tr') ->
  exists R,
    answered client tr' R
    /\ handler client request tr
       = (Returned
            {| content :=
                 [ {| type := "text"; text := JSON.stringify R |} ] |},
          tr')
    /\ (well_formed R = true -> JSON.parse (JSON.stringify R) = Some R)
    /\ (forall body,
          JSON.parse body = Some R -> no_special_number R = true ->
          JSON.parse (JSON.stringify R) = Some R).
Proof.
  intros Htry.
  destruct (handler_try_success _ _ _ _ _ Htry) as (R & Hanswered & ->).
  exists R. split; [ exact Hanswered | ]. split; [ | split ].
  - unfold handler, try_catch. rewrite Htry. reflexivity.
  - apply parse_stringify.
  - intros body. apply parse_stringify_decoded.
Qed.

Lemma success_round_trip_witness :
  handler (answering numbers_answer)
    {| params_name := "zulip_get_users"; params_arguments := Some [] |} []
  = (Returned (text_result (JSON.stringify numbers_answer)), [users_retrieve])
  /\ JSON.parse (JSON.stringify numbers_answer) = Some numbers_answer.
Proof.
  destruct (success_round_trip (answering numbers_answer)
              {| params_name := "zulip_get_users"; params_arguments := Some [] |}
              [] [users_retrieve]
              (text_result (JSON.stringify numbers_answer)) eq_refl)
    as (R & (tr0 & call & _ & HR) & Hhandler & Hparse & _).
  injection HR as <-.
  split; [ exact Hhandler | ].
  apply Hparse. vm_compute. reflexivity.
Defined.

(** C7, as stated, fails on an answer that holds an infinite number or the
    negative zero.  The client decodes the body [{"id":1e999,"delta":-0}]
    to an object with the members [Infinity] and [-0]; the handler returns
    the text [{"id":null,"delta":0}], which decodes to another value. *)
Lemma success_round_trip_counterexample :
  JSON.parse body_out_of_range = Some answer_out_of_range
  /\ answered (answering answer_out_of_range) [users_retrieve]
       answer_out_of_range
  /\ handler (answering answer_out_of_range)
       {| params_name := "zulip_get_users"; params_arguments := Some [] |} []
     = (Returned (text_result (JSON.stringify answer_out_of_range)),
        [users_retrieve])
  /\ JSON.parse (JSON.stringify answer_out_of_range)
     = Some (JObj [("id", JNull); ("delta", JNum 0)])
  /\ JSON.parse (JSON.stringify answer_out_of_range)
     <> Some answer_out_of_range.
Proof.
  split; [ vm_compute; reflexivity | ].
  split; [ exists [], users_retrieve; split; reflexivity | ].
  split; [ reflexivity | ].
  split; [ vm_compute; reflexivity | vm_compute; discriminate ].
Qed.

(** The round trip on the answer of the example, computed. *)
Example users_answer_round_trip :
  well_formed users_answer = true
  /\ JSON.parse (JSON.stringify users_answer) = Some users_answer.
Proof. split; vm_compute; reflexivity. Qed.

(** The text of the numbers of the second example. *)
Example numbers_answer_text :
  JSON.stringify numbers_answer
  = "{" ++ String dquote ("result" ++ String dquote (":"
    ++ String dquote ("success" ++ String dquote (","
    ++ String dquote ("members" ++ String dquote (":[{"
    ++ String dquote ("user_id" ++ String dquote (":11,"
    ++ String dquote ("date_joined" ++ String dquote (":1700000000.5,"
    ++ String dquote ("drift" ++ String dquote (":-0.0025,"
    ++ String dquote ("quota" ++ String dquote (":1e+21,"
    ++ String dquote ("least" ++ String dquote ":5e-324}]}"))))))))))))))).
Proof. vm_compute. reflexivity. Qed.

(** * Further properties *)

(** ** The remaining facade methods *)

Lemma getStreams_call (client : Connection)
  (includePrivate includeWebPublic includeSubscribed : JsVal) (tr : Trace) :
  exists params,
    getStreams client includePrivate includeWebPublic includeSubscribed tr
    = (client tr (streams_retrieve params),
       (tr ++ [streams_retrieve params])%list).
Proof.
  unfold getStreams. rewrite try_catch_rethrow. cbv zeta.
  eexists. reflexivity.
Qed.

Lemma getTopics_call (client : Connection) (streamId : JsVal) (tr : Trace) :
  getTopics client streamId tr
  = let call := streams_topics_retrieve [("stream_id", streamId)] in
    (client tr call, (tr ++ [call])%list).
Proof. unfold getTopics. rewrite try_catch_rethrow. reflexivity. Qed.

Lemma subscribeToStream_call (client : Connection) (streamName : JsVal)
  (tr : Trace) :
  subscribeToStream client streamName tr
  = let call :=
      streams_subscribe
        [("subscriptions",
          Some (JStr (JSON.stringify
                        (JArr [JObj (JSON.defined_properties
                                       [("name", streamName)])]))))] in
    (client tr call, (tr ++ [call])%list).
Proof. unfold subscribeToStream. rewrite try_catch_rethrow. reflexivity. Qed.

Lemma getUsers_call (client : Connection) (tr : Trace) :
  getUsers client tr
  = (client tr users_retrieve, (tr ++ [users_retrieve])%list).
Proof. unfold getUsers. rewrite try_catch_rethrow. reflexivity. Qed.

(** ** The other cases of the dispatcher *)

(** For [zulip_get_channel_history] the handler checks [channel_name] and
    [topic] only: when one of them is absent or falsy it returns the error
    envelope naming the two and issues no call; otherwise it runs
    [getMessages] on the four arguments as they are ([limit] and [anchor]
    unchecked, possibly absent) and makes its result of the outcome. *)
Theorem channel_history_validation (client : Connection)
  (args : list (string * Json)) (tr : Trace) :
  handler client
    {| params_name := "zulip_get_channel_history";
       params_arguments := Some args |} tr
  = if ToBoolean (get_arg args "channel_name")
       && ToBoolean (get_arg args "topic")
    then
      let run :=
        getMessages client
          (get_arg args "channel_name") (get_arg args "topic")
          (get_arg args "limit") (get_arg args "anchor") tr in
      (Returned (result_of (fst run)), snd run)
    else
      (Returned
         (error_result "Missing required arguments: channel_name and topic"),
       tr).
Proof.
  unfold_handler. cbn [String.eqb Ascii.eqb Bool.eqb].
  destruct (ToBoolean (get_arg args "channel_name"));
    destruct (ToBoolean (get_arg args "topic")); cbn [negb orb andb];
    try reflexivity.
  rewrite catch_wrap. reflexivity.
Qed.

(** For [zulip_get_topics] the handler rejects the request exactly when
    [channel_id] is absent; any value that is present, also [0], [null] or
    the empty string, goes unchanged into one topics call as [stream_id]. *)
Theorem get_topics_validation (client : Connection)
  (args : list (string * Json)) (tr : Trace) :
  handler client
    {| params_name := "zulip_get_topics"; params_arguments := Some args |} tr
  = match get_arg args "channel_id" with
    | None =>
        (Returned (error_result "Missing required argument: channel_id"), tr)
    | Some channel_id =>
        let call := streams_topics_retrieve [("stream_id", Some channel_id)] in
        (Returned (result_of (client tr call)), (tr ++ [call])%list)
    end.
Proof.
  unfold_handler. cbn [String.eqb Ascii.eqb Bool.eqb].
  destruct (get_arg args "channel_id") as [channel_id | ]; [ | reflexivity ].
  replace (strict_equal (Some channel_id) undefined) with false
    by (destruct channel_id; reflexivity).
  rewrite catch_wrap, getTopics_call. reflexivity.
Qed.

(** For [zulip_get_users] the argument bag only has to be present: whatever
    it holds, the handler issues one user-list call and makes its result of
    the answer. *)
Theorem get_users_ignores_arguments (client : Connection)
  (args : list (string * Json)) (tr : Trace) :
  handler client
    {| params_name := "zulip_get_users"; params_arguments := Some args |} tr
  = (Returned (result_of (client tr users_retrieve)),
     (tr ++ [users_retrieve])%list).
Proof.
  unfold_handler. cbn [String.eqb Ascii.eqb Bool.eqb].
  rewrite catch_wrap, getUsers_call. reflexivity.
Qed.

(** For [zulip_subscribe_to_channel] with a [channel_name] given: a falsy
    name is rejected without a call; a truthy name goes into one subscribe
    call whose [subscriptions] parameter is a JSON text, and that text
    decodes to the one-element list [[{name: channel_name}]], whatever
    characters the name holds. *)
Theorem subscribe_sends_name_as_json (client : Connection)
  (args : list (string * Json)) (name : Json) (tr : Trace) :
  get_arg args "channel_name" = Some name ->
  well_formed name = true ->
  if ToBoolean (Some name) then
    exists text,
      handler client
        {| params_name := "zulip_subscribe_to_channel";
           params_arguments := Some args |} tr
      = (let call := streams_subscribe [("subscriptions", Some (JStr text))] in
         (Returned (result_of (client tr call)), (tr ++ [call])%list))
      /\ JSON.parse text = Some (JArr [JObj [("name", name)]])
  else
    handler client
      {| params_name := "zulip_subscribe_to_channel";
         params_arguments := Some args |} tr
    = (Returned (error_result "Missing required argument: channel_name"), tr).
Proof.
  intros Hname Hwf.
  unfold_handler. cbn [String.eqb Ascii.eqb Bool.eqb]. rewrite Hname.
  destruct (ToBoolean (Some name)); cbn [negb]; [ | reflexivity ].
  eexists. split.
  - rewrite catch_wrap, subscribeToStream_call. reflexivity.
  - cbn [defined_properties]. apply parse_stringify.
    cbn [well_formed forallb distinct_keys has_key negb andb snd].
    now rewrite Hwf.
Qed.

Lemma subscribe_sends_name_as_json_witness :
  exists text,
    handler users_of_example
      {| params_name := "zulip_subscribe_to_channel";
         params_arguments :=
           Some [("channel_name", JStr (String dquote "quoted\ name"))] |} []
    = (Returned (result_of (Returned users_answer)),
       [streams_subscribe [("subscriptions", Some (JStr text))]])
    /\ JSON.parse text
       = Some (JArr [JObj [("name", JStr (String dquote "quoted\ name"))]]).
Proof.
  exact (subscribe_sends_name_as_json users_of_example
           [("channel_name", JStr (String dquote "quoted\ name"))]
           (JStr (String dquote "quoted\ name")) [] eq_refl eq_refl).
Defined.

(** For [zulip_list_channels] no argument is required and none is checked:
    a flag that is absent takes its default, a flag that is present counts
    by its truthiness, whatever its type ([null], [0] and the empty string
    as false).  One stream-list call is issued, with [include_private: true]
    when that flag counts as true and [include_web_public: false],
    [include_subscribed: false] when those count as false. *)
Theorem list_channels_coerces_flags (client : Connection)
  (args : list (string * Json)) (tr : Trace) :
  let counts (k : string) (default : bool) : bool :=
    match get_arg args k with
    | None => default
    | Some v => ToBoolean (Some v)
    end in
  let params : JsObject :=
    ((if counts "include_private" false
      then [("include_private", Some (JBool true))] else [])
     ++ (if counts "include_web_public" true
         then [] else [("include_web_public", Some (JBool false))])
     ++ (if counts "include_subscribed" true
         then [] else [("include_subscribed", Some (JBool false))]))%list in
  handler client
    {| params_name := "zulip_list_channels"; params_arguments := Some args |} tr
  = (Returned (result_of (client tr (streams_retrieve params))),
     (tr ++ [streams_retrieve params])%list).
Proof.
  cbv zeta. unfold_handler. cbn [String.eqb Ascii.eqb Bool.eqb].
  rewrite catch_wrap. unfold getStreams. rewrite try_catch_rethrow.
  destruct (get_arg args "include_private") as [p | ],
    (get_arg args "include_web_public") as [w | ],
    (get_arg args "include_subscribed") as [s | ];
    cbn [default_parameter];
    try destruct (ToBoolean (Some p));
    try destruct (ToBoolean (Some w));
    try destruct (ToBoolean (Some s));
    reflexivity.
Qed.

(** ** The error envelope *)



(** ** More on the channel history *)

(** Whenever [getMessages], called with a stream name, a topic and a limit
    that is an integer or is left out, gets as far as the message-retrieve
    call, the [narrow] parameter of that call is JSON text that decodes to
    exactly the two filters, stream then topic, with the names as given
    (whatever characters they hold); the two counts are both the floor of
    half the limit, the limit being 20 when none is given; the anchor is
    the one given or "newest", and the outcome of [getMessages] is the
    outcome of that call. *)
Theorem getMessages_narrow_decodes (client : Connection) (tr : Trace)
  (streamName topic : Json) (limit : option Z) (anchor_given : JsVal)
  (o : Outcome Json) (p : MessagesRetrieveParams) :
  well_formed streamName = true ->
  well_formed topic = true ->
  getMessages client (Some streamName) (Some topic) (option_map JNum limit)
    anchor_given tr
  = (o, (tr ++ [list_all_streams; messages_retrieve p])%list) ->
  JSON.parse (narrow p)
  = Some (JArr [JObj [("operator", JStr "stream"); ("operand", streamName)];
                JObj [("operator", JStr "topic"); ("operand", topic)]])
  /\ num_before p
     = Some (match limit with Some n => n | None => 20 end / 2)%Z
  /\ num_after p = num_before p
  /\ anchor p = default_parameter anchor_given (JStr "newest")
  /\ o = client (tr ++ [list_all_streams])%list (messages_retrieve p).
Proof.
  intros Hname Htopic. rewrite getMessages_steps. cbv zeta.
  assert (Hshort : forall (o' : Outcome Json),
            (o', (tr ++ [list_all_streams])%list)
            = (o, (tr ++ [list_all_streams; messages_retrieve p])%list) ->
            False).
  { intros o' H. injection H as _ Htr.
    apply app_inv_head in Htr. discriminate Htr. }
  destruct (client tr list_all_streams) as [streamsResponse | e];
    [ | intros H; destruct (Hshort _ H) ].
  destruct (get_property (Some streamsResponse) "streams") as [streams | e];
    [ | intros H; destruct (Hshort _ H) ].
  destruct (call_find _ streams (name_is (Some streamName))) as [stream | e];
    [ | intros H; destruct (Hshort _ H) ].
  destruct (ToBoolean stream);
    [ | destruct (ToString_or_throw (Some streamName));
        intros H; destruct (Hshort _ H) ].
  assert (Hhalf :
    Math_floor_half (default_parameter (option_map JNum limit) (JNum 20))
    = Returned (Some (match limit with Some n => n | None => 20 end / 2)%Z))
    by (destruct limit; reflexivity).
  rewrite Hhalf.
  intros H. injection H as Ho Htr.
  rewrite <- List.app_assoc in Htr. apply app_inv_head in Htr.
  injection Htr as Hp. subst p o.
  cbn [narrow num_before num_after anchor].
  split; [ | repeat split ].
  refine (parse_stringify
            (JArr [JObj [("operator", JStr "stream"); ("operand", streamName)];
                   JObj [("operator", JStr "topic"); ("operand", topic)]]) _).
  cbn [well_formed forallb distinct_keys has_key negb andb orb snd
       String.eqb Ascii.eqb Bool.eqb].
  now rewrite Hname, Htopic.
Qed.

Lemma getMessages_narrow_decodes_witness :
  JSON.parse
    (JSON.stringify
       (JArr [JObj [("operator", JStr "stream"); ("operand", JStr "general")];
              JObj [("operator", JStr "topic");
                    ("operand", JStr (String dquote "intro\"))]]))
  = Some (JArr [JObj [("operator", JStr "stream"); ("operand", JStr "general")];
                JObj [("operator", JStr "topic");
                      ("operand", JStr (String dquote "intro\"))]]).
Proof.
  exact (proj1 (getMessages_narrow_decodes general_only []
                  (JStr "general") (JStr (String dquote "intro\"))
                  (Some 5%Z) None
                  (Returned (JObj [("messages", JArr [])]))
                  {| narrow :=
                       JSON.stringify
                         (JArr [JObj [("operator", JStr "stream");
                                      ("operand", JStr "general")];
                                JObj [("operator", JStr "topic");
                                      ("operand",
                                       JStr (String dquote "intro\"))]]);
                     num_before := Some 2%Z;
                     num_after := Some 2%Z;
                     anchor := JStr "newest" |}
                  eq_refl eq_refl eq_refl)).
Defined.

(** Whatever the limit given, when [getMessages] gets as far as the
    message-retrieve call the two counts are equal and are
    [Math.floor(limit / 2)] as JavaScript computes it on the limit converted
    to a number, the limit being 20 when none is given: the string "7"
    gives 3 and 3 like the number 7. *)
Theorem getMessages_counts_of_any_limit (client : Connection) (tr : Trace)
  (streamName topic limit anchor_given : JsVal)
  (o : Outcome Json) (p : MessagesRetrieveParams) :
  getMessages client streamName topic limit anchor_given tr
  = (o, (tr ++ [list_all_streams; messages_retrieve p])%list) ->
  Math_floor_half (default_parameter limit (JNum 20)) = Returned (num_before p)
  /\ num_after p = num_before p.
Proof.
  rewrite getMessages_steps. cbv zeta.
  assert (Hshort : forall (o' : Outcome Json),
            (o', (tr ++ [list_all_streams])%list)
            = (o, (tr ++ [list_all_streams; messages_retrieve p])%list) ->
            False).
  { intros o' H. injection H as _ Htr.
    apply app_inv_head in Htr. discriminate Htr. }
  destruct (client tr list_all_streams) as [streamsResponse | e];
    [ | intros H; destruct (Hshort _ H) ].
  destruct (get_property (Some streamsResponse) "streams") as [streams | e];
    [ | intros H; destruct (Hshort _ H) ].
  destruct (call_find _ streams (name_is streamName)) as [stream | e];
    [ | intros H; destruct (Hshort _ H) ].
  destruct (ToBoolean stream);
    [ | destruct (ToString_or_throw streamName);
        intros H; destruct (Hshort _ H) ].
  destruct (Math_floor_half (default_parameter limit (JNum 20)))
    as [half | e]; [ | intros H; destruct (Hshort _ H) ].
  intros H. injection H as _ Htr.
  rewrite <- List.app_assoc in Htr. apply app_inv_head in Htr.
  injection Htr as Hp. subst p. split; reflexivity.
Qed.

Lemma getMessages_counts_of_any_limit_witness :
  Math_floor_half (JStr "7") = Returned (Some 3%Z).
Proof.
  exact (proj1 (getMessages_counts_of_any_limit general_only []
                  (Some (JStr "general")) (Some (JStr "intro"))
                  (Some (JStr "7")) None
                  (Returned (JObj [("messages", JArr [])]))
                  {| narrow :=
                       JSON.stringify
                         (JArr [JObj [("operator", JStr "stream");
                                      ("operand", JStr "general")];
                                JObj [("operator", JStr "topic");
                                      ("operand", JStr "intro")]]);
                     num_before := Some 3%Z;
                     num_after := Some 3%Z;
                     anchor := JStr "newest" |}
                  eq_refl)).
Defined.

(** A limit that does not convert to a number (an object with a member
    [toString], or an array that holds one) stops the channel history after
    the stream was found: [Math.floor(limit / 2)] throws the [TypeError] of
    the conversion, the stream listing stays the only call, and the handler
    returns the error envelope of that error. *)
Theorem getMessages_limit_not_convertible (client : Connection) (tr : Trace)
  (streamName topic limit : Json) (anchor : JsVal)
  (streamsResponse : Json) (streams : list Json) (stream : Json) :
  client tr list_all_streams = Returned streamsResponse ->
  get_property (Some streamsResponse) "streams" = Returned (Some (JArr streams)) ->
  Array_find (name_is (Some streamName)) streams = Returned (Some stream) ->
  converts_to_primitive limit = false ->
  getMessages client (Some streamName) (Some topic) (Some limit) anchor tr
  = (Threw TypeError_cannot_convert, (tr ++ [list_all_streams])%list)
  /\ forall args,
       get_arg args "channel_name" = Some streamName ->
       get_arg args "topic" = Some topic ->
       get_arg args "limit" = Some limit ->
       get_arg args "anchor" = anchor ->
       ToBoolean (Some streamName) = true ->
       ToBoolean (Some topic) = true ->
       handler client
         {| params_name := "zulip_get_channel_history";
            params_arguments := Some args |} tr
       = (Returned (error_result "Cannot convert object to primitive value"),
          (tr ++ [list_all_streams])%list).
Proof.
  intros Hresponse Hstreams Hfind Hlimit.
  assert (Hthrows :
    getMessages client (Some streamName) (Some topic) (Some limit) anchor tr
    = (Threw TypeError_cannot_convert, (tr ++ [list_all_streams])%list)).
  { rewrite getMessages_steps. cbv zeta.
    rewrite Hresponse, Hstreams. cbn [call_find]. rewrite Hfind.
    rewrite (named_stream_truthy _ _ (Array_find_found _ _ _ Hfind)).
    cbn [default_parameter]. unfold Math_floor_half.
    destruct limit as [ | b | n | f d q | | f | s | l | m];
      try discriminate Hlimit; cbn [ToNumber]; now rewrite Hlimit. }
  split; [ exact Hthrows | ].
  intros args Hname Htopic Hlim Hanchor Tname Ttopic.
  unfold_handler. cbn [String.eqb Ascii.eqb Bool.eqb].
  rewrite Hname, Htopic, Hlim, Hanchor, Tname, Ttopic. cbn [negb orb].
  rewrite catch_wrap, Hthrows. reflexivity.
Qed.

Lemma getMessages_limit_not_convertible_witness :
  handler general_only
    {| params_name := "zulip_get_channel_history";
       params_arguments :=
         Some [("channel_name", JStr "general"); ("topic", JStr "intro");
               ("limit", JObj [("toString", JNull)])] |} []
  = (Returned (error_result "Cannot convert object to primitive value"),
     [list_all_streams]).
Proof.
  exact (proj2 (getMessages_limit_not_convertible general_only []
                  (JStr "general") (JStr "intro") (JObj [("toString", JNull)])
                  None
                  (JObj [("streams",
                          JArr [JObj [("name", JStr "general");
                                      ("id", JNum 7)]])])
                  [JObj [("name", JStr "general"); ("id", JNum 7)]]
                  (JObj [("name", JStr "general"); ("id", JNum 7)])
                  eq_refl eq_refl eq_refl eq_refl)
           [("channel_name", JStr "general"); ("topic", JStr "intro");
            ("limit", JObj [("toString", JNull)])]
           eq_refl eq_refl eq_refl eq_refl eq_refl eq_refl).
Defined.

(** When the stream listing itself fails, the channel history fails with what
    the listing threw: the handler reports the remote's message as it is, and
    no message is retrieved. *)
Theorem channel_history_listing_failure (client : Connection)
  (args : list (string * Json)) (tr : Trace) (e : Exception) :
  ToBoolean (get_arg args "channel_name") = true ->
  ToBoolean (get_arg args "topic") = true ->
  client tr list_all_streams = Threw e ->
  handler client
    {| params_name := "zulip_get_channel_history";
       params_arguments := Some args |} tr
  = (Returned (error_result (error_message e)),
     (tr ++ [list_all_streams])%list).
Proof.
  intros Hname Htopic Hfail.
  unfold_handler. cbn [String.eqb Ascii.eqb Bool.eqb].
  rewrite Hname, Htopic. cbn [negb orb].
  rewrite catch_wrap, getMessages_steps. cbv zeta. rewrite Hfail.
  reflexivity.
Qed.

Lemma channel_history_listing_failure_witness :
  handler listing_fails
    {| params_name := "zulip_get_channel_history";
       params_arguments :=
         Some [("channel_name", JStr "general"); ("topic", JStr "intro")] |} []
  = (Returned (error_result "Invalid API key"), [list_all_streams]).
Proof.
  exact (channel_history_listing_failure listing_fails
           [("channel_name", JStr "general"); ("topic", JStr "intro")] []
           (Error "Invalid API key") eq_refl eq_refl eq_refl).
Defined.

(** When the stream listing answers with a value that has no array of
    streams (an error report of the remote, say), the channel history does
    not report the stream as not found: reading the list throws a
    [TypeError], the handler returns the error envelope of its message, and
    no message is retrieved. *)
Theorem channel_history_without_stream_list (client : Connection)
  (args : list (string * Json)) (tr : Trace) (streamsResponse : Json) :
  ToBoolean (get_arg args "channel_name") = true ->
  ToBoolean (get_arg args "topic") = true ->
  client tr list_all_streams = Returned streamsResponse ->
  (forall l, member "streams" streamsResponse <> Some (JArr l)) ->
  exists message,
    getMessages client
      (get_arg args "channel_name") (get_arg args "topic")
      (get_arg args "limit") (get_arg args "anchor") tr
    = (Threw (Error message), (tr ++ [list_all_streams])%list)
    /\ message <> stream_not_found (get_arg args "channel_name")
    /\ handler client
         {| params_name := "zulip_get_channel_history";
            params_arguments := Some args |} tr
       = (Returned (error_result message), (tr ++ [list_all_streams])%list).
Proof.
  intros Hname Htopic Hresponse Hnolist.
  assert (Hthrows : exists message,
    getMessages client
      (get_arg args "channel_name") (get_arg args "topic")
      (get_arg args "limit") (get_arg args "anchor") tr
    = (Threw (Error message), (tr ++ [list_all_streams])%list)
    /\ message <> stream_not_found (get_arg args "channel_name")).
  { rewrite getMessages_steps. cbv zeta. rewrite Hresponse.
    unfold stream_not_found.
    destruct streamsResponse as [ | b | n | f d q | | f | s | l | m];
      cbn [get_property call_find];
      try (eexists; split; [ reflexivity | discriminate ]).
    cbn [member] in Hnolist.
    destruct (assoc "streams" m) as [[ | b | n | f d q | | f | s | l | m'] | ];
      cbn [call_find];
      try (eexists; split; [ reflexivity | discriminate ]).
    destruct (Hnolist l eq_refl). }
  destruct Hthrows as (message & Hthrows & Hother).
  exists message. split; [ exact Hthrows | ]. split; [ exact Hother | ].
  unfold_handler. cbn [String.eqb Ascii.eqb Bool.eqb].
  rewrite Hname, Htopic. cbn [negb orb].
  rewrite catch_wrap, Hthrows. reflexivity.
Qed.

Lemma channel_history_without_stream_list_witness :
  exists message,
    getMessages listing_without_streams
      (Some (JStr "general")) (Some (JStr "intro")) None None []
    = (Threw (Error message), [list_all_streams])
    /\ message <> stream_not_found (Some (JStr "general"))
    /\ handler listing_without_streams
         {| params_name := "zulip_get_channel_history";
            params_arguments :=
              Some [("channel_name", JStr "general");
                    ("topic", JStr "intro")] |} []
       = (Returned (error_result message), [list_all_streams]).
Proof.
  refine (channel_history_without_stream_list listing_without_streams
            [("channel_name", JStr "general"); ("topic", JStr "intro")] []
            (JObj [("result", JStr "error"); ("msg", JStr "Not allowed")])
            eq_refl eq_refl eq_refl _).
  intros l. discriminate.
Defined.

(** ** What a request can do to the remote *)

Lemma snd_catch_wrap (call : Async Json) (tr : Trace) :
  snd (try_catch
         (bind call (fun response =>
            ret {| content :=
                     [ {| type := "text";
                          text := JSON.stringify response |} ] |}))
         (fun error =>
            ret {| content :=
                     [ {| type := "text";
                          text :=
                            JSON.stringify
                              (JObj [("error",
                                      JStr match error with
                                           | Error message => message
                                           | Thrown value => ToString value
                                           end)]) |} ] |})
         tr)
  = snd (call tr).
Proof. rewrite catch_wrap. reflexivity. Qed.

(** The calls [getMessages] adds to the trace: the stream listing, and at
    most one message-retrieve call after it. *)
Lemma getMessages_calls (client : Connection)
  (streamName topic limit anchor : JsVal) (tr : Trace) :
  exists new,
    snd (getMessages client streamName topic limit anchor tr)
    = (tr ++ new)%list
    /\ List.length new <= 2
    /\ forallb (call_of_tool "zulip_get_channel_history") new = true.
Proof.
  rewrite getMessages_steps. cbv zeta.
  destruct (client tr list_all_streams) as [streamsResponse | e];
    [ | exists [list_all_streams]; repeat split; cbn; lia ].
  destruct (get_property (Some streamsResponse) "streams") as [streams | e];
    [ | exists [list_all_streams]; repeat split; cbn; lia ].
  destruct (call_find _ streams (name_is streamName)) as [stream | e];
    [ | exists [list_all_streams]; repeat split; cbn; lia ].
  destruct (ToBoolean stream);
    [ | destruct (ToString_or_throw streamName);
        exists [list_all_streams]; repeat split; cbn; lia ].
  destruct (Math_floor_half _) as [half | e];
    [ | exists [list_all_streams]; repeat split; cbn; lia ].
  eexists [list_all_streams; messages_retrieve _]. cbn [snd].
  rewrite <- List.app_assoc. repeat split. cbn. lia.
Qed.

(** Whatever the request and whatever the connection answers, the handler
    keeps the calls issued before, adds at most two calls (at most one unless
    the tool is the channel history), and adds only calls that belong to the
    tool named in the request: a tool that reads never sends a message, adds
    a reaction or subscribes, and a request that names no tool or has no
    argument bag issues no call at all. *)
Theorem handler_calls_belong_to_tool (client : Connection)
  (request : CallToolRequest) (tr : Trace) :
  exists new,
    snd (handler client request tr) = (tr ++ new)%list
    /\ List.length new <= 2
    /\ (params_name request <> "zulip_get_channel_history" -> List.length new <= 1)
    /\ forallb (call_of_tool (params_name request)) new = true
    /\ (params_arguments request = None -> new = []).
Proof.
  assert (Hnone : exists new,
            tr = (tr ++ new)%list /\ List.length new <= 2
            /\ (params_name request <> "zulip_get_channel_history" ->
                List.length new <= 1)
            /\ forallb (call_of_tool (params_name request)) new = true
            /\ (params_arguments request = None -> new = [])).
  { exists []. rewrite List.app_nil_r. repeat split; cbn; lia. }
  destruct request as [name [args | ]]; [ | exact Hnone ].
  cbn [params_name params_arguments] in *.
  unfold_handler.
  repeat match goal with
         | |- context [String.eqb name ?s] =>
             destruct (String.eqb_spec name s) as [-> | _]
         end;
    repeat match goal with
           | |- context [if ?b then _ else _] => destruct b
           end;
    try exact Hnone;
    rewrite snd_catch_wrap;
    try (destruct (getMessages_calls client
                     (get_arg args "channel_name") (get_arg args "topic")
                     (get_arg args "limit") (get_arg args "anchor") tr)
           as (new & Hnew & Hlen & Hkind);
         exists new; repeat split;
         [ exact Hnew | exact Hlen | intros H; now destruct H | exact Hkind
         | discriminate ]);
    try (destruct (getStreams_call client
                     (get_arg args "include_private")
                     (get_arg args "include_web_public")
                     (get_arg args "include_subscribed") tr)
           as (params & ->));
    rewrite ?sendStreamMessage_call, ?sendDirectMessage_call,
      ?addReaction_call, ?getTopics_call, ?subscribeToStream_call,
      ?getUsers_call;
    cbv zeta; cbn [snd];
    eexists [_]; (split; [ reflexivity | ]);
    repeat split; cbn; try lia; discriminate.
Qed.

(** Where an exception of the [try] block comes from.  Either no call was
    issued and the handler itself threw an [Error] (no argument bag, a
    missing argument, an unknown tool); or the last call issued threw it, and
    it is passed on as it is, nothing added to its message; or the tool is
    the channel history, the stream listing returned, and [getMessages] threw
    an [Error] of its own before retrieving any message. *)
Theorem handler_try_exception_origin (client : Connection)
  (request : CallToolRequest) (tr tr' : Trace) (e : Exception) :
  handler_try client request tr = (Threw e, tr') ->
  (tr' = tr /\ exists message, e = Error message)
  \/ (exists tr0 call,
        tr' = (tr0 ++ [call])%list /\ client tr0 call = Threw e)
  \/ (params_name request = "zulip_get_channel_history"
      /\ tr' = (tr ++ [list_all_streams])%list
      /\ (exists streamsResponse,
            client tr list_all_streams = Returned streamsResponse)
      /\ exists message, e = Error message).
Proof.
  assert (Hcall : forall (m : Async Json) call,
            m tr = (client tr call, (tr ++ [call])%list) ->
            bind m (fun response =>
              ret {| content :=
                       [ {| type := "text";
                            text := JSON.stringify response |} ] |}) tr
            = (Threw e, tr') ->
            exists tr0 call0,
              tr' = (tr0 ++ [call0])%list /\ client tr0 call0 = Threw e).
  { intros m call Hm. unfold bind, ret. rewrite Hm.
    destruct (client tr call) as [response | e0] eqn:Hanswer;
      intros H; inversion H; subst.
    exists tr, call. split; [ reflexivity | exact Hanswer ]. }
  destruct request as [name [args | ]]; unfold handler_try;
    cbn [params_name params_arguments].
  2:{ intros H. inversion H. left. split; [ reflexivity | eexists; reflexivity ]. }
  repeat match goal with
         | |- context [String.eqb name ?s] =>
             destruct (String.eqb_spec name s) as [-> | _]
         end;
    repeat match goal with
           | |- context [if ?b then _ else _] => destruct b
           end;
    try (intros H; inversion H; left;
         split; [ reflexivity | eexists; reflexivity ]);
    try (intros H; right; left; revert H;
         first [ apply Hcall with (call := users_retrieve); apply getUsers_call
               | eapply Hcall; apply sendStreamMessage_call
               | eapply Hcall; apply sendDirectMessage_call
               | eapply Hcall; apply addReaction_call
               | eapply Hcall; apply getTopics_call
               | eapply Hcall; apply subscribeToStream_call
               | destruct (getStreams_call client
                             (get_arg args "include_private")
                             (get_arg args "include_web_public")
                             (get_arg args "include_subscribed") tr)
                   as (params & Hstreams);
                 eapply Hcall; exact Hstreams ]).
  unfold bind, ret. rewrite getMessages_steps. cbv zeta.
  destruct (client tr list_all_streams) as [streamsResponse | e0] eqn:Hlist.
  2:{ intros H. inversion H; subst. right. left.
      exists tr, list_all_streams. split; [ reflexivity | exact Hlist ]. }
  assert (Hown : forall message,
            (Threw (Error message) : Outcome CallToolResult,
             (tr ++ [list_all_streams])%list) = (Threw e, tr') ->
            (tr' = tr /\ exists message, e = Error message)
            \/ (exists tr0 call,
                  tr' = (tr0 ++ [call])%list /\ client tr0 call = Threw e)
            \/ ("zulip_get_channel_history" = "zulip_get_channel_history"
                /\ tr' = (tr ++ [list_all_streams])%list
                /\ (exists streamsResponse0,
                      Returned streamsResponse = Returned streamsResponse0)
                /\ exists message, e = Error message)).
  { intros message H. inversion H; subst. right. right.
    repeat split; eexists; reflexivity. }
  destruct (get_property (Some streamsResponse) "streams") as [streams | e0]
    eqn:Hstreams.
  2:{ destruct streamsResponse; cbn [get_property] in Hstreams;
        try discriminate Hstreams;
        inversion Hstreams; subst; apply Hown. }
  destruct (call_find _ streams (name_is (get_arg args "channel_name")))
    as [stream | e0] eqn:Hfind.
  2:{ assert (Herror : exists message, e0 = Error message).
      { destruct streams as [[ | b | n | f d q | | f | s | l | m] | ];
          cbn [call_find] in Hfind;
          try (inversion Hfind; eexists; reflexivity).
        clear - Hfind. induction l as [ | x l IH]; cbn [Array_find] in Hfind;
          [ discriminate Hfind | ].
        unfold name_is at 1 in Hfind.
        destruct x; cbn [get_property] in Hfind;
          try (inversion Hfind; eexists; reflexivity);
          match type of Hfind with
          | context [if ?b then _ else _] => destruct b
          | context [match ?b with true => _ | false => _ end] => destruct b
          | _ => idtac
          end;
          try discriminate Hfind; try (apply IH; exact Hfind). }
      destruct Herror as (message & ->). apply Hown. }
  destruct (ToBoolean stream).
  2:{ destruct (ToString_or_throw (get_arg args "channel_name"))
        as [name | e0] eqn:Hname; [ apply Hown | ].
      rewrite (ToString_or_throw_throws _ _ Hname). apply Hown. }
  destruct (Math_floor_half _) as [half | e0] eqn:Hhalf.
  2:{ rewrite (Math_floor_half_throws _ _ Hhalf). apply Hown. }
  match goal with
  | |- context [client ?t ?c] =>
      destruct (client t c) as [response | e0] eqn:Hretrieve
  end; intros H; inversion H; subst.
  right. left. eexists; eexists. split; [ reflexivity | exact Hretrieve ].
Qed.

Lemma handler_try_exception_origin_witness :
  ([list_all_streams] = ([] : Trace)
   /\ exists message, Error "Invalid API key" = Error message)
  \/ (exists tr0 call,
        [list_all_streams] = (tr0 ++ [call])%list
        /\ listing_fails tr0 call = Threw (Error "Invalid API key"))
  \/ ("zulip_get_channel_history" = "zulip_get_channel_history"
      /\ [list_all_streams] = ([] ++ [list_all_streams])%list
      /\ (exists streamsResponse,
            listing_fails [] list_all_streams = Returned streamsResponse)
      /\ exists message, Error "Invalid API key" = Error message).
Proof.
  exact (handler_try_exception_origin listing_fails
           {| params_name := "zulip_get_channel_history";
              params_arguments :=
                Some [("channel_name", JStr "general");
                      ("topic", JStr "intro")] |}
           [] [list_all_streams] (Error "Invalid API key") eq_refl).
Defined.

(** ** The catalog and the dispatcher *)

Lemma app_one_not_self {A : Type} (l rest : list A) (x : A) :
  (l ++ x :: rest)%list <> l.
Proof.
  intros H. apply (f_equal (@List.length A)) in H.
  rewrite List.length_app in H. cbn [List.length] in H. lia.
Qed.

(** A facade call that was made and wrapped leaves a longer trace. *)
Lemma bind_wrap_grows (m : Async Json) (tr : Trace) (call : RemoteCall)
  (rest : list RemoteCall) (o : Outcome CallToolResult) :
  snd (m tr) = (tr ++ call :: rest)%list ->
  bind m (fun response =>
    ret {| content :=
             [ {| type := "text"; text := JSON.stringify response |} ] |}) tr
  <> (o, tr).
Proof.
  unfold bind, ret. destruct (m tr) as [[response | e] tr1]; cbn [snd];
    intros -> H; inversion H as [[Ho Htr]];
    exact (app_one_not_self _ _ _ Htr).
Qed.

(** The tools listed are the tools routed.  The handler of
    [ListToolsRequest] returns eight tools whose names are distinct, and the
    handler of [CallToolRequest] throws "Unknown tool" (before any call)
    exactly for the names that are not among them. *)
Theorem listed_tools_are_routed (client : Connection) (name : string)
  (args : list (string * Json)) (tr : Trace) :
  List.length listed_tools = 8
  /\ NoDup (map tool_name listed_tools)
  /\ (handler_try client
        {| params_name := name; params_arguments := Some args |} tr
      = (Threw (Error ("Unknown tool: " ++ name)), tr)
      <-> ~ In name (map tool_name listed_tools)).
Proof.
  split; [ reflexivity | ]. split.
  { cbv [listed_tools handler_list_tools ret member assoc tool_name map
         String.eqb Ascii.eqb Bool.eqb].
    repeat constructor; cbv [In]; intros H;
      repeat (destruct H as [H | H]; [ discriminate H | ]); exact H. }
  change (map tool_name listed_tools) with tool_names.
  unfold handler_try; cbn [params_name params_arguments].
  split.
  - intros Hthrow Hin. revert Hthrow.
    cbv [tool_names In] in Hin.
    repeat (destruct Hin as [<- | Hin]);
      try (destruct Hin);
      cbn [String.eqb Ascii.eqb Bool.eqb];
      repeat match goal with
             | |- context [if ?b then _ else _] => destruct b
             end;
      try (intros H; inversion H; fail);
      try (apply bind_wrap_grows with (call := list_all_streams)
             (rest := _);
           fail);
      try (destruct (getMessages_lists_streams_first client
                       (get_arg args "channel_name") (get_arg args "topic")
                       (get_arg args "limit") (get_arg args "anchor") tr)
             as (rest & Hrest);
           exact (bind_wrap_grows _ _ _ _ _ Hrest));
      try (destruct (getStreams_call client
                       (get_arg args "include_private")
                       (get_arg args "include_web_public")
                       (get_arg args "include_subscribed") tr)
             as (params & Hstreams);
           apply bind_wrap_grows with (call := streams_retrieve params)
             (rest := []);
           rewrite Hstreams; reflexivity);
      eapply bind_wrap_grows with (rest := []);
      rewrite ?sendStreamMessage_call, ?sendDirectMessage_call,
        ?addReaction_call, ?getTopics_call, ?subscribeToStream_call,
        ?getUsers_call; reflexivity.
  - intros Hname.
    repeat match goal with
           | |- context [String.eqb name ?s] =>
               destruct (String.eqb_spec name s) as [-> | _];
               [ exfalso; apply Hname; cbv [tool_names In]; tauto | ]
           end.
    reflexivity.
Qed.

(** Opens the membership of a tool in the catalog into its eight cases. *)
Ltac each_listed_tool H :=
  cbv [listed_tools handler_list_tools ret member assoc
       String.eqb Ascii.eqb Bool.eqb In] in H;
  repeat (destruct H as [<- | H]); [ .. | destruct H ].

(** The handler enforces what the schemas require: for every tool of the
    catalog and every name its input schema lists under [required], a request
    whose argument bag lacks that argument is turned down before any remote
    call, with a message that starts "Missing required argument". *)
Theorem required_arguments_enforced (client : Connection) (tool : Json)
  (field : string) (args : list (string * Json)) (tr : Trace) :
  In tool listed_tools ->
  In field (schema_required tool) ->
  get_arg args field = None ->
  exists message,
    handler client
      {| params_name := tool_name tool; params_arguments := Some args |} tr
    = (Returned (error_result message), tr)
    /\ starts_with "Missing required argument" message = true.
Proof.
  intros Htool Hfield Habsent.
  each_listed_tool Htool;
    cbv [schema_required member assoc flat_map app In
         String.eqb Ascii.eqb Bool.eqb] in Hfield;
    repeat (destruct Hfield as [<- | Hfield]); try destruct Hfield;
    change (tool_name _) with "zulip_post_message"
    || change (tool_name _) with "zulip_send_direct_message"
    || change (tool_name _) with "zulip_add_reaction"
    || change (tool_name _) with "zulip_get_channel_history"
    || change (tool_name _) with "zulip_get_topics"
    || change (tool_name _) with "zulip_subscribe_to_channel";
    unfold_handler; cbn [String.eqb Ascii.eqb Bool.eqb];
    rewrite Habsent; cbn [ToBoolean strict_equal negb orb];
    repeat match goal with
           | |- context [ToBoolean (get_arg args ?k)] =>
               destruct (ToBoolean (get_arg args k))
           | |- context [strict_equal (get_arg args ?k) undefined] =>
               destruct (strict_equal (get_arg args k) undefined)
           end;
    cbn [negb orb];
    eexists; split; reflexivity.
Qed.

Lemma required_arguments_enforced_witness :
  exists message,
    handler users_of_example
      {| params_name := "zulip_post_message";
         params_arguments :=
           Some [("channel_name", JStr "general"); ("content", JStr "hi")] |}
      []
    = (Returned (error_result message), [])
    /\ starts_with "Missing required argument" message = true.
Proof.
  refine (required_arguments_enforced users_of_example postMessageTool
            "topic" [("channel_name", JStr "general"); ("content", JStr "hi")]
            [] _ _ eq_refl).
  - cbv [listed_tools handler_list_tools ret member assoc
         String.eqb Ascii.eqb Bool.eqb In]. right; left; reflexivity.
  - cbv [schema_required postMessageTool member assoc flat_map app In
         String.eqb Ascii.eqb Bool.eqb]. right; left; reflexivity.
Defined.

(** The handler reads only what the schemas declare: for every tool of the
    catalog, two argument bags that agree on the properties declared in the
    tool's input schema get the same result and cause the same calls; any
    other member of the bag is ignored. *)
Theorem undeclared_arguments_ignored (client : Connection) (tool : Json)
  (args args' : list (string * Json)) (tr : Trace) :
  In tool listed_tools ->
  (forall k, In k (map fst (schema_properties tool)) ->
             get_arg args k = get_arg args' k) ->
  handler client
    {| params_name := tool_name tool; params_arguments := Some args |} tr
  = handler client
      {| params_name := tool_name tool; params_arguments := Some args' |} tr.
Proof.
  intros Htool Hagree.
  each_listed_tool Htool;
    match goal with
    | |- context [tool_name ?t] =>
        let n := eval cbv in (tool_name t) in change (tool_name t) with n
    end;
    unfold_handler; cbn [String.eqb Ascii.eqb Bool.eqb];
    repeat match goal with
           | |- context [get_arg args ?k] =>
               rewrite (Hagree k ltac:(cbv; auto 12))
           end;
    reflexivity.
Qed.

Lemma undeclared_arguments_ignored_witness :
  handler users_of_example
    {| params_name := "zulip_get_topics";
       params_arguments :=
         Some [("channel_id", JNum 7); ("limit", JNum 3)] |} []
  = handler users_of_example
      {| params_name := "zulip_get_topics";
         params_arguments := Some [("verbose", JBool true);
                                   ("channel_id", JNum 7)] |} [].
Proof.
  refine (undeclared_arguments_ignored users_of_example getTopicsTool
            [("channel_id", JNum 7); ("limit", JNum 3)]
            [("verbose", JBool true); ("channel_id", JNum 7)] [] _ _).
  - cbv [listed_tools handler_list_tools ret member assoc
         String.eqb Ascii.eqb Bool.eqb In].
    do 5 right; left; reflexivity.
  - cbv [schema_properties getTopicsTool member assoc map fst In
         String.eqb Ascii.eqb Bool.eqb].
    intros k [<- | []]. reflexivity.
Defined.

Lemma assoc_insert_other {A : Type} (k k' : string) (v : A)
  (a b : list (string * A)) :
  k' <> k -> assoc k' (a ++ (k, v) :: b)%list = assoc k' (a ++ b)%list.
Proof.
  intros Hk. induction a as [ | [k0 v0] a IH]; cbn [app assoc].
  - destruct (String.eqb_spec k' k) as [-> | _]; [ now destruct Hk | reflexivity ].
  - now rewrite IH.
Qed.

Lemma assoc_insert_absent {A : Type} (k : string) (v : A)
  (a b : list (string * A)) :
  assoc k (a ++ b)%list = None -> assoc k (a ++ (k, v) :: b)%list = Some v.
Proof.
  induction a as [ | [k0 v0] a IH]; cbn [app assoc].
  - now rewrite String.eqb_refl.
  - destruct (String.eqb k k0); [ discriminate | exact IH ].
Qed.

(** The defaults the schemas declare are the defaults the code applies: for
    every tool of the catalog and every property for which its input schema
    declares a default, leaving the argument out and passing the declared
    default give the same result and the same calls.  (The five cases are the
    three flags of the channel listing, and [limit] and [anchor] of the
    channel history.) *)
Theorem declared_defaults_applied (client : Connection) (tool : Json)
  (k : string) (d : Json) (args1 args2 : list (string * Json)) (tr : Trace) :
  In tool listed_tools ->
  schema_default tool k = Some d ->
  get_arg (args1 ++ args2)%list k = None ->
  handler client
    {| params_name := tool_name tool;
       params_arguments := Some (args1 ++ (k, d) :: args2)%list |} tr
  = handler client
      {| params_name := tool_name tool;
         params_arguments := Some (args1 ++ args2)%list |} tr.
Proof.
  intros Htool Hdefault Habsent.
  assert (Hother : forall k', k' <> k ->
            get_arg (args1 ++ (k, d) :: args2)%list k'
            = get_arg (args1 ++ args2)%list k')
    by (intros k' Hk; now apply assoc_insert_other).
  pose proof (assoc_insert_absent k d args1 args2 Habsent) as Hgiven.
  fold (get_arg (args1 ++ (k, d) :: args2)%list k) in Hgiven.
  each_listed_tool Htool;
    unfold schema_default, schema_properties in Hdefault;
    cbn [member assoc String.eqb Ascii.eqb Bool.eqb
         listChannelsTool postMessageTool sendDirectMessageTool
         addReactionTool getChannelHistoryTool getTopicsTool
         subscribeToChannelTool getUsersTool] in Hdefault;
    repeat match type of Hdefault with
           | context [String.eqb k ?s] =>
               destruct (String.eqb_spec k s) as [-> | ?];
               cbn [member assoc String.eqb Ascii.eqb Bool.eqb] in Hdefault
           end;
    try discriminate Hdefault;
    injection Hdefault as <-;
    match goal with
    | |- context [tool_name ?t] =>
        let n := eval cbv in (tool_name t) in change (tool_name t) with n
    end;
    unfold_handler; cbn [String.eqb Ascii.eqb Bool.eqb];
    rewrite Hgiven, Habsent, !Hother by discriminate;
    reflexivity.
Qed.

Lemma declared_defaults_applied_witness :
  handler general_only
    {| params_name := "zulip_get_channel_history";
       params_arguments :=
         Some [("channel_name", JStr "general"); ("limit", JNum 20);
               ("topic", JStr "intro")] |} []
  = handler general_only
      {| params_name := "zulip_get_channel_history";
         params_arguments :=
           Some [("channel_name", JStr "general");
                 ("topic", JStr "intro")] |} [].
Proof.
  refine (declared_defaults_applied general_only getChannelHistoryTool
            "limit" (JNum 20)
            [("channel_name", JStr "general")] [("topic", JStr "intro")] []
            _ eq_refl eq_refl).
  cbv [listed_tools handler_list_tools ret member assoc
       String.eqb Ascii.eqb Bool.eqb In].
  do 4 right; left; reflexivity.
Defined.

(** ** Start-up *)

(** [main] goes on to build the client only with the three credentials set
    and not empty, and then takes them over unchanged; as soon as one of
    [ZULIP_EMAIL], [ZULIP_API_KEY] and [ZULIP_URL] is not set or is the empty
    string, it exits with status 1. *)
Theorem main_requires_credentials (env : string -> option string) :
  match main_credentials env with
  | Configured zulipConfig =>
      env "ZULIP_EMAIL" = Some (username zulipConfig)
      /\ env "ZULIP_API_KEY" = Some (apiKey zulipConfig)
      /\ env "ZULIP_URL" = Some (realm zulipConfig)
      /\ username zulipConfig <> ""
      /\ apiKey zulipConfig <> ""
      /\ realm zulipConfig <> ""
  | Exit code =>
      code = 1%Z
      /\ exists variable,
           In variable ["ZULIP_EMAIL"; "ZULIP_API_KEY"; "ZULIP_URL"]
           /\ (env variable = None \/ env variable = Some "")
  end.
Proof.
  unfold main_credentials. cbv zeta.
  destruct (env "ZULIP_EMAIL") as [[ | c1 s1] | ] eqn:Hemail;
    destruct (env "ZULIP_API_KEY") as [[ | c2 s2] | ] eqn:Hkey;
    destruct (env "ZULIP_URL") as [[ | c3 s3] | ] eqn:Hurl;
    cbn [option_map ToBoolean String.eqb negb orb];
    try (repeat split; discriminate);
    (split; [ reflexivity | ]);
    first [ exists "ZULIP_EMAIL"; split; [ cbn; tauto | ];
            rewrite Hemail; (left; reflexivity) || (right; reflexivity)
          | exists "ZULIP_API_KEY"; split; [ cbn; tauto | ];
            rewrite Hkey; (left; reflexivity) || (right; reflexivity)
          | exists "ZULIP_URL"; split; [ cbn; tauto | ];
            rewrite Hurl; (left; reflexivity) || (right; reflexivity) ].
Qed.

(** ** Success and failure look alike *)

(** The handler never marks a failure apart from a success: when a remote
    call succeeds with an answer of the form [{error: message}], the result
    is, to the last character, the error envelope that a failure with that
    message gets. *)
Theorem error_answer_looks_like_failure (client : Connection)
  (request : CallToolRequest) (tr tr0 : Trace) (call : RemoteCall)
  (r : CallToolResult) (message : string) :
  handler_try client request tr = (Returned r, (tr0 ++ [call])%list) ->
  client tr0 call = Returned (JObj [("error", JStr message)]) ->
  handler client request tr
  = (Returned (error_result message), (tr0 ++ [call])%list).
Proof.
  intros Htry Hanswer.
  destruct (handler_try_success _ _ _ _ _ Htry)
    as (R & (tr1 & call1 & Htrace & Hanswer1) & ->).
  apply app_inj_tail in Htrace as [<- <-].
  rewrite Hanswer in Hanswer1. injection Hanswer1 as <-.
  unfold handler, try_catch. rewrite Htry. reflexivity.
Qed.

Lemma error_answer_looks_like_failure_witness :
  handler (fun _ _ => Returned (JObj [("error", JStr "Invalid API key")]))
    {| params_name := "zulip_get_users"; params_arguments := Some [] |} []
  = (Returned (error_result "Invalid API key"), [users_retrieve]).
Proof.
  exact (error_answer_looks_like_failure
           (fun _ _ => Returned (JObj [("error", JStr "Invalid API key")]))
           {| params_name := "zulip_get_users"; params_arguments := Some [] |}
           [] [] users_retrieve
           (error_result "Invalid API key") "Invalid API key"
           eq_refl eq_refl).
Defined.
